(** * Real-Debrid Manager: the background coordination core

    A shallow embedding of the parts of the extension that hold state and
    take decisions:

    - [Client]     : lib/api/client.ts   (sliding-window limiter, [request])
    - [Auth]       : lib/auth.ts         ([AuthData], [isTokenExpired])
    - [Storage]    : lib/storage.ts      (typed wrapper over the key-value areas)
    - [Messaging]  : lib/messaging.ts    (response envelope, [createMessageListener])
    - [Background] : the background script (token lifecycle, torrent polling,
                     message handlers)
    - [Api]        : lib/api            (the verbs of the client and the endpoints)
    - [AuthFlow]   : lib/auth.ts        (token endpoint calls, the device flow)
    - [StorageUpdates] : lib/storage.ts (preferences, clearing the cached profile)
    - [Tabs]       : the background script (detected links, the badge of a tab)
    - [Scanner]    : contents/link-scanner.ts

    Numbers are integers ([Z]); clock readings are milliseconds since the
    epoch.  An [async] function is a function of the state it may touch and
    of the outcomes that the platform hands back to it (clock readings,
    network responses); a rejected promise is a [Throw]. *)

From Stdlib Require Import ZArith Lia.
From Stdlib Require QArith.
From stdpp Require Import gmap strings list fin_maps pretty.

(** ** JavaScript values, errors and promises *)

Module Js.

(** The errors this code base raises.  [Error] also stands for the errors
    the platform raises ([TypeError] of [fetch], [SyntaxError] of
    [response.json()]): all of them are instances of [Error]. *)
Inductive JsError : Type :=
| Error (message : string)
| RealDebridApiError (message : string) (status : Z) (code : option Z)
| OAuthError (message : string) (code : option string).

Definition message (e : JsError) : string :=
  match e with
  | Error m => m
  | RealDebridApiError m _ _ => m
  | OAuthError m _ => m
  end.

(** Outcome of a call that may throw (of a promise that may reject). *)
Inductive Result (A : Type) : Type :=
| Ok (a : A)
| Throw (e : JsError).
Arguments Ok {A} a.
Arguments Throw {A} e.

(** An [async] function over a state [S]: the state changes made before a
    rejection are kept. *)
Definition Async (S A : Type) : Type := S → Result A * S.

Definition resolve {S A} (a : A) : Async S A := λ s, (Ok a, s).
Definition reject {S A} (e : JsError) : Async S A := λ s, (Throw e, s).
Definition await {S A B} (m : Async S A) (k : A → Async S B) : Async S B :=
  λ s, match m s with
       | (Ok a, s') => k a s'
       | (Throw e, s') => (Throw e, s')
       end.
(** [try { m } catch (err) { handler err }]. *)
Definition tryCatch {S A} (m : Async S A) (handler : JsError → Async S A) : Async S A :=
  λ s, match m s with
       | (Ok a, s') => (Ok a, s')
       | (Throw e, s') => handler e s'
       end.
Definition gets {S A} (f : S → A) : Async S A := λ s, (Ok (f s), s).
Definition modify {S} (f : S → S) : Async S unit := λ s, (Ok tt, f s).

#[global] Instance Async_ret {S} : MRet (Async S) := λ A, resolve.
#[global] Instance Async_bind {S} : MBind (Async S) := λ A B k m, await m k.

(** The primitive values that occur as fields of request bodies. *)
Inductive JsValue : Type :=
| JsUndefined
| JsNull
| JsBoolean (b : bool)
| JsNumber (n : Z)
| JsString (s : string).

(** [String(value)]. *)
Definition String_ (v : JsValue) : string :=
  match v with
  | JsUndefined => "undefined"
  | JsNull => "null"
  | JsBoolean true => "true"
  | JsBoolean false => "false"
  | JsNumber n => pretty n
  | JsString s => s
  end.

(** Truthiness of a string and of a number. *)
Definition truthy_string (s : string) : bool := negb (String.eqb s "").
Definition truthy_number (n : Z) : bool := negb (n =? 0)%Z.

(** [s.includes(sub)]. *)
Fixpoint includes (s sub : string) : bool :=
  String.prefix sub s
  || match s with
     | EmptyString => false
     | String _ s' => includes s' sub
     end.

End Js.

(** ** lib/api/client.ts *)

Module Client.
Import Js.
Local Open Scope Z_scope.

Definition BASE_URL : string := "https://api.real-debrid.com/rest/1.0".

Definition RATE_LIMIT : Z := 250.
Definition RATE_WINDOW_MS : Z := 60000.

Inductive HttpMethod : Type := GET | POST | PUT | DELETE.

(** A [FormData] body is opaque to the client: it is handed to [fetch] as
    it is. *)
Record FormData : Type := { parts : list (string * string) }.

(** What a caller may pass as [body] (when it is not [undefined]). *)
Inductive Body : Type :=
| BodyFormData (fd : FormData)
| BodyObject (entries : list (string * JsValue))  (* in [Object.entries] order *)
| BodyNull                                        (* [typeof null === "object"] *)
| BodyPrimitive.                                  (* string, number, boolean *)

Record RequestOptions : Type := {
  method : HttpMethod;
  path : string;
  body : option Body;
  token : option string;
  skipAuth : bool;
}.

(** The body handed to [fetch]: the [FormData] itself, or
    [params.toString()] of a [URLSearchParams] holding the appended pairs
    in order. *)
Inductive SentBody : Type :=
| SentFormData (fd : FormData)
| SentUrlEncoded (params : list (string * string)).

Record RequestInit : Type := {
  init_method : HttpMethod;
  init_headers : gmap string string;
  init_body : option SentBody;
}.

(** A parsed JSON body, read at the two types the code casts it to. *)
Record ApiError : Type := {
  error : option string;
  error_code : option Z;
}.

Record JsonBody (TResponse : Type) : Type := {
  asApiError : ApiError;
  asResponse : TResponse;
}.
Arguments asApiError {TResponse} _.
Arguments asResponse {TResponse} _.

Record Response (TResponse : Type) : Type := {
  status : Z;
  statusText : string;
  contentType : option string;              (* [headers.get("content-type")] *)
  json : Result (JsonBody TResponse);       (* outcome of [response.json()] *)
}.
Arguments status {TResponse} _.
Arguments statusText {TResponse} _.
Arguments contentType {TResponse} _.
Arguments json {TResponse} _.

(** [response.ok]: the status is in the range 200-299. *)
Definition ok {T} (r : Response T) : bool :=
  (200 <=? status r) && (status r <=? 299).

(** What [request] resolves to: [{}] or the parsed body. *)
Inductive ResponseValue (TResponse : Type) : Type :=
| EmptyObject
| Parsed (data : TResponse).
Arguments EmptyObject {TResponse}.
Arguments Parsed {TResponse} data.

Record RateLimitStatus : Type := { remaining : Z; resetInMs : Z }.

(** [getRateLimitStatus]: the status, and [requestTimestamps] as it leaves
    it. *)
Definition getRateLimitStatus (now : Z) (requestTimestamps : list Z)
  : RateLimitStatus * list Z :=
  let requestTimestamps := filter (λ ts, now - ts < RATE_WINDOW_MS) requestTimestamps in
  let resetInMs :=
    match head requestTimestamps with
    | Some oldestTimestamp =>
        if truthy_number oldestTimestamp
        then RATE_WINDOW_MS - (now - oldestTimestamp)
        else 0
    | None => 0
    end in
  ({| remaining := RATE_LIMIT - Z.of_nat (length requestTimestamps);
      resetInMs := Z.max 0 resetInMs |},
   requestTimestamps).

Definition trackRequest (now : Z) (requestTimestamps : list Z) : list Z :=
  filter (λ ts, now - ts < RATE_WINDOW_MS) requestTimestamps ++ [now].

(** [waitForRateLimit]: the delay of the timer it awaits, if it awaits one. *)
Definition waitForRateLimit (now : Z) (requestTimestamps : list Z)
  : option Z * list Z :=
  let '(st, requestTimestamps) := getRateLimitStatus now requestTimestamps in
  if remaining st <=? 0
  then (Some (resetInMs st + 100), requestTimestamps)
  else (None, requestTimestamps).

(** The pairs appended to the [URLSearchParams] for an object body. *)
Fixpoint encodeEntries (entries : list (string * JsValue)) : list (string * string) :=
  match entries with
  | [] => []
  | (key, value) :: rest =>
      match value with
      | JsUndefined | JsNull => encodeEntries rest
      | _ => (key, String_ value) :: encodeEntries rest
      end
  end.

(** What the platform hands back to one call of [request]. *)
Inductive FetchOutcome (TResponse : Type) : Type :=
| NetworkFailure (e : JsError)
| Responded (r : Response TResponse).
Arguments NetworkFailure {TResponse} e.
Arguments Responded {TResponse} r.

Record RequestEnv (TResponse : Type) : Type := {
  arrival : Z;     (* [Date.now()] read by the limiter's check *)
  lateness : Z;    (* time from the end of the wait to [trackRequest] *)
  fetched : FetchOutcome TResponse;
}.
Arguments arrival {TResponse} _.
Arguments lateness {TResponse} _.
Arguments fetched {TResponse} _.

(** What one call of [request] did besides returning. *)
Record RequestTrace : Type := {
  suspension : option Z;                      (* delay of the limiter's timer *)
  dispatched : option (Z * string * RequestInit);  (* time, url, options of [fetch] *)
}.

Definition hasJson {T} (r : Response T) : bool :=
  match contentType r with
  | Some ct => includes ct "application/json"
  | None => false
  end.

(** The part of [request] after [fetch] has resolved. *)
Definition normalize {T} (response : Response T) : Result (ResponseValue T) :=
  if negb (ok response) then
    if hasJson response then
      match json response with
      | Throw e => Throw e
      | Ok parsed =>
          let errorData := asApiError parsed in
          let msg :=
            match error errorData with
            | Some m => if truthy_string m then m else "Unknown API error"
            | None => "Unknown API error"
            end in
          Throw (RealDebridApiError msg (status response) (error_code errorData))
      end
    else
      Throw (RealDebridApiError
               ("HTTP " +:+ pretty (status response) +:+ ": " +:+ statusText response)
               (status response) None)
  else if (status response =? 204) || negb (hasJson response) then
    Ok EmptyObject
  else
    match json response with
    | Throw e => Throw e
    | Ok parsed => Ok (Parsed (asResponse parsed))
    end.

Definition request {T} (options : RequestOptions) (env : RequestEnv T)
    (requestTimestamps : list Z)
  : Result (ResponseValue T) * RequestTrace * list Z :=
  let '(waited, requestTimestamps) := waitForRateLimit (arrival env) requestTimestamps in
  let url := BASE_URL +:+ path options in
  let headers : gmap string string := ∅ in
  let authorized : Result (gmap string string) :=
    if skipAuth options then Ok headers
    else match token options with
         | Some t =>
             if truthy_string t
             then Ok (<["Authorization" := "Bearer " +:+ t]> headers)
             else Throw (RealDebridApiError "Authorization token is required" 401 None)
         | None => Throw (RealDebridApiError "Authorization token is required" 401 None)
         end in
  match authorized with
  | Throw e => (Throw e, {| suspension := waited; dispatched := None |}, requestTimestamps)
  | Ok headers =>
      let prepared : Result (gmap string string * option SentBody) :=
        match body options with
        | None => Ok (headers, None)
        | Some (BodyFormData fd) => Ok (headers, Some (SentFormData fd))
        | Some (BodyObject entries) =>
            Ok (<["Content-Type" := "application/x-www-form-urlencoded"]> headers,
                Some (SentUrlEncoded (encodeEntries entries)))
        | Some BodyNull =>
            Throw (Error "Cannot convert undefined or null to object")
        | Some BodyPrimitive => Ok (headers, None)
        end in
      match prepared with
      | Throw e => (Throw e, {| suspension := waited; dispatched := None |}, requestTimestamps)
      | Ok (headers, sent) =>
          let fetchOptions :=
            {| init_method := method options; init_headers := headers; init_body := sent |} in
          let now := arrival env + default 0 waited + lateness env in
          let requestTimestamps := trackRequest now requestTimestamps in
          let trace :=
            {| suspension := waited; dispatched := Some (now, url, fetchOptions) |} in
          match fetched env with
          | NetworkFailure e => (Throw e, trace, requestTimestamps)
          | Responded response => (normalize response, trace, requestTimestamps)
          end
      end
  end.

(** A caller that awaits each call before it makes the next: [gap] is the
    time from the previous call's dispatch (or from the start) to this
    call's limiter check. *)
Record Call (T : Type) : Type := {
  gap : Z;
  options : RequestOptions;
  late : Z;
  outcome : FetchOutcome T;
}.
Arguments gap {T} _.
Arguments options {T} _.
Arguments late {T} _.
Arguments outcome {T} _.

Fixpoint serial {T} (clock : Z) (calls : list (Call T)) (requestTimestamps : list Z)
  : list RequestTrace * list Z :=
  match calls with
  | [] => ([], requestTimestamps)
  | c :: rest =>
      let env := {| arrival := clock + gap c; lateness := late c; fetched := outcome c |} in
      let '(_, trace, requestTimestamps) := request (options c) env requestTimestamps in
      let clock := arrival env + default 0 (suspension trace) + lateness env in
      let '(traces, requestTimestamps) := serial clock rest requestTimestamps in
      (trace :: traces, requestTimestamps)
  end.

(** The times at which requests were dispatched. *)
Definition dispatchTimes (traces : list RequestTrace) : list Z :=
  omap (λ t, (λ d, d.1.1) <$> dispatched t) traces.

(** How many of [times] lie in the 60 seconds that end at [t]. *)
Definition inTrailingWindow (t : Z) (times : list Z) : nat :=
  length (filter (λ d, t - d < RATE_WINDOW_MS ∧ d ≤ t) times).

(** The invariant of the limiter under a caller that makes its calls one
    after another: [history] holds the dispatch times so far, and the array
    holds those of them that were inside the window at the last clock
    reading. *)
Definition windowBound (history : list Z) : Prop :=
  ∀ t, (inTrailingWindow t history ≤ 250)%nat.

Definition limiterInvariant (clock : Z) (requestTimestamps history : list Z) : Prop :=
  0 < clock
  ∧ ∃ last,
      last ≤ clock
      ∧ Forall (λ d, 0 < d ∧ d ≤ last) history
      ∧ requestTimestamps = filter (λ ts, last - ts < RATE_WINDOW_MS) history
      ∧ windowBound history.

(** The calls that [request] does not reject before it reaches [fetch]. *)
Definition sendable (options : RequestOptions) : bool :=
  (skipAuth options
   || match token options with
      | Some t => truthy_string t
      | None => false
      end)
  && match body options with
     | Some BodyNull => false
     | _ => true
     end.

(** [n] calls made in the same turn of the event loop: each one runs up to
    its first [await], so all of them make the limiter's check on the same
    array, before any of them goes on to [trackRequest] once its wait is
    over. *)
Definition overlapping (now : Z) (n : nat) (requestTimestamps : list Z) : list Z :=
  let '(waited, requestTimestamps) := waitForRateLimit now requestTimestamps in
  Nat.iter n (trackRequest (now + default 0 waited)) requestTimestamps.

End Client.

(** ** lib/auth.ts *)

Module Auth.
Import Js.
Local Open Scope Z_scope.

Record TokenResponse : Type := {
  access_token : string;
  expires_in : Z;
  token_type : string;
  refresh_token : string;
}.

(** [expiresAt] is [None] when the stored object has no such field. *)
Record AuthData : Type := {
  accessToken : string;
  refreshToken : string;
  clientId : string;
  clientSecret : string;
  expiresAt : option Z;
}.

Definition isTokenExpired (now : Z) (authData : AuthData) : bool :=
  match expiresAt authData with
  | None => false
  | Some e =>
      if negb (truthy_number e) || (e =? 0) then false
      else e <=? now
  end.

End Auth.

(** ** lib/storage.ts

    The wrapper built on [@plasmohq/storage]: three [Storage] instances,
    two of them over the area [local]. *)

Module Storage.
Import Js.
Local Open Scope Z_scope.

Inductive AccountType : Type := premium | free.

Record UserProfile : Type := {
  id : Z;
  username : string;
  email : string;
  points : Z;
  locale : string;
  avatar : string;
  type : AccountType;
  premiumUntil : Z;      (* field [premium] *)
  expiration : string;
}.

Inductive Theme : Type := light | dark | system.

Record UserPreferences : Type := {
  notificationsEnabled : bool;
  autoUnrestrict : bool;
  autoSelectFiles : bool;
  autoScanEnabled : bool;
  downloadDirectory : option string;
  theme : Theme;
}.

Record CachedData : Type := {
  userProfile : option UserProfile;
  userProfileTimestamp : option Z;
  supportedDomains : option (list string);
  supportedDomainsTimestamp : option Z;
  hostsRegex : option (list string);
  hostsRegexTimestamp : option Z;
}.

(** What the wrapper stores under its three keys. *)
Inductive StoredValue : Type :=
| AuthValue (authData : Auth.AuthData)
| PreferencesValue (prefs : UserPreferences)
| CacheValue (cache : CachedData).

(** The two storage areas of the browser.  [authStorage] and
    [cacheStorage] are both instances over the area [local];
    [syncStorage] is the one over [sync]. *)
Record Areas : Type := {
  local : gmap string StoredValue;
  sync : gmap string StoredValue;
}.

Definition AUTH_DATA : string := "authData".
Definition PREFERENCES : string := "preferences".
Definition CACHE : string := "cache".

Definition DEFAULT_PREFERENCES : UserPreferences := {|
  notificationsEnabled := true;
  autoUnrestrict := false;
  autoSelectFiles := true;
  autoScanEnabled := false;
  downloadDirectory := None;
  theme := system;
|}.

Definition CACHE_TTL : Z := 5 * 60 * 1000.

Definition setLocal (f : gmap string StoredValue → gmap string StoredValue)
    (areas : Areas) : Areas :=
  {| local := f (local areas); sync := sync areas |}.

Definition getAuthData (areas : Areas) : option Auth.AuthData :=
  match local areas !! AUTH_DATA with
  | Some (AuthValue data) => Some data
  | _ => None
  end.

Definition setAuthData (authData : Auth.AuthData) (areas : Areas) : Areas :=
  setLocal <[AUTH_DATA := AuthValue authData]> areas.

Definition clearCache (areas : Areas) : Areas :=
  setLocal (delete CACHE) areas.

Definition removeAuthData (areas : Areas) : Areas :=
  clearCache (setLocal (delete AUTH_DATA) areas).

Definition getToken (areas : Areas) : option string :=
  Auth.accessToken <$> getAuthData areas.

Definition isAuthenticated (areas : Areas) : bool :=
  match getAuthData areas with
  | Some authData => truthy_string (Auth.accessToken authData)
  | None => false
  end.

(** [{ ...DEFAULT_PREFERENCES, ...prefs }]: the stored object is written
    whole by [setPreferences], so it overrides every default. *)
Definition getPreferences (areas : Areas) : UserPreferences :=
  match sync areas !! PREFERENCES with
  | Some (PreferencesValue prefs) => prefs
  | _ => DEFAULT_PREFERENCES
  end.

Definition emptyCache : CachedData := {|
  userProfile := None; userProfileTimestamp := None;
  supportedDomains := None; supportedDomainsTimestamp := None;
  hostsRegex := None; hostsRegexTimestamp := None;
|}.

Definition getCache (areas : Areas) : CachedData :=
  match local areas !! CACHE with
  | Some (CacheValue cache) => cache
  | _ => emptyCache
  end.

(** [{ ...current, ...updates }]: a field of [updates] that is [None] is
    a key that [updates] does not have. *)
Definition mergeCache (current updates : CachedData) : CachedData := {|
  userProfile := from_option Some (userProfile current) (userProfile updates);
  userProfileTimestamp :=
    from_option Some (userProfileTimestamp current) (userProfileTimestamp updates);
  supportedDomains :=
    from_option Some (supportedDomains current) (supportedDomains updates);
  supportedDomainsTimestamp :=
    from_option Some (supportedDomainsTimestamp current) (supportedDomainsTimestamp updates);
  hostsRegex := from_option Some (hostsRegex current) (hostsRegex updates);
  hostsRegexTimestamp :=
    from_option Some (hostsRegexTimestamp current) (hostsRegexTimestamp updates);
|}.

Definition setCache (updates : CachedData) (areas : Areas) : Areas :=
  let current := getCache areas in
  setLocal <[CACHE := CacheValue (mergeCache current updates)]> areas.

(** The three cached getters: value present, timestamp truthy, and not
    older than [CACHE_TTL]. *)
Definition fresh {A} (now : Z) (value : option A) (timestamp : option Z) : option A :=
  match value, timestamp with
  | Some v, Some ts =>
      if truthy_number ts && (now - ts <? CACHE_TTL) then Some v else None
  | _, _ => None
  end.

Definition getCachedUserProfile (now : Z) (areas : Areas) : option UserProfile :=
  let cache := getCache areas in
  fresh now (userProfile cache) (userProfileTimestamp cache).

Definition cacheUserProfile (now : Z) (profile : UserProfile) (areas : Areas) : Areas :=
  setCache {| userProfile := Some profile; userProfileTimestamp := Some now;
              supportedDomains := None; supportedDomainsTimestamp := None;
              hostsRegex := None; hostsRegexTimestamp := None |} areas.

Definition getCachedDomains (now : Z) (areas : Areas) : option (list string) :=
  let cache := getCache areas in
  fresh now (supportedDomains cache) (supportedDomainsTimestamp cache).

Definition cacheDomains (now : Z) (domains : list string) (areas : Areas) : Areas :=
  setCache {| userProfile := None; userProfileTimestamp := None;
              supportedDomains := Some domains; supportedDomainsTimestamp := Some now;
              hostsRegex := None; hostsRegexTimestamp := None |} areas.

Definition getCachedHostsRegex (now : Z) (areas : Areas) : option (list string) :=
  let cache := getCache areas in
  fresh now (hostsRegex cache) (hostsRegexTimestamp cache).

Definition cacheHostsRegex (now : Z) (patterns : list string) (areas : Areas) : Areas :=
  setCache {| userProfile := None; userProfileTimestamp := None;
              supportedDomains := None; supportedDomainsTimestamp := None;
              hostsRegex := Some patterns; hostsRegexTimestamp := Some now |} areas.

End Storage.

(** ** lib/messaging.ts *)

Module Messaging.
Import Js.

Record MessageResponse (T : Type) : Type := {
  success_ : bool;          (* field [success] *)
  data : option T;
  error_ : option string;   (* field [error] *)
  errorCode : option Z;
}.
Arguments success_ {T} _.
Arguments data {T} _.
Arguments error_ {T} _.
Arguments errorCode {T} _.

Definition success {T} (d : T) : MessageResponse T :=
  {| success_ := true; data := Some d; error_ := None; errorCode := None |}.

Definition error {T} (message : string) (code : option Z) : MessageResponse T :=
  {| success_ := false; data := None; error_ := Some message; errorCode := code |}.

Record Message (P : Type) : Type := { type : string; payload : P }.
Arguments type {P} _.
Arguments payload {P} _.

Section Listener.
Context {S P Sender T : Type}.

Definition MessageHandler : Type :=
  P → Sender → Async S (MessageResponse T).

(** What the listener did with one message: it called [sendResponse]
    (and returned [true]), or it returned [false] and left the message
    to the other listeners. *)
Inductive Dispatched : Type :=
| Responded (response : MessageResponse T)
| NotHandled.

Definition createMessageListener (handlers : gmap string MessageHandler)
    (message : Message P) (sender : Sender) (s : S) : Dispatched * S :=
  match handlers !! type message with
  | Some handler =>
      match handler (payload message) sender s with
      | (Ok response, s') => (Responded response, s')
      | (Throw error, s') =>
          (Responded {| success_ := false; data := None;
                        error_ := Some (Js.message error); errorCode := None |}, s')
      end
  | None => (NotHandled, s)
  end.
End Listener.
Arguments MessageHandler : clear implicits.
Arguments Dispatched : clear implicits.

End Messaging.

(** ** The background script *)

Module Background.
Import Js.

Definition POLLING_ALARM_NAME : string := "torrent-polling".
Definition POLLING_INTERVAL_MINUTES : QArith_base.Q := QArith_base.Qmake 1 2.
Definition BADGE_COLOR : string := "#B7D995".

(** lib/api/torrents.ts *)
Inductive TorrentStatus : Type :=
| magnet_error
| magnet_conversion
| waiting_files_selection
| queued
| downloading
| downloaded
| error
| virus
| compressing
| uploading
| dead.

#[global] Instance TorrentStatus_eq_dec : EqDecision TorrentStatus.
Proof. solve_decision. Defined.

Record TorrentItem : Type := {
  id : string;
  filename : string;
  original_filename : string;
  hash : string;
  bytes : Z;
  host : string;
  status : TorrentStatus;
  links : list string;
}.

Record ActiveCountResponse : Type := { nb : Z; limit : Z }.

Definition ACTIVE_STATUSES : list TorrentStatus :=
  [magnet_conversion; queued; downloading; compressing; uploading].

Definition isActiveTorrent (status : TorrentStatus) : bool :=
  bool_decide (status ∈ ACTIVE_STATUSES).

(** One call of [chrome.notifications.create]. *)
Record Notification : Type := {
  notificationId : string;
  title : string;
  message : string;
}.

Record AlarmInfo : Type := { periodInMinutes : QArith_base.Q }.

Record Badge : Type := { text : string; color : option string }.

(** The calls that reach the remote service. *)
Inductive ApiCall : Type :=
| RefreshAccessToken (clientId clientSecret refreshToken : string)
| ListTorrents (token : string) (limit : option Z)
| GetActiveCount (token : string)
| GetUser (token : string).

(** The state of the background script: the storage areas, its module
    variables, and what it has made the browser and the remote service do. *)
Record State : Type := {
  storage : Storage.Areas;
  knownTorrents : gmap string TorrentStatus;
  alarms : gmap string AlarmInfo;
  badge : Badge;
  notifications : list Notification;     (* oldest first *)
  remoteCalls : list ApiCall;            (* oldest first *)
}.

Definition setStorage (f : Storage.Areas → Storage.Areas) (s : State) : State :=
  {| storage := f (storage s); knownTorrents := knownTorrents s; alarms := alarms s;
     badge := badge s; notifications := notifications s; remoteCalls := remoteCalls s |}.
Definition setKnownTorrents
    (f : gmap string TorrentStatus → gmap string TorrentStatus) (s : State) : State :=
  {| storage := storage s; knownTorrents := f (knownTorrents s); alarms := alarms s;
     badge := badge s; notifications := notifications s; remoteCalls := remoteCalls s |}.
Definition setAlarms (f : gmap string AlarmInfo → gmap string AlarmInfo) (s : State) : State :=
  {| storage := storage s; knownTorrents := knownTorrents s; alarms := f (alarms s);
     badge := badge s; notifications := notifications s; remoteCalls := remoteCalls s |}.
Definition setBadge (f : Badge → Badge) (s : State) : State :=
  {| storage := storage s; knownTorrents := knownTorrents s; alarms := alarms s;
     badge := f (badge s); notifications := notifications s; remoteCalls := remoteCalls s |}.
Definition setNotifications (f : list Notification → list Notification) (s : State) : State :=
  {| storage := storage s; knownTorrents := knownTorrents s; alarms := alarms s;
     badge := badge s; notifications := f (notifications s); remoteCalls := remoteCalls s |}.
Definition setRemoteCalls (f : list ApiCall → list ApiCall) (s : State) : State :=
  {| storage := storage s; knownTorrents := knownTorrents s; alarms := alarms s;
     badge := badge s; notifications := notifications s; remoteCalls := f (remoteCalls s) |}.

(** What the platform and the remote service hand back during one run of
    a background entry point. *)
Record Platform : Type := {
  now : Z;                        (* [Date.now()] *)
  nowAfterRefresh : Z;            (* [Date.now()] once the refresh has resolved *)
  alarmsSupport : bool;           (* [hasAlarmsSupport()] *)
  refreshAccessToken : string → string → string → Result Auth.TokenResponse;
  listTorrents : string → option Z → Result (Client.ResponseValue (list TorrentItem));
                                  (* what [request] resolves to: the array, or [{}] *)
  getActiveCount : string → Result ActiveCountResponse;
  getUser : string → Result Storage.UserProfile;
}.

(** The data of the response envelopes of the handlers below. *)
Inductive ResponseData : Type :=
| AuthStatusData (authenticated : bool) (profile : option Storage.UserProfile)
| SuccessData (success : bool)
| ProfileData (profile : Storage.UserProfile)
| ActiveCountData (count : ActiveCountResponse).

Section WithPlatform.
Variable platform : Platform.

(** A call to the remote service: it is recorded, and its outcome is the
    platform's. *)
Definition remote {A} (call : ApiCall) (outcome : Result A) : Async State A :=
  λ s, (outcome, setRemoteCalls (λ calls, calls ++ [call]) s).

Definition getActiveTorrentCount (s : State) : nat :=
  length (filter (λ status, status ∈ ACTIVE_STATUSES)
                 (snd <$> map_to_list (knownTorrents s))).

Definition updateBadge (activeCount : nat) : Async State unit :=
  tryCatch
    (if (0 <? activeCount)%nat
     then modify (setBadge (λ _, {| text := pretty activeCount;
                                    color := Some BADGE_COLOR |}))
     else modify (setBadge (λ b, {| text := ""; color := color b |})))
    (λ _, resolve tt).

Definition showTorrentCompletedNotification (torrent : TorrentItem) : Async State unit :=
  tryCatch
    (preferences ← gets (λ s, Storage.getPreferences (storage s));
     if negb (Storage.notificationsEnabled preferences) then resolve tt
     else
       let notificationId := "torrent-completed-" +:+ id torrent in
       modify (setNotifications (λ created, created ++
         [{| notificationId := notificationId;
             title := "Torrent Download Complete";
             message := filename torrent |}])))
    (λ _, resolve tt).

Definition stopPolling : Async State unit :=
  if negb (alarmsSupport platform) then resolve tt
  else
    tryCatch
      (modify (setAlarms (delete POLLING_ALARM_NAME));;
       updateBadge 0)
      (λ _, resolve tt).

Definition getValidToken : Async State string :=
  authData ← gets (λ s, Storage.getAuthData (storage s));
  match authData with
  | None => reject (Error "Not authenticated")
  | Some authData =>
      if Auth.isTokenExpired (now platform) authData then
        tryCatch
          (tokenResponse ←
             remote (RefreshAccessToken (Auth.clientId authData)
                       (Auth.clientSecret authData) (Auth.refreshToken authData))
                    (refreshAccessToken platform (Auth.clientId authData)
                       (Auth.clientSecret authData) (Auth.refreshToken authData));
           let updatedAuthData := {|
             Auth.accessToken := Auth.access_token tokenResponse;
             Auth.refreshToken := Auth.refresh_token tokenResponse;
             Auth.clientId := Auth.clientId authData;
             Auth.clientSecret := Auth.clientSecret authData;
             Auth.expiresAt :=
               Some (nowAfterRefresh platform + Auth.expires_in tokenResponse * 1000)%Z;
           |} in
           modify (setStorage (Storage.setAuthData updatedAuthData));;
           resolve (Auth.accessToken updatedAuthData))
          (λ _,
             modify (setStorage Storage.removeAuthData);;
             reject (Error "Session expired. Please log in again."))
      else resolve (Auth.accessToken authData)
  end.

(** The loop of [pollTorrents] over the fetched listing. *)
Fixpoint pollLoop (torrents : list TorrentItem) (activeCount : nat)
    (currentTorrentIds : gset string) : Async State (nat * gset string) :=
  match torrents with
  | [] => resolve (activeCount, currentTorrentIds)
  | torrent :: rest =>
      let currentTorrentIds := {[id torrent]} ∪ currentTorrentIds in
      previousStatus ← gets (λ s, knownTorrents s !! id torrent);
      (match previousStatus with
       | Some previous =>
           if bool_decide (previous ≠ downloaded)
              && bool_decide (status torrent = downloaded)
           then showTorrentCompletedNotification torrent
           else resolve tt
       | None => resolve tt
       end);;
      modify (setKnownTorrents <[id torrent := status torrent]>);;
      let activeCount :=
        if isActiveTorrent (status torrent) then S activeCount else activeCount in
      pollLoop rest activeCount currentTorrentIds
  end.

(** The second loop: the entries whose identifier is not in the listing
    are deleted. *)
Definition prune (currentTorrentIds : gset string) : Async State unit :=
  modify (setKnownTorrents (filter (λ entry, entry.1 ∈ currentTorrentIds))).

Definition pollTorrents : Async State unit :=
  tryCatch
    (isAuthenticated ← gets (λ s, Storage.isAuthenticated (storage s));
     if negb isAuthenticated then stopPolling
     else
       token ← getValidToken;
       torrents ← remote (ListTorrents token (Some 100%Z))
                         (listTorrents platform token (Some 100%Z));
       match torrents with
       | Client.EmptyObject =>
           (* [for (const torrent of torrents)] over [{}] throws a TypeError *)
           reject (Error "torrents is not iterable")
       | Client.Parsed torrents =>
           '(activeCount, currentTorrentIds) ← pollLoop torrents 0 ∅;
           prune currentTorrentIds;;
           updateBadge activeCount;;
           if (activeCount =? 0)%nat then stopPolling else resolve tt
       end)
    (λ _, resolve tt).

Definition startPolling : Async State unit :=
  if negb (alarmsSupport platform) then resolve tt
  else
    tryCatch
      (existingAlarm ← gets (λ s, alarms s !! POLLING_ALARM_NAME);
       match existingAlarm with
       | Some _ => resolve tt
       | None =>
           pollTorrents;;
           modify (setAlarms
             <[POLLING_ALARM_NAME := {| periodInMinutes := POLLING_INTERVAL_MINUTES |}]>)
       end)
      (λ _, resolve tt).

Definition checkAndUpdatePolling : Async State unit :=
  tryCatch
    (isAuthenticated ← gets (λ s, Storage.isAuthenticated (storage s));
     if negb isAuthenticated then stopPolling
     else
       token ← getValidToken;
       activeCountResponse ← remote (GetActiveCount token) (getActiveCount platform token);
       if (0 <? nb activeCountResponse)%Z then startPolling else stopPolling)
    (λ _, resolve tt).

Definition withErrorHandling {T} (fn : Async State T)
  : Async State (Messaging.MessageResponse T) :=
  tryCatch
    (data ← fn;
     resolve {| Messaging.success_ := true; Messaging.data := Some data;
                Messaging.error_ := None; Messaging.errorCode := None |})
    (λ err,
       match err with
       | RealDebridApiError m _ code =>
           resolve {| Messaging.success_ := false; Messaging.data := None;
                      Messaging.error_ := Some m; Messaging.errorCode := code |}
       | _ =>
           resolve {| Messaging.success_ := false; Messaging.data := None;
                      Messaging.error_ := Some (Js.message err);
                      Messaging.errorCode := None |}
       end).

(** The handlers whose message carries no payload. *)
Section Handlers.
Context {P Sender : Type}.

Definition handleAuthStatus (_ : P) (_ : Sender)
  : Async State (Messaging.MessageResponse ResponseData) :=
  isAuthenticated ← gets (λ s, Storage.isAuthenticated (storage s));
  if (isAuthenticated : bool) then
    tryCatch
      (token ← getValidToken;
       profile ← remote (GetUser token) (getUser platform token);
       modify (setStorage (Storage.cacheUserProfile (now platform) profile));;
       resolve (Messaging.success (AuthStatusData true (Some profile))))
      (λ _, resolve (Messaging.success (AuthStatusData false None)))
  else resolve (Messaging.success (AuthStatusData false None)).

Definition handleLogout (_ : P) (_ : Sender)
  : Async State (Messaging.MessageResponse ResponseData) :=
  modify (setStorage Storage.removeAuthData);;
  resolve (Messaging.success (SuccessData true)).

Definition handleGetUserProfile (_ : P) (_ : Sender)
  : Async State (Messaging.MessageResponse ResponseData) :=
  cached ← gets (λ s, Storage.getCachedUserProfile (now platform) (storage s));
  match cached with
  | Some profile => resolve (Messaging.success (ProfileData profile))
  | None =>
      token ← getValidToken;
      profile ← remote (GetUser token) (getUser platform token);
      modify (setStorage (Storage.cacheUserProfile (now platform) profile));;
      resolve (Messaging.success (ProfileData profile))
  end.

Definition handleGetActiveTorrentCount (_ : P) (_ : Sender)
  : Async State (Messaging.MessageResponse ResponseData) :=
  token ← getValidToken;
  withErrorHandling
    (count ← remote (GetActiveCount token) (getActiveCount platform token);
     resolve (ActiveCountData count)).

(** The registry handed to [createMessageListener], for these four
    message types. *)
Definition handlers : gmap string (Messaging.MessageHandler State P Sender ResponseData) :=
  list_to_map [
    ("AUTH_STATUS", handleAuthStatus);
    ("AUTH_LOGOUT", handleLogout);
    ("GET_USER_PROFILE", handleGetUserProfile);
    ("GET_ACTIVE_TORRENT_COUNT", handleGetActiveTorrentCount)
  ].
End Handlers.

End WithPlatform.

(** Two readings of what a tick did: how many of the created
    notifications announce the completion of job [jobId], and how many of
    the listed jobs have an active status. *)
Definition completionsFor (jobId : string) (created : list Notification) : nat :=
  length (filter (λ n, notificationId n = "torrent-completed-" +:+ jobId) created).

Definition activeIn (torrents : list TorrentItem) : nat :=
  length (filter (λ torrent, status torrent ∈ ACTIVE_STATUSES) torrents).

End Background.

(** ** Sample data *)

Module Sample.
Import Js Background.

Definition credential (expiresAt : option Z) : Auth.AuthData := {|
  Auth.accessToken := "access-1";
  Auth.refreshToken := "refresh-1";
  Auth.clientId := "client";
  Auth.clientSecret := "secret";
  Auth.expiresAt := expiresAt;
|}.

Definition renewed : Auth.TokenResponse := {|
  Auth.access_token := "access-2";
  Auth.expires_in := 3600;
  Auth.token_type := "Bearer";
  Auth.refresh_token := "refresh-2";
|}.

Definition profile : Storage.UserProfile := {|
  Storage.id := 42;
  Storage.username := "user";
  Storage.email := "user@example.org";
  Storage.points := 0;
  Storage.locale := "en";
  Storage.avatar := "";
  Storage.type := Storage.premium;
  Storage.premiumUntil := 1900000000;
  Storage.expiration := "2030-01-01T00:00:00.000Z";
|}.

Definition quiet : Storage.UserPreferences := {|
  Storage.notificationsEnabled := false;
  Storage.autoUnrestrict := true;
  Storage.autoSelectFiles := true;
  Storage.autoScanEnabled := false;
  Storage.downloadDirectory := None;
  Storage.theme := Storage.dark;
|}.

Definition noAreas : Storage.Areas := {| Storage.local := ∅; Storage.sync := ∅ |}.

(** Signed in with the credential, a profile cached at time [1000]. *)
Definition signedIn (expiresAt : option Z) : Storage.Areas :=
  Storage.cacheUserProfile 1000 profile
    (Storage.setAuthData (credential expiresAt) noAreas).

Definition torrent (id : string) (status : TorrentStatus) : TorrentItem := {|
  Background.id := id;
  filename := id +:+ ".mkv";
  original_filename := id;
  hash := "0123456789abcdef";
  bytes := 734003200;
  host := "real-debrid.com";
  Background.status := status;
  links := [];
|}.

Definition state (areas : Storage.Areas) (known : gmap string TorrentStatus)
    (alarms : gmap string AlarmInfo) : State := {|
  storage := areas;
  knownTorrents := known;
  Background.alarms := alarms;
  badge := {| text := ""; color := None |};
  notifications := [];
  remoteCalls := [];
|}.

Definition trigger : gmap string AlarmInfo :=
  {[ POLLING_ALARM_NAME := {| periodInMinutes := POLLING_INTERVAL_MINUTES |} ]}.

(** A platform at time [2000] whose refresh rejects when [renewal] is
    [None], and whose listing is [listing]. *)
Definition platform (renewal : option Auth.TokenResponse) (listing : list TorrentItem)
  : Platform := {|
  now := 2000;
  nowAfterRefresh := 2050;
  alarmsSupport := true;
  refreshAccessToken := λ _ _ _,
    match renewal with
    | Some r => Ok r
    | None => Throw (OAuthError "invalid_grant" (Some "invalid_grant"))
    end;
  listTorrents := λ _ _, Ok (Client.Parsed listing);
  getActiveCount := λ _, Ok {| nb := 1; limit := 25 |};
  getUser := λ _, Throw (RealDebridApiError "bad_token" 401 (Some 8%Z));
|}.

Definition failing : Platform := platform None [].
Definition completing : Platform := platform None [torrent "a" downloaded].

Definition freshState : State := state (signedIn None) ∅ ∅.
Definition staleState : State := state (signedIn (Some 1500%Z)) ∅ ∅.

(** Polling is on, and job [a] was downloading at the last tick. *)
Definition pollingState : State :=
  state (signedIn None) {[ "a" := downloading ]} trigger.

(** Polling is on, and jobs [a] and [b] were downloading at the last tick. *)
Definition trackingTwo : State :=
  state (signedIn None) {[ "a" := downloading; "b" := downloading ]} trigger.

(** Signed in, a profile cached, and preferences stored. *)
Definition configured : Storage.Areas := {|
  Storage.local := Storage.local (signedIn (Some 1500%Z));
  Storage.sync := {[ Storage.PREFERENCES := Storage.PreferencesValue quiet ]};
|}.

(** The body of an unrestrict call whose password is not given. *)
Definition unrestrictRequest : Client.RequestOptions := {|
  Client.method := Client.POST;
  Client.path := "/unrestrict/link";
  Client.body := Some (Client.BodyObject [
    ("link", JsString "https://hoster.example/file123");
    ("password", JsUndefined);
    ("remote", JsNumber 1)]);
  Client.token := Some "access-1";
  Client.skipAuth := false;
|}.

Definition badToken : Client.Response unit := {|
  Client.status := 401;
  Client.statusText := "Unauthorized";
  Client.contentType := Some "application/json; charset=utf-8";
  Client.json := Ok {| Client.asApiError :=
                         {| Client.error := Some "bad_token";
                            Client.error_code := Some 8%Z |};
                       Client.asResponse := tt |};
|}.

Definition unavailable : Client.Response unit := {|
  Client.status := 503;
  Client.statusText := "Service Unavailable";
  Client.contentType := Some "text/html";
  Client.json := Throw (Error "Unexpected token < in JSON at position 0");
|}.

(** The platform's side of one gateway call made at time [1000]. *)
Definition answered (response : Client.Response unit) : Client.RequestEnv unit := {|
  Client.arrival := 1000;
  Client.lateness := 0;
  Client.fetched := Client.Responded response;
|}.

(** A well-formed gateway call and a response without content. *)
Definition userRequest : Client.RequestOptions := {|
  Client.method := Client.GET;
  Client.path := "/user";
  Client.body := None;
  Client.token := Some "access-1";
  Client.skipAuth := false;
|}.

Definition noContent : Client.Response unit := {|
  Client.status := 204;
  Client.statusText := "No Content";
  Client.contentType := None;
  Client.json := Throw (Error "Unexpected end of JSON input");
|}.

(** [n] calls, each made as soon as the one before it was dispatched. *)
Definition burst (n : nat) : list (Client.Call unit) :=
  replicate n {| Client.gap := 0; Client.options := userRequest; Client.late := 0;
                 Client.outcome := Client.Responded noContent |}.

End Sample.

(** ** lib/api: the verbs of the client and the endpoints built on them *)

Module Api.
Import Js Client.

(** The four verbs: the options each hands to [request]. *)
Definition get (path : string) (token : option string) (skipAuth : bool)
  : RequestOptions :=
  {| method := GET; path := path; body := None; token := token; skipAuth := skipAuth |}.

Definition post (path : string) (body : option Body) (token : option string)
  : RequestOptions :=
  {| method := POST; path := path; body := body; token := token; skipAuth := false |}.

Definition put (path : string) (body : option Body) (token : option string)
  : RequestOptions :=
  {| method := PUT; path := path; body := body; token := token; skipAuth := false |}.

Definition del (path : string) (token : option string) : RequestOptions :=
  {| method := DELETE; path := path; body := None; token := token; skipAuth := false |}.

(** lib/api/hosts.ts *)
Definition getHostsRegex : RequestOptions := get "/hosts/regex" None true.
Definition getHostsDomains : RequestOptions := get "/hosts/domains" None true.
Definition getHosts : RequestOptions := get "/hosts" None true.

(** lib/api/user.ts *)
Definition getUser (token : string) : RequestOptions := get "/user" (Some token) false.

(** lib/api/unrestrict.ts: the request object has the field [link] and,
    when the caller's object has them, [password] and [remote]. *)
Record UnrestrictLinkRequest : Type := {
  link : string;
  password : JsValue;   (* a string, or [undefined] *)
  remote : JsValue;     (* a number, or [undefined] *)
}.

Definition unrestrictLink (token : string) (params : UnrestrictLinkRequest)
  : RequestOptions :=
  post "/unrestrict/link"
    (Some (BodyObject [("link", JsString (link params));
                       ("password", password params);
                       ("remote", remote params)]))
    (Some token).

Definition unrestrictFolder (token : string) (link : string) : RequestOptions :=
  post "/unrestrict/folder" (Some (BodyObject [("link", JsString link)])) (Some token).

Definition decryptContainerFile (token : string) (formData : FormData)
  : RequestOptions :=
  put "/unrestrict/containerFile" (Some (BodyFormData formData)) (Some token).

(** lib/api/torrents.ts *)
Definition getTorrentInfo (token id : string) : RequestOptions :=
  get ("/torrents/info/" +:+ id) (Some token) false.

Definition addMagnet (token magnet : string) : RequestOptions :=
  post "/torrents/addMagnet" (Some (BodyObject [("magnet", JsString magnet)])) (Some token).

Definition addTorrent (token : string) (formData : FormData) : RequestOptions :=
  put "/torrents/addTorrent" (Some (BodyFormData formData)) (Some token).

Definition deleteTorrent (token id : string) : RequestOptions :=
  del ("/torrents/delete/" +:+ id) (Some token).

Definition getActiveCount (token : string) : RequestOptions :=
  get "/torrents/activeCount" (Some token) false.

(** lib/api/settings.ts: the body is the empty object. *)
Definition convertPoints (token : string) : RequestOptions :=
  post "/settings/convertPoints" (Some (BodyObject [])) (Some token).

(** The request object that the UNRESTRICT_LINK handler builds from its
    payload: [remote: payload.remote ? 1 : undefined]. *)
Definition unrestrictPayload (link : string) (password : option string) (remote : bool)
  : UnrestrictLinkRequest :=
  {| link := link;
     password := match password with Some p => JsString p | None => JsUndefined end;
     remote := if remote then JsNumber 1 else JsUndefined |}.

End Api.

(** ** lib/auth.ts: the token endpoints and the device-code flow *)

Module AuthFlow.
Import Js.
Local Open Scope Z_scope.

Record DeviceCodeResponse : Type := {
  device_code : string;
  user_code : string;
  interval : Z;
  expires_in : Z;
  verification_url : string;
}.

Record DeviceCredentialsResponse : Type := {
  client_id : string;
  client_secret : string;
}.

Definition CLIENT_ID : string := "X245A4XAIBGVM".

Definition buildAuthorizationUrl (deviceCode : string) : string :=
  "https://real-debrid.com/authorize?client_id=" +:+ CLIENT_ID
    +:+ "&device_id=" +:+ deviceCode.

(** What [error.error] evaluates to on the untyped body of an answer that
    is not a success: a string, [undefined] when the body has no such
    property, or nothing at all when the body is the JSON value [null],
    where the property access throws a TypeError. *)
Inductive ErrorProperty : Type :=
| NotAnObject
| Undefined
| Text (s : string).

(** A parsed body, read the two ways these calls read it: untyped on an
    answer that is not a success, at the declared type on a success. *)
Record OAuthBody (TResponse : Type) : Type := {
  errorProperty : ErrorProperty;
  asResponse : TResponse;
}.
Arguments errorProperty {TResponse} _.
Arguments asResponse {TResponse} _.

Record Response (TResponse : Type) : Type := {
  status : Z;
  json : Result (OAuthBody TResponse);      (* outcome of [response.json()] *)
}.
Arguments status {TResponse} _.
Arguments json {TResponse} _.

(** [response.ok]: the status is in the range 200-299. *)
Definition ok {T} (r : Response T) : bool :=
  (200 <=? status r) && (status r <=? 299).

(** What the platform hands back to one call of [fetch]. *)
Inductive FetchOutcome (TResponse : Type) : Type :=
| NetworkFailure (e : JsError)
| Responded (r : Response TResponse).
Arguments NetworkFailure {TResponse} e.
Arguments Responded {TResponse} r.

(** The error that the failure branch throws:
    [const error = await response.json().catch(() => ({}))], then
    [throw new OAuthError(error.error || fallback, error.error)].  On a
    body that is [null] the arguments cannot be evaluated, and what is
    thrown is the TypeError of the property access. *)
Definition oauthFailure {T} (fallback : string) (response : Response T) : JsError :=
  match json response with
  | Throw _ => OAuthError fallback None
  | Ok error =>
      match errorProperty error with
      | NotAnObject => Error "Cannot read properties of null (reading 'error')"
      | Undefined => OAuthError fallback None
      | Text m => OAuthError (if truthy_string m then m else fallback) (Some m)
      end
  end.


Definition requestDeviceCode (fetched : FetchOutcome DeviceCodeResponse)
  : Result DeviceCodeResponse :=
  match fetched with
  | NetworkFailure e => Throw e
  | Responded response =>
      if negb (ok response)
      then Throw (oauthFailure
                    ("Failed to request device code: " +:+ pretty (status response))
                    response)
      else match json response with
           | Ok parsed => Ok (asResponse parsed)
           | Throw e => Throw e
           end
  end.


(** The form fields of a call to the token endpoint. *)
Definition tokenRequestBody (clientId clientSecret code : string)
  : list (string * string) :=
  [("client_id", clientId); ("client_secret", clientSecret); ("code", code);
   ("grant_type", "http://oauth.net/grant_type/device/1.0")].


Definition refreshAccessToken (fetched : FetchOutcome Auth.TokenResponse)
  : Result Auth.TokenResponse :=
  match fetched with
  | NetworkFailure e => Throw e
  | Responded response =>
      if negb (ok response)
      then Throw (oauthFailure
                    ("Failed to refresh token: " +:+ pretty (status response))
                    response)
      else match json response with
           | Ok parsed => Ok (asResponse parsed)
           | Throw e => Throw e
           end
  end.

(** The fields of an [OAuthFlow]. *)
Record OAuthFlow : Type := {
  deviceCode : option string;
  pollingInterval : option Z;
  expiresAt : option Z;
  cancelled : bool;
  clientCredentials : option DeviceCredentialsResponse;
}.

Definition newOAuthFlow : OAuthFlow :=
  {| deviceCode := None; pollingInterval := None; expiresAt := None;
     cancelled := false; clientCredentials := None |}.

Definition cancel (flow : OAuthFlow) : OAuthFlow :=
  {| deviceCode := None; pollingInterval := pollingInterval flow;
     expiresAt := expiresAt flow; cancelled := true; clientCredentials := None |}.

(** What one turn of the polling loop meets: the clock at the top of the
    loop, the outcomes of the two calls it may make, the clock when the
    token arrives, and whether [cancel()] runs while the loop sleeps at the
    end of the turn. *)
Record Turn : Type := {
  now : Z;
  polled : Result (option DeviceCredentialsResponse);
  exchanged : Result Auth.TokenResponse;
  nowOnSuccess : Z;
  cancelledWhileAsleep : bool;
}.

(** How the loop has ended, if it has: with one of the two callbacks, or
    without any because the loop condition failed. *)
Inductive Ending : Type :=
| OnSuccess (authData : Auth.AuthData)
| OnError (e : JsError)
| LeftSilently.

(** The delay of the sleep: [this.pollingInterval || 5000]. *)
Definition sleepDelay (flow : OAuthFlow) : Z :=
  match pollingInterval flow with
  | Some i => if truthy_number i then i else 5000
  | None => 5000
  end.

(** [pollForCredentials] over the turns that have happened: [None] when the
    loop is still asleep after the last of them.  The second component
    counts the calls to [pollDeviceCredentials]. *)
Fixpoint pollForCredentials (flow : OAuthFlow) (turns : list Turn) (polls : nat)
  : option Ending * OAuthFlow * nat :=
  let running :=
    negb (cancelled flow)
    && match deviceCode flow with Some c => truthy_string c | None => false end
    && match expiresAt flow with Some e => truthy_number e | None => false end in
  if negb running then (Some LeftSilently, flow, polls)
  else
    match turns with
    | [] => (None, flow, polls)
    | turn :: rest =>
        if (default 0 (expiresAt flow) <=? now turn)
        then (Some (OnError (OAuthError "Device code expired" (Some "expired_token"))),
              flow, polls)
        else
          let asleep (flow : OAuthFlow) : option Ending * OAuthFlow * nat :=
            pollForCredentials
              (if cancelledWhileAsleep turn then cancel flow else flow) rest (S polls) in
          let caught (e : JsError) (flow : OAuthFlow) : option Ending * OAuthFlow * nat :=
            match e with
            | OAuthError _ code =>
                if bool_decide (code ≠ Some "authorization_pending")
                then (Some (OnError e), flow, S polls)
                else asleep flow
            | _ => asleep flow
            end in
          match polled turn with
          | Throw e => caught e flow
          | Ok None => asleep flow
          | Ok (Some credentials) =>
              let flow := {| deviceCode := deviceCode flow;
                             pollingInterval := pollingInterval flow;
                             expiresAt := expiresAt flow;
                             cancelled := cancelled flow;
                             clientCredentials := Some credentials |} in
              match exchanged turn with
              | Throw e => caught e flow
              | Ok tokenResponse =>
                  (Some (OnSuccess {|
                     Auth.accessToken := Auth.access_token tokenResponse;
                     Auth.refreshToken := Auth.refresh_token tokenResponse;
                     Auth.clientId := client_id credentials;
                     Auth.clientSecret := client_secret credentials;
                     Auth.expiresAt :=
                       Some (nowOnSuccess turn + Auth.expires_in tokenResponse * 1000) |}),
                   flow, S polls)
              end
          end
    end.

(** The turns that the loop's [catch] lets pass: nothing yet, an
    "authorization_pending" error, or an error that is not an [OAuthError]
    (a network failure, a body that is not JSON, the TypeError of a read
    on a [null] body). *)
Definition passes (e : JsError) : bool :=
  match e with
  | OAuthError _ code => bool_decide (code = Some "authorization_pending")
  | _ => true
  end.

Definition transient (turn : Turn) : bool :=
  match polled turn with
  | Ok None => true
  | Throw e => passes e
  | Ok (Some _) =>
      match exchanged turn with
      | Throw e => passes e
      | Ok _ => false
      end
  end.

(** [start]: the device code is requested at time [startedAt]; the flow is
    set up from the answer and the polling loop runs. *)
Definition start (flow : OAuthFlow) (startedAt : Z)
    (requested : Result DeviceCodeResponse) (turns : list Turn)
  : option Ending * OAuthFlow * nat :=
  let flow := {| deviceCode := deviceCode flow; pollingInterval := pollingInterval flow;
                 expiresAt := expiresAt flow; cancelled := false;
                 clientCredentials := clientCredentials flow |} in
  match requested with
  | Throw e => (Some (OnError e), flow, 0%nat)
  | Ok deviceCodeResponse =>
      let flow := {| deviceCode := Some (device_code deviceCodeResponse);
                     pollingInterval := Some (interval deviceCodeResponse * 1000);
                     expiresAt := Some (startedAt + expires_in deviceCodeResponse * 1000);
                     cancelled := false;
                     clientCredentials := clientCredentials flow |} in
      pollForCredentials flow turns 0
  end.

End AuthFlow.

(** ** lib/storage.ts: the updates of preferences and of the profile cache *)

Module StorageUpdates.
Import Js Storage.

(** [Partial<UserPreferences>]: [None] is a key that the object does not
    have.  [downloadDirectory] may be there and hold [undefined]. *)
Record PreferenceUpdates : Type := {
  newNotificationsEnabled : option bool;
  newAutoUnrestrict : option bool;
  newAutoSelectFiles : option bool;
  newAutoScanEnabled : option bool;
  newDownloadDirectory : option (option string);
  newTheme : option Theme;
}.

Definition noUpdates : PreferenceUpdates := {|
  newNotificationsEnabled := None; newAutoUnrestrict := None;
  newAutoSelectFiles := None; newAutoScanEnabled := None;
  newDownloadDirectory := None; newTheme := None;
|}.

(** [{ ...current, ...updates }]. *)
Definition applyUpdates (current : UserPreferences) (updates : PreferenceUpdates)
  : UserPreferences := {|
  notificationsEnabled :=
    default (notificationsEnabled current) (newNotificationsEnabled updates);
  autoUnrestrict := default (autoUnrestrict current) (newAutoUnrestrict updates);
  autoSelectFiles := default (autoSelectFiles current) (newAutoSelectFiles updates);
  autoScanEnabled := default (autoScanEnabled current) (newAutoScanEnabled updates);
  downloadDirectory :=
    default (downloadDirectory current) (newDownloadDirectory updates);
  theme := default (theme current) (newTheme updates);
|}.

(** [setPreferences]: what it returns and the areas it leaves. *)
Definition setPreferences (updates : PreferenceUpdates) (areas : Areas)
  : UserPreferences * Areas :=
  let current := getPreferences areas in
  let updated := applyUpdates current updates in
  (updated,
   {| local := local areas;
      sync := <[PREFERENCES := PreferencesValue updated]> (sync areas) |}).

(** [clearUserProfileCache]: [setCache] with the two profile keys present
    and [undefined]. *)
Definition clearUserProfileCache (areas : Areas) : Areas :=
  let current := getCache areas in
  setLocal <[CACHE := CacheValue {|
    userProfile := None;
    userProfileTimestamp := None;
    supportedDomains := supportedDomains current;
    supportedDomainsTimestamp := supportedDomainsTimestamp current;
    hostsRegex := hostsRegex current;
    hostsRegexTimestamp := hostsRegexTimestamp current |}]> areas.

End StorageUpdates.

(** ** The background script: detected links and the badge of a tab *)

Module Tabs.
Import Js.

Definition LINKS_BADGE_COLOR : string := "#9ED1EC".

Inductive LinkType : Type := hoster | magnet.

Record DetectedLink : Type := {
  url : string;
  host : string;
  type : LinkType;
}.

(** The background state together with the map of detected links and the
    badges that were set for single tabs. *)
Record State : Type := {
  background : Background.State;
  detectedLinksByTab : gmap Z (list DetectedLink);
  tabBadges : gmap Z Background.Badge;
}.

(** [sender.tab?.id]. *)
Record MessageSender : Type := { tabId : option Z }.

Definition setTabBadge (tab : Z) (f : Background.Badge → Background.Badge)
    (s : State) : State :=
  {| background := background s;
     detectedLinksByTab := detectedLinksByTab s;
     tabBadges :=
       <[tab := f (default {| Background.text := ""; Background.color := None |}
                     (tabBadges s !! tab))]> (tabBadges s) |}.

Definition setDetectedLinks
    (f : gmap Z (list DetectedLink) → gmap Z (list DetectedLink)) (s : State) : State :=
  {| background := background s;
     detectedLinksByTab := f (detectedLinksByTab s);
     tabBadges := tabBadges s |}.

Definition updateBadgeForTab (tab : Z) : Async State unit :=
  tryCatch
    (links ← gets (λ s, default [] (detectedLinksByTab s !! tab));
     if (0 <? length links)%nat
     then modify (setTabBadge tab (λ _,
            {| Background.text := pretty (length links);
               Background.color := Some LINKS_BADGE_COLOR |}))
     else
       activeTorrents ← gets (λ s, Background.getActiveTorrentCount (background s));
       if (0 <? activeTorrents)%nat
       then modify (setTabBadge tab (λ _,
              {| Background.text := pretty activeTorrents;
                 Background.color := Some Background.BADGE_COLOR |}))
       else modify (setTabBadge tab (λ b,
              {| Background.text := ""; Background.color := Background.color b |})))
    (λ _, resolve tt).

Definition clearTabLinks (tab : Z) : Async State unit :=
  modify (setDetectedLinks (delete tab)).

(** [if (!tabId)]: no tab, or the tab number zero. *)
Definition usableTab (sender : MessageSender) : option Z :=
  match tabId sender with
  | Some tab => if truthy_number tab then Some tab else None
  | None => None
  end.

Definition handleReportDetectedLinks (links : list DetectedLink) (sender : MessageSender)
  : Async State (Messaging.MessageResponse unit) :=
  match usableTab sender with
  | None => resolve (Messaging.success tt)
  | Some tab =>
      modify (setDetectedLinks <[tab := links]>);;
      updateBadgeForTab tab;;
      resolve (Messaging.success tt)
  end.

(** [activeTab] is what [chrome.tabs.query] gives for the active tab of the
    current window: its id if there is one, or a failure. *)
Definition handleGetDetectedLinks (activeTab : Result (option Z)) (sender : MessageSender)
  : Async State (Messaging.MessageResponse (list DetectedLink)) :=
  match usableTab sender with
  | None =>
      match activeTab with
      | Ok (Some tab) =>
          if truthy_number tab
          then links ← gets (λ s, default [] (detectedLinksByTab s !! tab));
               resolve (Messaging.success links)
          else resolve (Messaging.success [])
      | _ => resolve (Messaging.success [])
      end
  | Some tab =>
      links ← gets (λ s, default [] (detectedLinksByTab s !! tab));
      resolve (Messaging.success links)
  end.

(** The listeners on the tabs: removed, updated (with [changeInfo.status]
    being "loading" or not), activated. *)
Definition onRemoved (tab : Z) : Async State unit := clearTabLinks tab.

Definition onUpdated (tab : Z) (loading : bool) : Async State unit :=
  if loading
  then clearTabLinks tab;;
       modify (setTabBadge tab (λ b,
         {| Background.text := ""; Background.color := Background.color b |}))
  else resolve tt.

Definition onActivated (tab : Z) : Async State unit := updateBadgeForTab tab.

End Tabs.

(** ** contents/link-scanner.ts *)

Module Scanner.
Import Js.

(** [s.endsWith("/")] and [s.slice(1, -1)]. *)
Fixpoint endsWithSlash (s : string) : bool :=
  match s with
  | EmptyString => false
  | String c EmptyString => String.eqb (String c EmptyString) "/"
  | String _ rest => endsWithSlash rest
  end.

Fixpoint dropLast (s : string) : string :=
  match s with
  | EmptyString => EmptyString
  | String _ EmptyString => EmptyString
  | String c rest => String c (dropLast rest)
  end.

Definition slice_1_minus1 (s : string) : string :=
  match s with
  | EmptyString => EmptyString
  | String _ rest => dropLast rest
  end.

(** The pattern without its [/.../] delimiters, as [getHostsRegex] hands it
    to [new RegExp]. *)
Definition stripDelimiters (pattern : string) : string :=
  if String.prefix "/" pattern && endsWithSlash pattern
  then slice_1_minus1 pattern
  else pattern.

(** [hostname.replace(/^www\./, "")]. *)
Definition dropWww (hostname : string) : string :=
  if String.prefix "www." hostname
  then String.substring 4 (String.length hostname - 4) hostname
  else hostname.

Section WithPlatform.
(** [pattern.test(url)] for a compiled pattern, and the host name that
    [new URL(url)] finds ([None] when it throws). *)
Variable test : string → string → bool.
Variable hostnameOf : string → option string.

Definition extractHost (url : string) : string :=
  if String.prefix "magnet:" url then "magnet"
  else match hostnameOf url with
       | Some hostname => dropWww hostname
       | None => "unknown"
       end.

Definition matchesHosterPattern (url : string) (patterns : list string) : bool :=
  existsb (λ pattern, test pattern url) patterns.

(** The loop of [scanPageForLinks] over the [href]s of the anchors. *)
Fixpoint scanLoop (hostsRegex : list string) (anchors : list string)
    (detectedLinks : list Tabs.DetectedLink) (seenUrls : gset string)
  : list Tabs.DetectedLink :=
  match anchors with
  | [] => detectedLinks
  | href :: rest =>
      if negb (truthy_string href) || String.prefix "javascript:" href
         || bool_decide (href ∈ seenUrls)
      then scanLoop hostsRegex rest detectedLinks seenUrls
      else
        let seenUrls := {[href]} ∪ seenUrls in
        if String.prefix "magnet:" href
        then scanLoop hostsRegex rest
               (detectedLinks ++
                  [{| Tabs.url := href; Tabs.host := "magnet"; Tabs.type := Tabs.magnet |}])
               seenUrls
        else if matchesHosterPattern href hostsRegex
        then scanLoop hostsRegex rest
               (detectedLinks ++
                  [{| Tabs.url := href; Tabs.host := extractHost href;
                      Tabs.type := Tabs.hoster |}])
               seenUrls
        else scanLoop hostsRegex rest detectedLinks seenUrls
  end.

Definition scanPageForLinks (hostsRegex : list string) (anchors : list string)
  : list Tabs.DetectedLink :=
  scanLoop hostsRegex anchors [] ∅.

End WithPlatform.

End Scanner.

(** ** More sample data *)

Module MoreSamples.
Import Js.



(** The token endpoint answers 200 with a new token. *)
Definition granted : AuthFlow.Response Auth.TokenResponse := {|
  AuthFlow.status := 200;
  AuthFlow.json := Ok {| AuthFlow.errorProperty := AuthFlow.Undefined;
                         AuthFlow.asResponse := Sample.renewed |};
|}.

(** A platform whose refresh is [refreshAccessToken] of lib/auth.ts on
    what the token endpoint answers. *)
Definition viaTokenEndpoint (fetched : AuthFlow.FetchOutcome Auth.TokenResponse)
  : Background.Platform := {|
  Background.now := 2000;
  Background.nowAfterRefresh := 2050;
  Background.alarmsSupport := true;
  Background.refreshAccessToken := λ _ _ _, AuthFlow.refreshAccessToken fetched;
  Background.listTorrents := λ _ _, Ok (Client.Parsed []);
  Background.getActiveCount := λ _, Ok {| Background.nb := 0; Background.limit := 25 |};
  Background.getUser := λ _, Ok Sample.profile;
|}.

Definition credentials : AuthFlow.DeviceCredentialsResponse :=
  {| AuthFlow.client_id := "client"; AuthFlow.client_secret := "secret" |}.

(** A flow that was started at time [0] with a code good for 600 seconds. *)
Definition pendingFlow : AuthFlow.OAuthFlow := {|
  AuthFlow.deviceCode := Some "DEVICE";
  AuthFlow.pollingInterval := Some 5000%Z;
  AuthFlow.expiresAt := Some 600000%Z;
  AuthFlow.cancelled := false;
  AuthFlow.clientCredentials := None;
|}.

(** Turns of the polling loop: the network is down, the user has not
    authorized yet, the user has authorized. *)
Definition offline (now : Z) : AuthFlow.Turn := {|
  AuthFlow.now := now;
  AuthFlow.polled := Throw (Error "Failed to fetch");
  AuthFlow.exchanged := Throw (Error "Failed to fetch");
  AuthFlow.nowOnSuccess := now;
  AuthFlow.cancelledWhileAsleep := false;
|}.

Definition waiting (now : Z) (cancelled : bool) : AuthFlow.Turn := {|
  AuthFlow.now := now;
  AuthFlow.polled := Ok None;
  AuthFlow.exchanged := Throw (Error "not called");
  AuthFlow.nowOnSuccess := now;
  AuthFlow.cancelledWhileAsleep := cancelled;
|}.

Definition authorized (now : Z) : AuthFlow.Turn := {|
  AuthFlow.now := now;
  AuthFlow.polled := Ok (Some credentials);
  AuthFlow.exchanged := Ok Sample.renewed;
  AuthFlow.nowOnSuccess := (now + 200)%Z;
  AuthFlow.cancelledWhileAsleep := false;
|}.

End MoreSamples.

(** ** Sample data of the polling properties *)

Module TickSamples.
Import Js Background.

(** The service cannot be reached: every call to it rejects. *)
Definition unreachable : Platform := {|
  now := 2000;
  nowAfterRefresh := 2050;
  alarmsSupport := true;
  refreshAccessToken := λ _ _ _, Throw (Error "Failed to fetch");
  listTorrents := λ _ _, Throw (Error "Failed to fetch");
  getActiveCount := λ _, Throw (Error "Failed to fetch");
  getUser := λ _, Throw (Error "Failed to fetch");
|}.

(** The listing call is answered with status 204 and no content: the
    gateway resolves to [{}]. *)
Definition emptyAnswer : Client.Response (list TorrentItem) := {|
  Client.status := 204;
  Client.statusText := "No Content";
  Client.contentType := None;
  Client.json := Throw (Error "Unexpected end of JSON input");
|}.

Definition noContentListing : Platform := {|
  now := 2000;
  nowAfterRefresh := 2050;
  alarmsSupport := true;
  refreshAccessToken := λ _ _ _, Throw (Error "Failed to fetch");
  listTorrents := λ _ _, Client.normalize emptyAnswer;
  getActiveCount := λ _, Ok {| nb := 0; limit := 25 |};
  getUser := λ _, Throw (Error "Failed to fetch");
|}.

(** Job [a] is still downloading. *)
Definition stillDownloading : Platform :=
  Sample.platform None [Sample.torrent "a" downloading].

(** Signed out, with the trigger still in place. *)
Definition signedOut : State := Sample.state Sample.noAreas ∅ Sample.trigger.

(** Signed in, nothing cached. *)
Definition justSignedIn : State :=
  Sample.state (Storage.setAuthData (Sample.credential None) Sample.noAreas) ∅ ∅.

End TickSamples.

(** ** Sample data of the tab and scanner properties *)

Module TabSamples.
Import Js.

Definition magnetLink : Tabs.DetectedLink := {|
  Tabs.url := "magnet:?xt=urn:btih:0123456789abcdef";
  Tabs.host := "magnet";
  Tabs.type := Tabs.magnet;
|}.

Definition hosterLink : Tabs.DetectedLink := {|
  Tabs.url := "https://www.hoster.example/file123";
  Tabs.host := "hoster.example";
  Tabs.type := Tabs.hoster;
|}.

(** No links known for any tab; job [a] is downloading. *)
Definition idle : Tabs.State := {|
  Tabs.background := Sample.pollingState;
  Tabs.detectedLinksByTab := ∅;
  Tabs.tabBadges := ∅;
|}.

(** The content script of tab 7, and the popup. *)
Definition contentScript : Tabs.MessageSender := {| Tabs.tabId := Some 7%Z |}.
Definition popup : Tabs.MessageSender := {| Tabs.tabId := None |}.

(** A matcher that knows one hoster, and a parser of the two sample hosts. *)
Definition test (pattern url : string) : bool := includes url pattern.

Definition hostnameOf (url : string) : option string :=
  if String.prefix "https://www.hoster.example/" url then Some "www.hoster.example"
  else None.

Definition page : list string :=
  ["https://www.hoster.example/file123";
   "javascript:void(0)";
   "magnet:?xt=urn:btih:0123456789abcdef";
   "https://elsewhere.example/";
   "https://www.hoster.example/file123"].

End TabSamples.

(** ** A reading of the scanner's loop *)

Module ScanReadings.
Import Js.

(** What the three tests of the loop come to for an address that it has
    not seen yet: it is reported or not. *)
Definition detectable (test : string → string → bool) (hostsRegex : list string)
    (href : string) : bool :=
  truthy_string href && negb (String.prefix "javascript:" href)
  && (String.prefix "magnet:" href || Scanner.matchesHosterPattern test href hostsRegex).

End ScanReadings.

(** * Properties *)

Import Js.

(** Unfolds the plumbing of [Async]. *)
Ltac async_unfold :=
  unfold mbind, mret, Async_bind, Async_ret, await, resolve, reject,
    tryCatch, gets, modify in *.

Ltac async_simpl := async_unfold; cbn [fst snd] in *.

(** ** Storage *)

Section StorageFacts.
Import Storage.

Lemma getAuthData_removeAuthData areas :
  getAuthData (removeAuthData areas) = None.
Proof.
  unfold getAuthData, removeAuthData, clearCache, setLocal; cbn [local sync].
  rewrite lookup_delete_ne by done.
  by rewrite lookup_delete_eq.
Qed.

Lemma getCache_removeAuthData areas :
  getCache (removeAuthData areas) = emptyCache.
Proof.
  unfold getCache, removeAuthData, clearCache, setLocal; cbn [local sync].
  by rewrite lookup_delete_eq.
Qed.

Lemma sync_removeAuthData areas : sync (removeAuthData areas) = sync areas.
Proof. reflexivity. Qed.


Lemma sync_setAuthData authData areas : sync (setAuthData authData areas) = sync areas.
Proof. reflexivity. Qed.

Lemma isAuthenticated_removeAuthData areas :
  isAuthenticated (removeAuthData areas) = false.
Proof. unfold isAuthenticated. by rewrite getAuthData_removeAuthData. Qed.
End StorageFacts.

(** ** Token lifecycle *)

Section TokenFacts.
Import Background.
Variable platform : Platform.

(** A stored credential that is not expired is returned as it is, and
    nothing changes. *)
Lemma getValidToken_fresh s authData :
  Storage.getAuthData (storage s) = Some authData →
  Auth.isTokenExpired (now platform) authData = false →
  getValidToken platform s = (Ok (Auth.accessToken authData), s).
Proof.
  intros Hget Hfresh. unfold getValidToken. async_simpl.
  by rewrite Hget, Hfresh.
Qed.

Lemma getValidToken_absent s :
  Storage.getAuthData (storage s) = None →
  getValidToken platform s = (Throw (Error "Not authenticated"), s).
Proof. intros Hget. unfold getValidToken. async_simpl. by rewrite Hget. Qed.

(** An expired credential whose refresh resolves. *)
Lemma getValidToken_refreshed s authData tokenResponse :
  Storage.getAuthData (storage s) = Some authData →
  Auth.isTokenExpired (now platform) authData = true →
  refreshAccessToken platform (Auth.clientId authData) (Auth.clientSecret authData)
    (Auth.refreshToken authData) = Ok tokenResponse →
  let updated := {|
    Auth.accessToken := Auth.access_token tokenResponse;
    Auth.refreshToken := Auth.refresh_token tokenResponse;
    Auth.clientId := Auth.clientId authData;
    Auth.clientSecret := Auth.clientSecret authData;
    Auth.expiresAt :=
      Some (nowAfterRefresh platform + Auth.expires_in tokenResponse * 1000)%Z |} in
  getValidToken platform s =
    (Ok (Auth.access_token tokenResponse),
     setStorage (Storage.setAuthData updated)
       (setRemoteCalls (λ calls, calls ++
          [RefreshAccessToken (Auth.clientId authData) (Auth.clientSecret authData)
             (Auth.refreshToken authData)]) s)).
Proof.
  intros Hget Hexp Href. unfold getValidToken, remote. async_simpl.
  by rewrite Hget, Hexp, Href.
Qed.

(** An expired credential whose refresh rejects. *)
Lemma getValidToken_refresh_rejected s authData e :
  Storage.getAuthData (storage s) = Some authData →
  Auth.isTokenExpired (now platform) authData = true →
  refreshAccessToken platform (Auth.clientId authData) (Auth.clientSecret authData)
    (Auth.refreshToken authData) = Throw e →
  getValidToken platform s =
    (Throw (Error "Session expired. Please log in again."),
     setStorage Storage.removeAuthData
       (setRemoteCalls (λ calls, calls ++
          [RefreshAccessToken (Auth.clientId authData) (Auth.clientSecret authData)
             (Auth.refreshToken authData)]) s)).
Proof.
  intros Hget Hexp Href. unfold getValidToken, remote. async_simpl.
  by rewrite Hget, Hexp, Href.
Qed.

(** The four ways [getValidToken] can go. *)
Lemma getValidToken_cases s :
  (Storage.getAuthData (storage s) = None ∧
   getValidToken platform s = (Throw (Error "Not authenticated"), s))
  ∨ (∃ authData,
       Storage.getAuthData (storage s) = Some authData ∧
       Auth.isTokenExpired (now platform) authData = false ∧
       getValidToken platform s = (Ok (Auth.accessToken authData), s))
  ∨ (∃ authData tokenResponse,
       Storage.getAuthData (storage s) = Some authData ∧
       Auth.isTokenExpired (now platform) authData = true ∧
       refreshAccessToken platform (Auth.clientId authData) (Auth.clientSecret authData)
         (Auth.refreshToken authData) = Ok tokenResponse ∧
       getValidToken platform s =
         (Ok (Auth.access_token tokenResponse),
          setStorage (Storage.setAuthData {|
              Auth.accessToken := Auth.access_token tokenResponse;
              Auth.refreshToken := Auth.refresh_token tokenResponse;
              Auth.clientId := Auth.clientId authData;
              Auth.clientSecret := Auth.clientSecret authData;
              Auth.expiresAt :=
                Some (nowAfterRefresh platform + Auth.expires_in tokenResponse * 1000)%Z |})
            (setRemoteCalls (λ calls, calls ++
               [RefreshAccessToken (Auth.clientId authData) (Auth.clientSecret authData)
                  (Auth.refreshToken authData)]) s)))
  ∨ (∃ authData,
       Storage.getAuthData (storage s) = Some authData ∧
       Auth.isTokenExpired (now platform) authData = true ∧
       getValidToken platform s =
         (Throw (Error "Session expired. Please log in again."),
          setStorage Storage.removeAuthData
            (setRemoteCalls (λ calls, calls ++
               [RefreshAccessToken (Auth.clientId authData) (Auth.clientSecret authData)
                  (Auth.refreshToken authData)]) s))).
Proof.
  destruct (Storage.getAuthData (storage s)) as [authData|] eqn:Hget.
  - destruct (Auth.isTokenExpired (now platform) authData) eqn:Hexp.
    + destruct (refreshAccessToken platform (Auth.clientId authData)
                  (Auth.clientSecret authData) (Auth.refreshToken authData))
        as [tokenResponse|e] eqn:Href.
      * right; right; left. exists authData, tokenResponse.
        repeat split; try done. by apply getValidToken_refreshed.
      * right; right; right. exists authData.
        repeat split; try done. by eapply getValidToken_refresh_rejected.
    + right; left. exists authData. repeat split; try done.
      by apply getValidToken_fresh.
  - left. split; [done|]. by apply getValidToken_absent.
Qed.

(** Whatever it does, [getValidToken] leaves the snapshot table, the
    notifications, the alarms, the badge and the [sync] area alone. *)
Lemma getValidToken_frame s :
  let s' := (getValidToken platform s).2 in
  knownTorrents s' = knownTorrents s ∧ notifications s' = notifications s ∧
  alarms s' = alarms s ∧ badge s' = badge s ∧
  Storage.sync (storage s') = Storage.sync (storage s).
Proof.
  destruct (getValidToken_cases s)
    as [[_ ->]|[(a & _ & _ & ->)|[(a & r & _ & _ & _ & ->)|(a & _ & _ & ->)]]];
    cbn; done.
Qed.

(** The messages of the errors [getValidToken] raises. *)
Lemma getValidToken_error_message s e s' :
  getValidToken platform s = (Throw e, s') →
  e = Error "Not authenticated" ∨ e = Error "Session expired. Please log in again.".
Proof.
  destruct (getValidToken_cases s)
    as [[_ ->]|[(a & _ & _ & ->)|[(a & r & _ & _ & _ & ->)|(a & _ & _ & ->)]]];
    intros [= <- <-] || intros [=]; auto.
Qed.
End TokenFacts.

Section TokenClaims.
Import Background.

(** C3.  If [getValidToken] finds a stored credential whose declared
    expiry has passed and the refresh request fails, the call fails with
    the session-expired error and the stored credential is gone: reading
    it afterwards gives nothing, and the refresh was requested once. *)
Theorem getValidToken_refresh_failure_purges
    (platform : Platform) (s : State) (authData : Auth.AuthData)
    (expiry : Z) (e : JsError) :
  Storage.getAuthData (storage s) = Some authData →
  Auth.expiresAt authData = Some expiry →
  expiry ≠ 0%Z →
  (expiry ≤ now platform)%Z →
  refreshAccessToken platform (Auth.clientId authData) (Auth.clientSecret authData)
    (Auth.refreshToken authData) = Throw e →
  (getValidToken platform s).1 = Throw (Error "Session expired. Please log in again.")
  ∧ Storage.getAuthData (storage (getValidToken platform s).2) = None
  ∧ Storage.getToken (storage (getValidToken platform s).2) = None
  ∧ Storage.isAuthenticated (storage (getValidToken platform s).2) = false
  ∧ storage (getValidToken platform s).2 = Storage.removeAuthData (storage s).
Proof.
  intros Hget Hexp Hnz Hpast Href.
  assert (Auth.isTokenExpired (now platform) authData = true) as Hexpired.
  { unfold Auth.isTokenExpired, truthy_number. rewrite Hexp.
    destruct (Z.eqb_spec expiry 0) as [?|_]; [done|]. cbn. lia. }
  rewrite (getValidToken_refresh_rejected platform s authData e Hget Hexpired Href).
  cbn [fst snd]. unfold setStorage, setRemoteCalls; cbn [storage].
  unfold Storage.getToken.
  rewrite getAuthData_removeAuthData, isAuthenticated_removeAuthData. done.
Qed.

Lemma getValidToken_refresh_failure_purges_witness :
  (getValidToken Sample.failing Sample.staleState).1
    = Throw (Error "Session expired. Please log in again.")
  ∧ Storage.getAuthData
      (storage (getValidToken Sample.failing Sample.staleState).2) = None.
Proof.
  pose proof (getValidToken_refresh_failure_purges Sample.failing Sample.staleState
                (Sample.credential (Some 1500%Z)) 1500%Z
                (OAuthError "invalid_grant" (Some "invalid_grant"))) as H.
  destruct H as (H1 & H2 & _).
  - vm_compute; reflexivity.
  - reflexivity.
  - lia.
  - cbn; lia.
  - reflexivity.
  - split; [exact H1 | exact H2].
Defined.



End TokenClaims.

Section LogoutClaims.
Import Background.

(** C10.  [removeAuthData] clears the cached-data record together with
    the auth record: once it has run, the stored credential is absent,
    [getCachedUserProfile], [getCachedDomains] and [getCachedHostsRegex]
    return null at every clock reading, and the [sync] area, hence the
    user preferences, is as before.  The AUTH_LOGOUT handler runs it, and
    so does [getValidToken] when the refresh fails. *)
Theorem removeAuthData_clears_cache_keeps_preferences (areas : Storage.Areas) :
  let after := Storage.removeAuthData areas in
  Storage.getAuthData after = None
  ∧ (∀ now, Storage.getCachedUserProfile now after = None
            ∧ Storage.getCachedDomains now after = None
            ∧ Storage.getCachedHostsRegex now after = None)
  ∧ Storage.getPreferences after = Storage.getPreferences areas
  ∧ Storage.sync after = Storage.sync areas
  ∧ (∀ (P Sender : Type) (payload : P) (sender : Sender) s,
       storage s = areas →
       handleLogout payload sender s
         = (Ok (Messaging.success (SuccessData true)), setStorage (λ _, after) s))
  ∧ (∀ (platform : Platform) s,
       storage s = areas →
       (getValidToken platform s).1
         = Throw (Error "Session expired. Please log in again.") →
       storage (getValidToken platform s).2 = after).
Proof.
  intros after. subst after.
  split; [apply getAuthData_removeAuthData|].
  split.
  { intros now.
    unfold Storage.getCachedUserProfile, Storage.getCachedDomains,
      Storage.getCachedHostsRegex.
    rewrite getCache_removeAuthData. done. }
  split; [done|]. split; [done|]. split.
  - intros P Sender payload sender s <-.
    unfold handleLogout. async_simpl. done.
  - intros platform s <- Hfail.
    destruct (getValidToken_cases platform s)
      as [[_ Heq]|[(a & _ & _ & Heq)|[(a & r & _ & _ & _ & Heq)|(a & _ & _ & Heq)]]];
      rewrite Heq in Hfail |- *; cbn [fst snd] in *; try discriminate.
    done.
Qed.

Lemma removeAuthData_clears_cache_keeps_preferences_witness :
  Storage.getCachedUserProfile 2000 Sample.configured = Some Sample.profile
  ∧ Storage.getCachedUserProfile 2000 (Storage.removeAuthData Sample.configured) = None
  ∧ Storage.getPreferences (Storage.removeAuthData Sample.configured) = Sample.quiet
  ∧ storage (getValidToken Sample.failing (Sample.state Sample.configured ∅ ∅)).2
      = Storage.removeAuthData Sample.configured.
Proof.
  set (areas := Sample.configured).
  destruct (removeAuthData_clears_cache_keeps_preferences areas)
    as (_ & Hcache & Hprefs & _ & _ & Htoken).
  split; [vm_compute; reflexivity|].
  split; [apply (Hcache 2000%Z)|].
  split; [rewrite Hprefs; vm_compute; reflexivity|].
  apply (Htoken Sample.failing (Sample.state areas ∅ ∅)).
  - reflexivity.
  - vm_compute; reflexivity.
Defined.
End LogoutClaims.

Section PollingStartClaims.
Import Background.

(** [startPolling] when no trigger exists: one poll, then the trigger. *)
Lemma startPolling_first (platform : Platform) (s : State) :
  alarmsSupport platform = true →
  alarms s !! POLLING_ALARM_NAME = None →
  startPolling platform s
    = (Ok tt,
       setAlarms <[POLLING_ALARM_NAME := {| periodInMinutes := POLLING_INTERVAL_MINUTES |}]>
         (pollTorrents platform s).2).
Proof.
  intros Hsup Hnone. unfold startPolling. rewrite Hsup. cbn [negb].
  async_simpl. rewrite Hnone.
  assert (∃ s', pollTorrents platform s = (Ok tt, s')) as [s' Hs'].
  { unfold pollTorrents. async_simpl.
    destruct (match negb _ with true => _ | false => _ end) as [[[]|e] s'] eqn:E;
      rewrite ?E; eauto. }
  unfold pollTorrents in *. async_simpl. rewrite Hs'. done.
Qed.

(** C6, as the code has it.  When the recurring polling trigger already
    exists, a call of [startPolling] does nothing at all: it performs no
    poll evaluation (nothing is fetched, the snapshot table, the badge and
    the notifications are as before), it creates no second trigger and it
    leaves the existing one as it is.  The immediate evaluation belongs
    to the start that finds no trigger: that one polls once and then
    creates the trigger. *)
Theorem startPolling_existing_trigger_noop (platform : Platform) (s : State) :
  (is_Some (alarms s !! POLLING_ALARM_NAME) →
     startPolling platform s = (Ok tt, s))
  ∧ (alarmsSupport platform = true →
     alarms s !! POLLING_ALARM_NAME = None →
     startPolling platform s
       = (Ok tt,
          setAlarms
            <[POLLING_ALARM_NAME := {| periodInMinutes := POLLING_INTERVAL_MINUTES |}]>
            (pollTorrents platform s).2)
     ∧ is_Some (alarms (startPolling platform s).2 !! POLLING_ALARM_NAME)).
Proof.
  split.
  - intros [alarm Halarm]. unfold startPolling.
    destruct (alarmsSupport platform); cbn [negb]; [|done].
    async_simpl. by rewrite Halarm.
  - intros Hsup Hnone. rewrite (startPolling_first platform s Hsup Hnone).
    split; [done|]. cbn [snd]. unfold setAlarms; cbn [alarms].
    rewrite lookup_insert_eq. eauto.
Qed.

Lemma startPolling_existing_trigger_noop_witness :
  startPolling Sample.completing Sample.pollingState = (Ok tt, Sample.pollingState)
  ∧ remoteCalls (startPolling Sample.completing Sample.pollingState).2 = [].
Proof.
  set (platform := Sample.completing). set (s := Sample.pollingState).
  destruct (startPolling_existing_trigger_noop platform s) as [Hnoop _].
  assert (is_Some (alarms s !! POLLING_ALARM_NAME)) as Hexists
    by (eexists; vm_compute; reflexivity).
  split; [exact (Hnoop Hexists)|].
  rewrite (Hnoop Hexists). reflexivity.
Defined.

(** C6, as the claim has it, fails: with the trigger in place and a job
    that has completed since the last tick, a poll evaluation would fetch
    the listing, notify and update the snapshot table; [startPolling]
    does none of it. *)
Lemma startPolling_existing_trigger_does_not_poll :
  is_Some (alarms Sample.pollingState !! POLLING_ALARM_NAME)
  ∧ remoteCalls (pollTorrents Sample.completing Sample.pollingState).2
      = [ListTorrents "access-1" (Some 100%Z)]
  ∧ length (notifications (pollTorrents Sample.completing Sample.pollingState).2) = 1%nat
  ∧ remoteCalls (startPolling Sample.completing Sample.pollingState).2 = []
  ∧ notifications (startPolling Sample.completing Sample.pollingState).2 = []
  ∧ knownTorrents (startPolling Sample.completing Sample.pollingState).2
      = {[ "a" := downloading ]}
  ∧ ¬ (startPolling Sample.completing Sample.pollingState).2
      = (pollTorrents Sample.completing Sample.pollingState).2.
Proof.
  split; [eexists; vm_compute; reflexivity|].
  split; [vm_compute; reflexivity|].
  split; [vm_compute; reflexivity|].
  split; [vm_compute; reflexivity|].
  split; [vm_compute; reflexivity|].
  split; [vm_compute; reflexivity|].
  intros Heq. apply (f_equal remoteCalls) in Heq. vm_compute in Heq. discriminate.
Qed.
End PollingStartClaims.

(** ** The message router *)

Section RouterClaims.
Import Messaging.

(** The string of a thrown error that the code base builds itself is
    never empty. *)
Lemma getValidToken_error_nonempty (platform : Background.Platform) s e s' :
  Background.getValidToken platform s = (Throw e, s') → Js.message e ≠ "".
Proof.
  intros Hrun.
  by destruct (getValidToken_error_message platform s e s' Hrun) as [-> | ->].
Qed.

(** [withErrorHandling] turns a rejection into a failure envelope. *)
Lemma withErrorHandling_rejected {T} (fn : Async Background.State T) s e s' :
  fn s = (Throw e, s') →
  ∃ code,
    Background.withErrorHandling fn s
      = (Ok {| success_ := false; data := None;
               error_ := Some (Js.message e); errorCode := code |}, s').
Proof.
  intros Hfn. unfold Background.withErrorHandling. async_simpl. rewrite Hfn.
  destruct e; eauto.
Qed.

Lemma withErrorHandling_resolves {T} (fn : Async Background.State T) s :
  ∃ response, (Background.withErrorHandling fn s).1 = Ok response.
Proof.
  unfold Background.withErrorHandling. async_simpl.
  destruct (fn s) as [[d|e] s']; [eauto|]. destruct e; eauto.
Qed.

(** C7.  For every registry and every message whose type has a handler:
    the listener answers, whatever the handler does; and if the handler's
    promise rejects with an error, the answer is the envelope
    [{success: false, error: message}] with that error's message, a
    string that is not empty, the thrown error carrying a message (as
    those of [getValidToken] and of the gateway do).  The rejection does
    not pass the listener, and the state is the one the handler left.
    Inside a handler, [withErrorHandling] turns the rejection of the remote
    call into the same kind of envelope, with the error code if there is
    one. *)
Theorem createMessageListener_answers_rejection {S P Sender T : Type}
    (handlers : gmap string (MessageHandler S P Sender T))
    (message : Message P) (sender : Sender) (s : S)
    (handler : MessageHandler S P Sender T) :
  handlers !! type message = Some handler →
  (∃ response, (createMessageListener handlers message sender s).1 = Responded response)
  ∧ (∀ e s',
       handler (payload message) sender s = (Throw e, s') →
       Js.message e ≠ "" →
       ∃ response,
         createMessageListener handlers message sender s = (Responded response, s')
         ∧ success_ response = false
         ∧ data response = None
         ∧ errorCode response = None
         ∧ ∃ text, error_ response = Some text ∧ text = Js.message e ∧ text ≠ "")
  ∧ (∀ (D : Type) (fn : Async Background.State D) s0 e s1,
       fn s0 = (Throw e, s1) →
       ∃ code,
         Background.withErrorHandling fn s0
           = (Ok {| success_ := false; data := None;
                    error_ := Some (Js.message e); errorCode := code |}, s1)).
Proof.
  intros Hhandler. split; [|split].
  - unfold createMessageListener, MessageHandler, Async in *. rewrite Hhandler.
    destruct (handler (payload message) sender s) as [[response|e] s']; eauto.
  - intros e s' Hrun Hmessage.
    unfold createMessageListener, MessageHandler, Async in *. rewrite Hhandler, Hrun.
    eexists. split; [reflexivity|]. cbn. repeat split; eauto.
  - intros D fn s0 e s1 Hfn. by apply withErrorHandling_rejected.
Qed.

(** The four handlers of the registry above: whenever the answer is a
    failure envelope, its error string is not empty, the errors of the
    remote calls carrying a message. *)
Lemma registered_handlers_failure_envelope (platform : Background.Platform)
    {P0 Sender0 : Type} (message : Message P0) (sender : Sender0)
    (s s' : Background.State) (response : MessageResponse Background.ResponseData) :
  (∀ token e, Background.getUser platform token = Throw e → Js.message e ≠ "") →
  (∀ token e, Background.getActiveCount platform token = Throw e → Js.message e ≠ "") →
  createMessageListener (Background.handlers platform) message sender s
    = (Responded response, s') →
  success_ response = false →
  ∃ text, error_ response = Some text ∧ text ≠ "".
Proof.
  intros HgetUser HgetActiveCount.
  unfold createMessageListener, Background.handlers.
  cbn [list_to_map foldr uncurry fst snd].
  rewrite !lookup_insert, lookup_empty.
  repeat case_decide.
  - (* AUTH_STATUS *)
    unfold Background.handleAuthStatus, Background.remote, success. async_simpl.
    destruct (Storage.isAuthenticated _); [|by intros [= <- <-]].
    destruct (Background.getValidToken platform s) as [[token|e] s1];
      [|by intros [= <- <-]].
    destruct (Background.getUser platform token); by intros [= <- <-].
  - (* AUTH_LOGOUT *)
    unfold Background.handleLogout, success. async_simpl. by intros [= <- <-].
  - (* GET_USER_PROFILE *)
    unfold Background.handleGetUserProfile, Background.remote, success. async_simpl.
    destruct (Storage.getCachedUserProfile _ _); [by intros [= <- <-]|].
    destruct (Background.getValidToken platform s) as [[token|e] s1] eqn:Htoken.
    + destruct (Background.getUser platform token) as [profile|e] eqn:Huser;
        intros [= <- <-]; [done|].
      intros _. cbn. eauto.
    + intros [= <- <-] _. cbn.
      eauto using getValidToken_error_nonempty.
  - (* GET_ACTIVE_TORRENT_COUNT *)
    unfold Background.handleGetActiveTorrentCount, Background.withErrorHandling,
      Background.remote. async_simpl.
    destruct (Background.getValidToken platform s) as [[token|e] s1] eqn:Htoken.
    + destruct (Background.getActiveCount platform token) as [count|e] eqn:Hcount;
        [by intros [= <- <-]|].
      pose proof (HgetActiveCount token e Hcount) as Hne.
      destruct e; intros [= <- <-] _; cbn in *; eauto.
    + intros [= <- <-] _. cbn.
      eauto using getValidToken_error_nonempty.
  - discriminate.
Qed.

Lemma createMessageListener_answers_rejection_witness :
  createMessageListener (Background.handlers (P := unit) (Sender := unit) Sample.failing)
      {| type := "GET_ACTIVE_TORRENT_COUNT"; payload := tt |} tt
      (Sample.state Sample.noAreas ∅ ∅)
    = (Responded {| success_ := false; data := None;
                    error_ := Some "Not authenticated"; errorCode := None |},
       Sample.state Sample.noAreas ∅ ∅).
Proof.
  set (message := {| type := "GET_ACTIVE_TORRENT_COUNT"; payload := tt |}).
  set (s := Sample.state Sample.noAreas ∅ ∅).
  destruct (createMessageListener_answers_rejection
              (Background.handlers (P := unit) (Sender := unit) Sample.failing)
              message tt s
              (Background.handleGetActiveTorrentCount Sample.failing))
    as (_ & Hreject & _).
  - vm_compute; reflexivity.
  - destruct (Hreject (Error "Not authenticated") s)
      as (response & Heq & Hs & Hd & Hc & text & Ht & -> & _).
    + vm_compute; reflexivity.
    + discriminate.
    + rewrite Heq. destruct response; cbn in *. by subst.
Defined.
End RouterClaims.

(** ** The gateway: what is sent and what comes back *)

Section GatewayClaims.
Import Client.
Context {T : Type}.

(** Once [fetch] has been called, [request] returns what [normalize]
    makes of the response. *)
Lemma request_outcome_of_response (options : RequestOptions) (env : RequestEnv T)
    (requestTimestamps : list Z) (response : Response T) sent :
  fetched env = Responded response →
  dispatched (request options env requestTimestamps).1.2 = Some sent →
  (request options env requestTimestamps).1.1 = normalize response.
Proof.
  intros Hfetched. unfold request.
  destruct (waitForRateLimit _ _) as [waited ts].
  destruct (skipAuth options); [|destruct (token options) as [t|];
    [destruct (truthy_string t)|]]; cbn [dispatched fst snd]; try discriminate.
  all: destruct (body options) as [[fd|entries| |]|];
    cbn [dispatched fst snd]; try discriminate; by rewrite Hfetched.
Qed.

(** The body that [request] hands to [fetch] for an object body. *)
Lemma request_sends_encoded_entries (options : RequestOptions) (env : RequestEnv T)
    (requestTimestamps : list Z) entries now url init :
  body options = Some (BodyObject entries) →
  dispatched (request options env requestTimestamps).1.2 = Some (now, url, init) →
  init_body init = Some (SentUrlEncoded (encodeEntries entries))
  ∧ init_headers init !! "Content-Type" = Some "application/x-www-form-urlencoded"
  ∧ init_method init = method options
  ∧ url = BASE_URL +:+ path options.
Proof.
  intros Hbody. unfold request.
  destruct (waitForRateLimit _ _) as [waited ts].
  destruct (skipAuth options); [|destruct (token options) as [t|];
    [destruct (truthy_string t)|]]; cbn [dispatched fst snd]; try discriminate.
  all: rewrite Hbody; cbn [dispatched fst snd];
    destruct (fetched env); cbn [dispatched fst snd];
    intros [= <- <- <-]; cbn [init_body init_headers init_method];
    by rewrite lookup_insert_eq.
Qed.

Lemma encodeEntries_omap (entries : list (string * JsValue)) :
  encodeEntries entries
    = omap (λ entry,
              match entry.2 with
              | JsUndefined | JsNull => None
              | value => Some (entry.1, String_ value)
              end) entries.
Proof.
  induction entries as [|[key value] rest IH]; [done|].
  cbn [encodeEntries omap list_omap snd fst]. rewrite IH. by destruct value.
Qed.

Lemma elem_of_encodeEntries (entries : list (string * JsValue)) key text :
  (key, text) ∈ encodeEntries entries
  ↔ ∃ value, (key, value) ∈ entries ∧ value ≠ JsUndefined ∧ value ≠ JsNull
             ∧ text = String_ value.
Proof.
  rewrite encodeEntries_omap, list_elem_of_omap. split.
  - intros ([k v] & Hin & Hsome). cbn in Hsome.
    destruct v; try discriminate; injection Hsome as <- <-; eauto.
  - intros (value & Hin & Hu & Hn & ->). exists (key, value). split; [done|].
    cbn. by destruct value.
Qed.

(** The errors that the gateway builds itself carry a message; the others
    are the platform's, passed on as they are. *)
Lemma request_error_message (options : RequestOptions) (env : RequestEnv T)
    (requestTimestamps : list Z) (e : JsError) :
  (request options env requestTimestamps).1.1 = Throw e →
  Js.message e ≠ ""
  ∨ fetched env = NetworkFailure e
  ∨ ∃ response, fetched env = Responded response ∧ json response = Throw e.
Proof.
  unfold request.
  destruct (waitForRateLimit _ _) as [waited ts].
  destruct (skipAuth options); [|destruct (token options) as [t|];
    [destruct (truthy_string t)|]]; cbn [fst snd];
    try (intros [= <-]; left; discriminate).
  all: destruct (body options) as [[fd|entries| |]|]; cbn [fst snd];
    try (intros [= <-]; left; discriminate).
  all: destruct (fetched env) as [e'|response]; cbn [fst snd];
    [intros [= <-]; auto|].
  all: unfold normalize;
    destruct (negb (ok response));
    [destruct (hasJson response);
     [destruct (json response) as [parsed|e'] eqn:Hjson;
      [|intros [= <-]; right; right; eauto]
     |intros [= <-]; left; discriminate]
    |destruct ((status response =? 204)%Z || negb (hasJson response)); [discriminate|];
     destruct (json response) as [parsed|e'] eqn:Hjson;
     [discriminate|intros [= <-]; right; right; eauto]].
  all: intros [= <-]; left; cbn [Js.message];
    destruct (error (asApiError parsed)) as [m|]; [|discriminate];
    unfold truthy_string; destruct (String.eqb_spec m ""); cbn [negb];
    [discriminate|done].
Qed.

(** C8.  For a gateway request that has been sent and has got a
    response: with a status that is not a success and a JSON payload,
    [request] throws a [RealDebridApiError] that carries the remote error
    message (or "Unknown API error" when the payload has none), the
    status and the payload's error code if it has one; with a status that
    is not a success and no JSON payload, it throws one whose message is
    built from the status line; with a success status and no JSON content
    (status 204, or a content type that is not JSON) it resolves to the
    empty object. *)
Theorem request_normalizes_response (options : RequestOptions) (env : RequestEnv T)
    (requestTimestamps : list Z) (response : Response T)
    (sent : Z * string * RequestInit) :
  fetched env = Responded response →
  dispatched (request options env requestTimestamps).1.2 = Some sent →
  (ok response = false → hasJson response = true →
     ∀ parsed, json response = Ok parsed →
       ∃ text,
         (request options env requestTimestamps).1.1
           = Throw (RealDebridApiError text (status response)
                      (error_code (asApiError parsed)))
         ∧ (∀ remote, error (asApiError parsed) = Some remote → remote ≠ "" →
                      text = remote)
         ∧ (error (asApiError parsed) = None ∨ error (asApiError parsed) = Some "" →
              text = "Unknown API error"))
  ∧ (ok response = false → hasJson response = false →
       (request options env requestTimestamps).1.1
         = Throw (RealDebridApiError
                    ("HTTP " +:+ pretty (status response) +:+ ": " +:+ statusText response)
                    (status response) None))
  ∧ (ok response = true → status response = 204%Z ∨ hasJson response = false →
       (request options env requestTimestamps).1.1 = Ok EmptyObject).
Proof.
  intros Hfetched Hsent.
  rewrite (request_outcome_of_response options env requestTimestamps response sent
             Hfetched Hsent).
  unfold normalize. split; [|split].
  - intros -> -> parsed ->. cbn [negb].
    eexists. split; [reflexivity|]. split.
    + intros remote -> Hne. unfold truthy_string.
      destruct (String.eqb_spec remote ""); [done|reflexivity].
    + by intros [-> | ->].
  - by intros -> ->.
  - intros -> Hempty. cbn [negb].
    destruct Hempty as [-> | ->]; [done|]. by rewrite orb_true_r.
Qed.

(** C9.  When an object that is not a [FormData] is passed as body, the
    URL-encoded form body that is sent holds exactly the pairs of the
    object whose value is neither [undefined] nor [null], in the object's
    order, each value in its string form; the other entries are left out. *)
Theorem request_encodes_defined_entries (options : RequestOptions) (env : RequestEnv T)
    (requestTimestamps : list Z) (entries : list (string * JsValue))
    (now : Z) (url : string) (init : RequestInit) :
  body options = Some (BodyObject entries) →
  dispatched (request options env requestTimestamps).1.2 = Some (now, url, init) →
  ∃ params,
    init_body init = Some (SentUrlEncoded params)
    ∧ init_headers init !! "Content-Type" = Some "application/x-www-form-urlencoded"
    ∧ params = omap (λ entry,
                       match entry.2 with
                       | JsUndefined | JsNull => None
                       | value => Some (entry.1, String_ value)
                       end) entries
    ∧ (∀ key text,
         (key, text) ∈ params
         ↔ ∃ value, (key, value) ∈ entries ∧ value ≠ JsUndefined ∧ value ≠ JsNull
                    ∧ text = String_ value)
    ∧ (∀ key,
         (∀ value, (key, value) ∈ entries → value = JsUndefined ∨ value = JsNull) →
         key ∉ params.*1).
Proof.
  intros Hbody Hsent.
  destruct (request_sends_encoded_entries options env requestTimestamps entries
              now url init Hbody Hsent) as (Hinit & Hheader & _ & _).
  exists (encodeEntries entries).
  split; [done|]. split; [done|]. split; [apply encodeEntries_omap|].
  split; [apply elem_of_encodeEntries|].
  intros key Hall [[k text] [Hk Hin]]%list_elem_of_fmap. cbn in Hk. subst k.
  apply elem_of_encodeEntries in Hin as (value & Hin & Hu & Hn & _).
  destruct (Hall value Hin); done.
Qed.
End GatewayClaims.

Lemma request_normalizes_response_witness :
  (Client.request Sample.userRequest (Sample.answered Sample.badToken) []).1.1
    = Throw (RealDebridApiError "bad_token" 401 (Some 8%Z))
  ∧ (Client.request Sample.userRequest (Sample.answered Sample.unavailable) []).1.1
    = Throw (RealDebridApiError "HTTP 503: Service Unavailable" 503 None)
  ∧ (Client.request Sample.userRequest (Sample.answered Sample.noContent) []).1.1
    = Ok Client.EmptyObject.
Proof.
  split; [|split].
  - destruct (request_normalizes_response Sample.userRequest
                (Sample.answered Sample.badToken) [] Sample.badToken
                (1000%Z, Client.BASE_URL +:+ "/user",
                 {| Client.init_method := Client.GET;
                    Client.init_headers := {[ "Authorization" := "Bearer access-1" ]};
                    Client.init_body := None |}))
      as (Herror & _ & _); [reflexivity | vm_compute; reflexivity |].
    destruct (Herror eq_refl eq_refl _ eq_refl) as (text & -> & Hremote & _).
    rewrite (Hremote "bad_token"%string eq_refl); [reflexivity | discriminate].
  - destruct (request_normalizes_response Sample.userRequest
                (Sample.answered Sample.unavailable) [] Sample.unavailable
                (1000%Z, Client.BASE_URL +:+ "/user",
                 {| Client.init_method := Client.GET;
                    Client.init_headers := {[ "Authorization" := "Bearer access-1" ]};
                    Client.init_body := None |}))
      as (_ & Hstatus & _); [reflexivity | vm_compute; reflexivity |].
    rewrite (Hstatus eq_refl eq_refl). vm_compute; reflexivity.
  - destruct (request_normalizes_response Sample.userRequest
                (Sample.answered Sample.noContent) [] Sample.noContent
                (1000%Z, Client.BASE_URL +:+ "/user",
                 {| Client.init_method := Client.GET;
                    Client.init_headers := {[ "Authorization" := "Bearer access-1" ]};
                    Client.init_body := None |}))
      as (_ & _ & Hempty); [reflexivity | vm_compute; reflexivity |].
    apply Hempty; [reflexivity | by left].
Defined.

Lemma request_encodes_defined_entries_witness :
  ∃ now url init,
    Client.dispatched
      (Client.request Sample.unrestrictRequest (Sample.answered Sample.noContent) []).1.2
      = Some (now, url, init)
    ∧ Client.init_body init
      = Some (Client.SentUrlEncoded
                [("link", "https://hoster.example/file123"); ("remote", "1")]).
Proof.
  eexists _, _, _. split; [vm_compute; reflexivity|].
  edestruct (request_encodes_defined_entries Sample.unrestrictRequest
               (Sample.answered Sample.noContent) [])
    as (params & -> & _ & -> & _); [reflexivity | vm_compute; reflexivity |].
  vm_compute; reflexivity.
Defined.

(** ** The polling tick *)

Section TickFacts.
Import Background.

Lemma showTorrentCompletedNotification_run (torrent : TorrentItem) (s : State) :
  showTorrentCompletedNotification torrent s
    = (Ok tt,
       if Storage.notificationsEnabled (Storage.getPreferences (storage s))
       then setNotifications (λ created, created ++
              [{| notificationId := "torrent-completed-" +:+ id torrent;
                  title := "Torrent Download Complete";
                  message := filename torrent |}]) s
       else s).
Proof.
  unfold showTorrentCompletedNotification. async_simpl.
  by destruct (Storage.notificationsEnabled _).
Qed.

(** The state in which the loop goes on after it has handled [torrent]. *)
Lemma pollLoop_cons (torrent : TorrentItem) (rest : list TorrentItem)
    (activeCount : nat) (currentTorrentIds : gset string) (s : State) :
  pollLoop (torrent :: rest) activeCount currentTorrentIds s
    = pollLoop rest
        (if isActiveTorrent (status torrent) then S activeCount else activeCount)
        ({[id torrent]} ∪ currentTorrentIds)
        (setKnownTorrents <[id torrent := status torrent]>
           (match knownTorrents s !! id torrent with
            | Some previous =>
                if bool_decide (previous ≠ downloaded)
                   && bool_decide (status torrent = downloaded)
                then (showTorrentCompletedNotification torrent s).2
                else s
            | None => s
            end)).
Proof.
  cbn [pollLoop]. async_simpl.
  destruct (knownTorrents s !! id torrent) as [previous|]; [|done].
  destruct (bool_decide (previous ≠ downloaded) && bool_decide (status torrent = downloaded));
    [|done].
  by rewrite showTorrentCompletedNotification_run.
Qed.

(** The loop never throws; it counts the active jobs of the listing and
    collects the listed identifiers. *)
Lemma pollLoop_result (torrents : list TorrentItem) :
  ∀ (activeCount : nat) (currentTorrentIds : gset string) (s : State),
    (pollLoop torrents activeCount currentTorrentIds s).1
      = Ok ((activeCount + activeIn torrents)%nat,
            list_to_set (id <$> torrents) ∪ currentTorrentIds).
Proof.
  induction torrents as [|torrent rest IH]; intros activeCount currentTorrentIds s.
  - cbn. f_equal. f_equal; [lia | by rewrite union_empty_l_L].
  - rewrite pollLoop_cons, IH. f_equal. f_equal.
    + unfold activeIn, isActiveTorrent. rewrite filter_cons.
      destruct (decide (status torrent ∈ ACTIVE_STATUSES)) as [Hin|Hnin].
      * rewrite bool_decide_eq_true_2 by done. cbn [length]. lia.
      * rewrite bool_decide_eq_false_2 by done. lia.
    + rewrite fmap_cons, list_to_set_cons.
      rewrite (assoc_L (∪) (list_to_set (id <$> rest))).
      by rewrite (comm_L (∪) (list_to_set (id <$> rest))).
Qed.

(** It touches the snapshot table and the notifications only. *)
Lemma pollLoop_frame (torrents : list TorrentItem) :
  ∀ (activeCount : nat) (currentTorrentIds : gset string) (s : State),
    let s' := (pollLoop torrents activeCount currentTorrentIds s).2 in
    storage s' = storage s ∧ alarms s' = alarms s ∧ badge s' = badge s
    ∧ remoteCalls s' = remoteCalls s.
Proof.
  induction torrents as [|torrent rest IH]; intros activeCount currentTorrentIds s; [done|].
  rewrite pollLoop_cons. cbn zeta.
  destruct (IH (if isActiveTorrent (status torrent) then S activeCount else activeCount)
               ({[id torrent]} ∪ currentTorrentIds)
               (setKnownTorrents <[id torrent := status torrent]>
                  (match knownTorrents s !! id torrent with
                   | Some previous =>
                       if bool_decide (previous ≠ downloaded)
                          && bool_decide (status torrent = downloaded)
                       then (showTorrentCompletedNotification torrent s).2
                       else s
                   | None => s
                   end))) as (-> & -> & -> & ->).
  rewrite showTorrentCompletedNotification_run. cbn [snd].
  destruct (knownTorrents s !! id torrent) as [previous|]; [|done].
  destruct (bool_decide (previous ≠ downloaded) && bool_decide (status torrent = downloaded));
    [|done].
  by destruct (Storage.notificationsEnabled _).
Qed.

(** The completion notifications that one run of the loop creates for job
    [jobId], every listed entry of which says "downloaded": one if the
    table held a status other than "downloaded" for it and notifications
    are enabled, none otherwise. *)
Lemma pollLoop_completions (jobId : string) (torrents : list TorrentItem) :
  ∀ (activeCount : nat) (currentTorrentIds : gset string) (s : State),
    (∀ torrent, torrent ∈ torrents → id torrent = jobId → status torrent = downloaded) →
    completionsFor jobId
      (notifications (pollLoop torrents activeCount currentTorrentIds s).2)
    = (completionsFor jobId (notifications s)
       + if bool_decide (jobId ∈ id <$> torrents)
            && Storage.notificationsEnabled (Storage.getPreferences (storage s))
            && match knownTorrents s !! jobId with
               | Some previous => bool_decide (previous ≠ downloaded)
               | None => false
               end
         then 1 else 0)%nat.
Proof.
  induction torrents as [|torrent rest IH];
    intros activeCount currentTorrentIds s Hdone.
  { rewrite bool_decide_eq_false_2 by (cbn; apply not_elem_of_nil). cbn. lia. }
  rewrite pollLoop_cons, IH by (intros t Ht; apply Hdone; by apply list_elem_of_further).
  rewrite showTorrentCompletedNotification_run. cbn [snd].
  set (enabled := Storage.notificationsEnabled (Storage.getPreferences (storage s))).
  set (s1 := match knownTorrents s !! id torrent with Some _ => _ | None => _ end).
  assert (storage s1 = storage s) as Hstorage.
  { subst s1. repeat case_match; done. }
  assert (knownTorrents s1 = knownTorrents s) as Hknown.
  { subst s1. repeat case_match; done. }
  change (storage (setKnownTorrents ?f s1)) with (storage s1).
  change (notifications (setKnownTorrents ?f s1)) with (notifications s1).
  change (knownTorrents (setKnownTorrents <[id torrent := status torrent]> s1))
    with (<[id torrent := status torrent]> (knownTorrents s1)).
  rewrite Hstorage, Hknown. fold enabled.
  destruct (decide (id torrent = jobId)) as [Hid|Hid].
  - (* the entry of the job itself *)
    pose proof (Hdone torrent (list_elem_of_here _ _) Hid) as Hstatus.
    rewrite (bool_decide_eq_true_2 (jobId ∈ id <$> torrent :: rest))
      by (rewrite <- Hid; apply list_elem_of_here).
    rewrite Hid, lookup_insert_eq, Hstatus.
    rewrite (bool_decide_eq_false_2 (downloaded ≠ downloaded)) by auto.
    rewrite andb_false_r, Nat.add_0_r. cbn [andb].
    subst s1. rewrite Hid, Hstatus.
    rewrite (bool_decide_eq_true_2 (downloaded = downloaded)) by done.
    destruct (knownTorrents s !! jobId) as [previous|]; [|rewrite andb_false_r; lia].
    rewrite andb_true_r.
    destruct (bool_decide (previous ≠ downloaded)); [|rewrite andb_false_r; lia].
    rewrite andb_true_r.
    destruct enabled; [|lia].
    unfold setNotifications; cbn [notifications].
    unfold completionsFor. rewrite filter_app, length_app.
    rewrite filter_cons_True by done. cbn. lia.
  - (* the entry of another job *)
    assert (bool_decide (jobId ∈ id <$> torrent :: rest) = bool_decide (jobId ∈ id <$> rest))
      as ->.
    { apply bool_decide_ext. rewrite fmap_cons, elem_of_cons.
      split; [intros [Heq|Hin]; [congruence|exact Hin] | by right]. }
    rewrite lookup_insert_ne by done.
    f_equal. subst s1.
    destruct (knownTorrents s !! id torrent) as [previous|]; [|done].
    destruct (bool_decide (previous ≠ downloaded) && bool_decide (status torrent = downloaded));
      [|done].
    destruct enabled; [|done].
    unfold setNotifications; cbn [notifications].
    unfold completionsFor. rewrite filter_app, length_app.
    rewrite filter_cons_False; [cbn; lia|].
    cbn [notificationId]. intros Heq. by apply String.app_inj in Heq.
Qed.

(** What [pollTorrents] does once it holds a token and a listing. *)
Lemma pollTorrents_listing (platform : Platform) (s s1 : State) (token : string)
    (torrents : list TorrentItem) :
  Storage.isAuthenticated (storage s) = true →
  getValidToken platform s = (Ok token, s1) →
  listTorrents platform token (Some 100%Z) = Ok (Client.Parsed torrents) →
  let s2 := setRemoteCalls (λ calls, calls ++ [ListTorrents token (Some 100%Z)]) s1 in
  let s3 := (pollLoop torrents 0 ∅ s2).2 in
  let s4 := setKnownTorrents
              (filter (λ entry, entry.1 ∈ (list_to_set (id <$> torrents) : gset string))) s3 in
  let s5 := (updateBadge (activeIn torrents) s4).2 in
  pollTorrents platform s
    = (Ok tt, if (activeIn torrents =? 0)%nat then (stopPolling platform s5).2 else s5).
Proof.
  intros Hauth Htoken Hlist s2 s3 s4 s5.
  unfold pollTorrents, prune, remote. async_simpl.
  rewrite Hauth. cbn [negb]. rewrite Htoken, Hlist.
  pose proof (pollLoop_result torrents 0 ∅ s2) as Hres.
  fold s2. destruct (pollLoop torrents 0 ∅ s2) as [res s3'] eqn:Hloop.
  cbn [fst] in Hres. subst res. subst s3. cbn [snd] in *.
  rewrite Nat.add_0_l, union_empty_r_L. fold s4.
  assert (∃ s', updateBadge (activeIn torrents) s4 = (Ok tt, s')) as [s5' Hbadge].
  { unfold updateBadge. async_simpl. destruct (0 <? activeIn torrents)%nat; eauto. }
  subst s5. unfold updateBadge in *. async_simpl. rewrite Hbadge. cbn [snd].
  destruct (activeIn torrents =? 0)%nat; [|done].
  unfold stopPolling. destruct (alarmsSupport platform); cbn [negb]; [|done].
  unfold updateBadge. async_simpl. done.
Qed.

(** What [pollTorrents] does when the listing call resolves to [{}]: the
    loop throws at once, the [catch] swallows the error, and the tick is
    over. *)
Lemma pollTorrents_not_iterable (platform : Platform) (s s1 : State) (token : string) :
  Storage.isAuthenticated (storage s) = true →
  getValidToken platform s = (Ok token, s1) →
  listTorrents platform token (Some 100%Z) = Ok Client.EmptyObject →
  pollTorrents platform s
    = (Ok tt, setRemoteCalls (λ calls, calls ++ [ListTorrents token (Some 100%Z)]) s1).
Proof.
  intros Hauth Htoken Hlist.
  unfold pollTorrents, remote. async_simpl.
  rewrite Hauth. cbn [negb]. by rewrite Htoken, Hlist.
Qed.
End TickFacts.

Section TickClaims.
Import Background.

Lemma getPreferences_sync (areas areas' : Storage.Areas) :
  Storage.sync areas = Storage.sync areas' →
  Storage.getPreferences areas = Storage.getPreferences areas'.
Proof. unfold Storage.getPreferences. by intros ->. Qed.

(** After the loop, a tick changes the badge and the alarms only. *)
Lemma updateBadge_run (activeCount : nat) (s : State) :
  updateBadge activeCount s
    = (Ok tt,
       setBadge (λ b, if (0 <? activeCount)%nat
                      then {| text := pretty activeCount; color := Some BADGE_COLOR |}
                      else {| text := ""; color := color b |}) s).
Proof.
  unfold updateBadge. async_simpl. by destruct (0 <? activeCount)%nat.
Qed.

Lemma stopPolling_run (platform : Platform) (s : State) :
  stopPolling platform s
    = (Ok tt,
       if alarmsSupport platform
       then setBadge (λ b, {| text := ""; color := color b |})
              (setAlarms (delete POLLING_ALARM_NAME) s)
       else s).
Proof.
  unfold stopPolling. destruct (alarmsSupport platform); cbn [negb]; [|done].
  async_simpl. by rewrite updateBadge_run.
Qed.

(** The table, the notifications and the badge at the end of a tick that
    got its listing. *)
Lemma pollTorrents_effects (platform : Platform) (s s1 : State) (token : string)
    (torrents : list TorrentItem) :
  Storage.isAuthenticated (storage s) = true →
  getValidToken platform s = (Ok token, s1) →
  listTorrents platform token (Some 100%Z) = Ok (Client.Parsed torrents) →
  let s2 := setRemoteCalls (λ calls, calls ++ [ListTorrents token (Some 100%Z)]) s1 in
  let s3 := (pollLoop torrents 0 ∅ s2).2 in
  let final := (pollTorrents platform s).2 in
  knownTorrents final
    = filter (λ entry, entry.1 ∈ (list_to_set (id <$> torrents) : gset string))
        (knownTorrents s3)
  ∧ notifications final = notifications s3
  ∧ badge final
    = (if (0 <? activeIn torrents)%nat
       then {| text := pretty (activeIn torrents); color := Some BADGE_COLOR |}
       else {| text := ""; color := color (badge s) |})
  ∧ knownTorrents s2 = knownTorrents s
  ∧ notifications s2 = notifications s
  ∧ Storage.getPreferences (storage s2) = Storage.getPreferences (storage s).
Proof.
  intros Hauth Htoken Hlist s2 s3 final. subst final.
  rewrite (pollTorrents_listing platform s s1 token torrents Hauth Htoken Hlist).
  cbn [snd]. fold s2. fold s3.
  rewrite updateBadge_run, stopPolling_run. cbn [snd].
  pose proof (getValidToken_frame platform s) as Hframe.
  rewrite Htoken in Hframe. cbn [snd] in Hframe.
  destruct Hframe as (Hknown & Hnotes & _ & Hbadge & Hsync).
  pose proof (pollLoop_frame torrents 0 ∅ s2) as (_ & _ & Hbadge3 & _). fold s3 in Hbadge3.
  assert (badge s3 = badge s) as Hb by (rewrite Hbadge3; exact Hbadge).
  repeat split.
  - destruct (activeIn torrents =? 0)%nat; [destruct (alarmsSupport platform)|]; done.
  - destruct (activeIn torrents =? 0)%nat; [destruct (alarmsSupport platform)|]; done.
  - destruct (activeIn torrents =? 0)%nat eqn:Hzero.
    + apply Nat.eqb_eq in Hzero. rewrite Hzero. cbn [Nat.ltb Nat.leb].
      destruct (alarmsSupport platform); unfold setBadge, setAlarms, setKnownTorrents;
        cbn [badge color]; by rewrite Hb.
    + apply Nat.eqb_neq in Hzero.
      assert ((0 <? activeIn torrents)%nat = true) as -> by (apply Nat.ltb_lt; lia).
      done.
  - exact Hknown.
  - exact Hnotes.
  - apply getPreferences_sync. exact Hsync.
Qed.

(** C1.  In a polling tick that gets its listing: a job whose fetched
    status is "downloaded" and for which the snapshot table holds a
    previous status other than "downloaded" gets exactly one completion
    notification if notifications are enabled in the preferences (and none
    if they are not); a job whose status is "downloaded" and that has no
    entry in the table gets none.  Either way the table holds "downloaded"
    for it afterwards. *)
Theorem pollTorrents_notifies_completion_once (platform : Platform) (s s1 : State)
    (token : string) (torrents : list TorrentItem) (jobId : string) :
  Storage.isAuthenticated (storage s) = true →
  getValidToken platform s = (Ok token, s1) →
  listTorrents platform token (Some 100%Z) = Ok (Client.Parsed torrents) →
  jobId ∈ id <$> torrents →
  (∀ torrent, torrent ∈ torrents → id torrent = jobId → status torrent = downloaded) →
  let created := notifications (pollTorrents platform s).2 in
  (∀ previous,
     knownTorrents s !! jobId = Some previous → previous ≠ downloaded →
     completionsFor jobId created
       = (completionsFor jobId (notifications s)
          + if Storage.notificationsEnabled (Storage.getPreferences (storage s))
            then 1 else 0)%nat)
  ∧ (knownTorrents s !! jobId = None →
     completionsFor jobId created = completionsFor jobId (notifications s))
  ∧ (knownTorrents s !! jobId = Some downloaded →
     completionsFor jobId created = completionsFor jobId (notifications s)).
Proof.
  intros Hauth Htoken Hlist Hlisted Hdone created. subst created.
  destruct (pollTorrents_effects platform s s1 token torrents Hauth Htoken Hlist)
    as (_ & -> & _ & Hknown & Hnotes & Hprefs).
  rewrite (pollLoop_completions jobId torrents 0 ∅ _ Hdone).
  rewrite Hknown, Hnotes, Hprefs.
  rewrite (bool_decide_eq_true_2 _ Hlisted). cbn [andb].
  split; [|split].
  - intros previous -> Hne. rewrite (bool_decide_eq_true_2 _ Hne).
    by rewrite andb_true_r.
  - intros ->. rewrite andb_false_r. lia.
  - intros ->. rewrite (bool_decide_eq_false_2 (downloaded ≠ downloaded)) by auto.
    rewrite andb_false_r. lia.
Qed.

(** The pruning of a tick that got an array as its listing: a job
    identifier that is not in the listing has no entry in the snapshot
    table when the tick ends, whatever the table held for it; and the
    active count of the tick, which the badge shows, is the number of
    listed jobs with an active status: every job it counts is a listed
    one, so the absent job adds nothing to it. *)
Lemma pollTorrents_prunes_absent_jobs (platform : Platform) (s s1 : State)
    (token : string) (torrents : list TorrentItem) (jobId : string) :
  Storage.isAuthenticated (storage s) = true →
  getValidToken platform s = (Ok token, s1) →
  listTorrents platform token (Some 100%Z) = Ok (Client.Parsed torrents) →
  jobId ∉ id <$> torrents →
  knownTorrents (pollTorrents platform s).2 !! jobId = None
  ∧ badge (pollTorrents platform s).2
    = (if (0 <? activeIn torrents)%nat
       then {| text := pretty (activeIn torrents); color := Some BADGE_COLOR |}
       else {| text := ""; color := color (badge s) |})
  ∧ activeIn torrents
    = length (filter (λ torrent, id torrent ≠ jobId ∧ status torrent ∈ ACTIVE_STATUSES)
                torrents)
  ∧ (∀ key, is_Some (knownTorrents (pollTorrents platform s).2 !! key) →
            key ∈ id <$> torrents).
Proof.
  intros Hauth Htoken Hlist Habsent.
  destruct (pollTorrents_effects platform s s1 token torrents Hauth Htoken Hlist)
    as (-> & _ & -> & _).
  split; [|split; [done|split]].
  - apply map_lookup_filter_None. right. intros status _. cbn.
    by rewrite elem_of_list_to_set.
  - unfold activeIn. clear -Habsent.
    induction torrents as [|torrent rest IH]; [done|].
    rewrite fmap_cons, not_elem_of_cons in Habsent. destruct Habsent as [Hne Hrest].
    rewrite !filter_cons.
    destruct (decide (status torrent ∈ ACTIVE_STATUSES)) as [Hin|Hnin].
    + rewrite decide_True by (split; [congruence|done]). cbn [length]. by rewrite IH.
    + rewrite decide_False by (intros [_ ?]; done). by apply IH.
  - intros key [status Hkey]. apply map_lookup_filter_Some in Hkey as [_ Hin].
    cbn in Hin. by rewrite elem_of_list_to_set in Hin.
Qed.

(** C5.  A job identifier that is in the snapshot table and not in the
    latest fetched listing is removed by the end of the tick, and adds
    nothing to the active count, when the listing call resolved to an
    array.  It is not when the call resolved to the [{}] that the gateway
    returns for an answer without JSON content (status 204): the loop
    over [{}] throws at once, the error is
    swallowed, and the tick ends with every entry of the table, the
    trigger, the badge and the notifications as they were. *)
Theorem pollTorrents_prunes_array_listings_only (platform : Platform) (s s1 : State)
    (token : string) (listed : Client.ResponseValue (list TorrentItem)) (jobId : string) :
  Storage.isAuthenticated (storage s) = true →
  getValidToken platform s = (Ok token, s1) →
  listTorrents platform token (Some 100%Z) = Ok listed →
  match listed with
  | Client.Parsed torrents =>
      jobId ∉ id <$> torrents →
      knownTorrents (pollTorrents platform s).2 !! jobId = None
      ∧ badge (pollTorrents platform s).2
        = (if (0 <? activeIn torrents)%nat
           then {| text := pretty (activeIn torrents); color := Some BADGE_COLOR |}
           else {| text := ""; color := color (badge s) |})
      ∧ activeIn torrents
        = length (filter (λ torrent, id torrent ≠ jobId ∧ status torrent ∈ ACTIVE_STATUSES)
                    torrents)
  | Client.EmptyObject =>
      (pollTorrents platform s).1 = Ok tt
      ∧ knownTorrents (pollTorrents platform s).2 = knownTorrents s
      ∧ alarms (pollTorrents platform s).2 = alarms s
      ∧ badge (pollTorrents platform s).2 = badge s
      ∧ notifications (pollTorrents platform s).2 = notifications s
  end.
Proof.
  intros Hauth Htoken Hlist. destruct listed as [|torrents].
  - rewrite (pollTorrents_not_iterable platform s s1 token Hauth Htoken Hlist).
    pose proof (getValidToken_frame platform s) as Hframe.
    rewrite Htoken in Hframe. cbn [snd] in Hframe.
    destruct Hframe as (Hknown & Hnotes & Halarms & Hbadge & _).
    cbn [fst snd]. repeat split; assumption.
  - intros Habsent.
    destruct (pollTorrents_prunes_absent_jobs platform s s1 token torrents jobId
                Hauth Htoken Hlist Habsent) as (Hgone & Hbadge & Hcount & _).
    repeat split; assumption.
Qed.
End TickClaims.

Lemma pollTorrents_notifies_completion_once_witness :
  Background.completionsFor "a"
    (Background.notifications
       (Background.pollTorrents Sample.completing Sample.pollingState).2) = 1%nat
  ∧ Background.completionsFor "a"
      (Background.notifications
         (Background.pollTorrents Sample.completing Sample.freshState).2) = 0%nat.
Proof.
  split.
  - destruct (pollTorrents_notifies_completion_once Sample.completing Sample.pollingState
                Sample.pollingState "access-1" [Sample.torrent "a" Background.downloaded] "a")
      as (Honce & _ & _).
    + vm_compute; reflexivity.
    + vm_compute; reflexivity.
    + reflexivity.
    + apply list_elem_of_here.
    + intros torrent ->%list_elem_of_singleton _. reflexivity.
    + rewrite (Honce Background.downloading); [vm_compute; reflexivity | | discriminate].
      vm_compute; reflexivity.
  - destruct (pollTorrents_notifies_completion_once Sample.completing Sample.freshState
                Sample.freshState "access-1" [Sample.torrent "a" Background.downloaded] "a")
      as (_ & Hcold & _).
    + vm_compute; reflexivity.
    + vm_compute; reflexivity.
    + reflexivity.
    + apply list_elem_of_here.
    + intros torrent ->%list_elem_of_singleton _. reflexivity.
    + rewrite Hcold; vm_compute; reflexivity.
Defined.

(** Jobs [a] and [b] were downloading and are listed no longer: when the
    service answers with the empty array both are dropped from the table,
    when it answers 204 without content both stay. *)
Lemma pollTorrents_prunes_array_listings_only_witness :
  Background.knownTorrents Sample.trackingTwo !! "b" = Some Background.downloading
  ∧ Background.knownTorrents
      (Background.pollTorrents (Sample.platform None []) Sample.trackingTwo).2 !! "b" = None
  ∧ Background.knownTorrents
      (Background.pollTorrents TickSamples.noContentListing Sample.trackingTwo).2 !! "b"
    = Some Background.downloading
  ∧ Background.alarms
      (Background.pollTorrents TickSamples.noContentListing Sample.trackingTwo).2
    = Sample.trigger.
Proof.
  split; [vm_compute; reflexivity|]. split.
  - pose proof (pollTorrents_prunes_array_listings_only (Sample.platform None [])
                  Sample.trackingTwo Sample.trackingTwo "access-1" (Client.Parsed []) "b"
                  ltac:(vm_compute; reflexivity) ltac:(vm_compute; reflexivity) eq_refl)
      as Harray.
    cbn beta iota in Harray. apply Harray. apply not_elem_of_nil.
  - pose proof (pollTorrents_prunes_array_listings_only TickSamples.noContentListing
                  Sample.trackingTwo Sample.trackingTwo "access-1" Client.EmptyObject "b"
                  ltac:(vm_compute; reflexivity) ltac:(vm_compute; reflexivity) eq_refl)
      as (_ & Hknown & Halarms & _).
    rewrite Hknown, Halarms. split; vm_compute; reflexivity.
Defined.

(** ** The sliding-window limiter *)

Section LimiterFacts.
Import Client.
Local Open Scope Z_scope.

Lemma filter_filter_weaker {A} (P Q : A → Prop)
    `{!∀ x, Decision (P x)} `{!∀ x, Decision (Q x)} (l : list A) :
  (∀ x, Q x → P x) → filter Q (filter P l) = filter Q l.
Proof.
  intros Himpl. induction l as [|x l IH]; [done|].
  rewrite (filter_cons P). destruct (decide (P x)) as [HP|HP].
  - rewrite !filter_cons. by rewrite IH.
  - rewrite (filter_cons Q), decide_False by (intros HQ; apply HP, Himpl, HQ). done.
Qed.

Lemma length_filter_weaker {A} (P Q : A → Prop)
    `{!∀ x, Decision (P x)} `{!∀ x, Decision (Q x)} (l : list A) :
  (∀ x, x ∈ l → P x → Q x) → (length (filter P l) ≤ length (filter Q l))%nat.
Proof.
  intros Himpl. induction l as [|x l IH]; [done|].
  assert (length (filter P l) ≤ length (filter Q l))%nat as IH'
    by (apply IH; intros y Hy; apply Himpl; by apply list_elem_of_further).
  rewrite !filter_cons.
  destruct (decide (P x)) as [HP|HP].
  - rewrite decide_True by (apply Himpl; [apply list_elem_of_here|done]).
    cbn [length]. lia.
  - destruct (decide (Q x)); cbn [length]; lia.
Qed.

Lemma filter_ext_in {A} (P Q : A → Prop)
    `{!∀ x, Decision (P x)} `{!∀ x, Decision (Q x)} (l : list A) :
  (∀ x, x ∈ l → P x ↔ Q x) → filter P l = filter Q l.
Proof.
  intros Hiff. induction l as [|x l IH]; [done|].
  rewrite !filter_cons.
  assert (filter P l = filter Q l) as ->
    by (apply IH; intros y Hy; apply Hiff; by apply list_elem_of_further).
  destruct (decide (P x)) as [HP|HP].
  - by rewrite decide_True by (apply Hiff; [apply list_elem_of_here|done]).
  - by rewrite decide_False by (intros HQ; apply HP, Hiff; [apply list_elem_of_here|done]).
Qed.

(** The limiter's check: the array it leaves, and the timer it asks for. *)
Lemma waitForRateLimit_spec (now : Z) (requestTimestamps : list Z) :
  let found := filter (λ ts, now - ts < RATE_WINDOW_MS) requestTimestamps in
  (waitForRateLimit now requestTimestamps).2 = found
  ∧ ((waitForRateLimit now requestTimestamps).1 = None ↔ (length found < 250)%nat)
  ∧ (∀ d, (waitForRateLimit now requestTimestamps).1 = Some d →
          (250 ≤ length found)%nat ∧ 100 ≤ d
          ∧ ∀ oldest, head found = Some oldest → 0 < oldest →
                      now + d = oldest + RATE_WINDOW_MS + 100).
Proof.
  intros found. unfold waitForRateLimit, getRateLimitStatus. cbn [remaining resetInMs].
  fold found. unfold RATE_LIMIT.
  destruct (Z.leb_spec (250 - Z.of_nat (length found)) 0) as [Hfull|Hroom];
    cbn [fst snd].
  - split; [done|]. split; [split; [done|lia]|].
    intros d [= <-]. split; [lia|]. split; [lia|].
    intros oldest Hhead Hpos. rewrite Hhead.
    assert (oldest ∈ found) as Hin by (by apply head_Some_elem_of).
    apply list_elem_of_filter in Hin as [Hwin _].
    unfold truthy_number. destruct (Z.eqb_spec oldest 0) as [?|_]; [lia|].
    cbn [negb]. lia.
  - split; [done|]. split; [split; [lia|done]|]. intros d [=].
Qed.

(** What one call of [request] does to the clock and to the array. *)
Lemma request_limiter {T} (options : RequestOptions) (env : RequestEnv T)
    (requestTimestamps : list Z) :
  let waited := (waitForRateLimit (arrival env) requestTimestamps).1 in
  let found := (waitForRateLimit (arrival env) requestTimestamps).2 in
  let now := arrival env + default 0 waited + lateness env in
  suspension (request options env requestTimestamps).1.2 = waited
  ∧ (if sendable options
     then (∃ url init,
             dispatched (request options env requestTimestamps).1.2 = Some (now, url, init))
          ∧ (request options env requestTimestamps).2 = trackRequest now found
     else dispatched (request options env requestTimestamps).1.2 = None
          ∧ (request options env requestTimestamps).2 = found).
Proof.
  intros waited found now. subst waited found now. unfold request, sendable.
  destruct (waitForRateLimit (arrival env) requestTimestamps) as [waited found].
  cbn [fst snd].
  destruct (skipAuth options); [|destruct (token options) as [t|];
    [destruct (truthy_string t)|]]; cbn [orb andb suspension dispatched fst snd];
    try done.
  all: destruct (body options) as [[fd|entries| |]|];
    cbn [suspension dispatched fst snd]; try done.
  all: destruct (fetched env); cbn [suspension dispatched fst snd]; eauto.
Qed.
End LimiterFacts.

Section LimiterInvariant.
Import Client.
Local Open Scope Z_scope.
Context {T : Type}.

Lemma serial_cons (clock : Z) (c : Call T) (rest : list (Call T))
    (requestTimestamps : list Z) :
  let env := {| arrival := clock + gap c; lateness := late c; fetched := outcome c |} in
  let r := request (options c) env requestTimestamps in
  let clock' := arrival env + default 0 (suspension r.1.2) + lateness env in
  serial clock (c :: rest) requestTimestamps
    = (r.1.2 :: (serial clock' rest r.2).1, (serial clock' rest r.2).2).
Proof.
  cbn [serial]. cbn zeta.
  destruct (request _ _ _) as [[out trace] ts1]. cbn [fst snd].
  by destruct (serial _ rest ts1).
Qed.

Lemma dispatchTimes_cons (trace : RequestTrace) (traces : list RequestTrace) :
  dispatchTimes (trace :: traces) = dispatchTimes [trace] ++ dispatchTimes traces.
Proof. unfold dispatchTimes. cbn. by destruct (dispatched trace). Qed.

(** With every recorded time at or before [last], the array's length is a
    trailing-window count. *)
Lemma stored_is_window (last : Z) (history : list Z) :
  Forall (λ d, 0 < d ∧ d ≤ last) history →
  length (filter (λ ts, last - ts < RATE_WINDOW_MS) history)
    = inTrailingWindow last history.
Proof.
  intros Hhist. unfold inTrailingWindow. f_equal. apply filter_ext_in.
  intros d Hd. rewrite Forall_forall in Hhist. specialize (Hhist d Hd). lia.
Qed.

(** One call keeps the invariant. *)
Lemma request_preserves_invariant (clock : Z) (c : Call T)
    (requestTimestamps history : list Z) :
  limiterInvariant clock requestTimestamps history →
  0 ≤ gap c → 0 ≤ late c →
  let env := {| arrival := clock + gap c; lateness := late c; fetched := outcome c |} in
  let r := request (options c) env requestTimestamps in
  let clock' := arrival env + default 0 (suspension r.1.2) + lateness env in
  limiterInvariant clock' r.2 (history ++ dispatchTimes [r.1.2]).
Proof.
  intros (Hclock & last & Hlast & Hhist & Hstored & Hbound) Hgap Hlate env r clock'.
  set (a := clock + gap c).
  pose proof (waitForRateLimit_spec a requestTimestamps) as (Hfound & Hnone & Hsome).
  pose proof (request_limiter (options c) env requestTimestamps) as (Hsusp & Hsend).
  cbn zeta in Hfound, Hnone, Hsome, Hsend. change (arrival env) with a in *.
  change (lateness env) with (late c) in *.
  set (waited := (waitForRateLimit a requestTimestamps).1) in *.
  set (found := (waitForRateLimit a requestTimestamps).2) in *.
  fold r in Hsusp, Hsend.
  rewrite <- Hfound in Hnone, Hsome. clearbody found waited.
  assert (found = filter (λ ts, a - ts < RATE_WINDOW_MS) history) as Hfound'.
  { rewrite Hfound, Hstored. apply filter_filter_weaker. intros d. lia. }
  assert (0 ≤ default 0 waited) as Hw.
  { destruct waited as [d|] eqn:Hwaited; cbn; [|lia].
    destruct (Hsome d eq_refl) as (_ & ? & _). lia. }
  subst clock'. rewrite Hsusp. change (arrival env) with a.
  change (lateness env) with (late c).
  set (now := a + default 0 waited + late c) in *.
  assert (last ≤ a) as Hla by (subst a; lia).
  assert (a ≤ now) as Han by (subst now; lia).
  destruct (sendable (options c)).
  - (* the request is dispatched at [now] *)
    destruct Hsend as [(url & init & Hdisp) Hafter].
    assert (dispatchTimes [r.1.2] = [now]) as ->.
    { unfold dispatchTimes. cbn. by rewrite Hdisp. }
    assert (filter (λ ts, now - ts < RATE_WINDOW_MS) found
              = filter (λ ts, now - ts < RATE_WINDOW_MS) history) as Hnow.
    { rewrite Hfound'. apply filter_filter_weaker. intros d. lia. }
    assert (length (filter (λ ts, (now - ts < RATE_WINDOW_MS)%Z) history) < 250)%nat
      as Hroom.
    { rewrite <- Hnow. destruct waited as [d|] eqn:Hwaited.
      - destruct (Hsome d eq_refl) as (Hfull & _ & Holdest).
        assert (length found ≤ 250)%nat as Hle.
        { rewrite Hfound', (stored_is_window a history); [apply Hbound|].
          eapply Forall_impl; [exact Hhist|]. cbn. intros d0. lia. }
        destruct found as [|oldest found0] eqn:Hf; [cbn in Hfull; lia|].
        assert (oldest ∈ history) as Hin.
        { assert (oldest ∈ oldest :: found0) as Hin0 by apply list_elem_of_here.
          rewrite Hfound' in Hin0. by apply list_elem_of_filter in Hin0 as [_ ?]. }
        rewrite Forall_forall in Hhist. pose proof (Hhist oldest Hin) as [Hpos _].
        specialize (Holdest oldest eq_refl Hpos).
        eapply Nat.lt_le_trans; [|exact Hle].
        apply (length_filter_lt _ _ oldest); [apply list_elem_of_here|].
        subst now. cbn [default from_option id]. lia.
      - eapply Nat.le_lt_trans; [apply length_filter|]. by apply Hnone. }
    split; [lia|]. exists now. split; [lia|]. split; [|split].
    + apply Forall_app. split.
      * eapply Forall_impl; [exact Hhist|]. cbn. intros d. lia.
      * apply Forall_singleton. lia.
    + rewrite Hafter. unfold trackRequest. rewrite Hnow, filter_app. f_equal.
      rewrite filter_cons_True by (unfold RATE_WINDOW_MS; lia). done.
    + intros t. unfold inTrailingWindow. rewrite filter_app, length_app.
      rewrite filter_cons, filter_nil.
      destruct (decide (t - now < RATE_WINDOW_MS ∧ now ≤ t)) as [[_ Hnt]|_];
        cbn [length].
      * assert (length (filter (λ d, (t - d < RATE_WINDOW_MS ∧ d ≤ t)%Z) history)
                  ≤ length (filter (λ ts, (now - ts < RATE_WINDOW_MS)%Z) history))%nat.
        { apply length_filter_weaker. intros d _. lia. }
        lia.
      * specialize (Hbound t). unfold inTrailingWindow in Hbound. lia.
  - (* the request is rejected before it is dispatched *)
    destruct Hsend as [Hdisp Hafter].
    assert (dispatchTimes [r.1.2] = []) as ->.
    { unfold dispatchTimes. cbn. by rewrite Hdisp. }
    rewrite app_nil_r. split; [lia|]. exists a. split; [lia|]. split; [|split].
    + eapply Forall_impl; [exact Hhist|]. cbn. intros d. lia.
    + by rewrite Hafter.
    + exact Hbound.
Qed.

(** A run of calls made one after another keeps the invariant. *)
Lemma serial_preserves_invariant (calls : list (Call T)) :
  ∀ (clock : Z) (requestTimestamps history : list Z),
    limiterInvariant clock requestTimestamps history →
    Forall (λ c, 0 ≤ gap c ∧ 0 ≤ late c) calls →
    ∃ clock',
      limiterInvariant clock' (serial clock calls requestTimestamps).2
        (history ++ dispatchTimes (serial clock calls requestTimestamps).1).
Proof.
  induction calls as [|c rest IH]; intros clock requestTimestamps history Hinv Hcalls.
  - exists clock. cbn. by rewrite app_nil_r.
  - apply Forall_cons in Hcalls as [[Hgap Hlate] Hrest].
    rewrite serial_cons. cbn zeta. cbn [fst snd].
    rewrite dispatchTimes_cons, (assoc_L (++)).
    apply IH; [|exact Hrest].
    by apply request_preserves_invariant.
Qed.

(** The trace of the [i]-th call is that of one [request], on an array
    that holds at most [i] timestamps more than the initial one. *)
Lemma serial_lookup (calls : list (Call T)) :
  ∀ (clock : Z) (requestTimestamps : list Z) (i : nat) (c : Call T) (trace : RequestTrace),
    calls !! i = Some c →
    (serial clock calls requestTimestamps).1 !! i = Some trace →
    ∃ clock_i stored_i,
      (length stored_i ≤ length requestTimestamps + i)%nat
      ∧ trace = (request (options c)
                   {| arrival := clock_i + gap c; lateness := late c;
                      fetched := outcome c |} stored_i).1.2.
Proof.
  induction calls as [|c0 rest IH]; intros clock requestTimestamps i c trace Hc Htrace;
    [done|].
  rewrite serial_cons in Htrace. cbn zeta in Htrace. cbn [fst snd] in Htrace.
  destruct i as [|i].
  - cbn in Hc, Htrace. injection Hc as ->. injection Htrace as <-.
    exists clock, requestTimestamps. split; [lia|done].
  - cbn in Hc, Htrace.
    destruct (IH _ _ i c trace Hc Htrace) as (clock_i & stored_i & Hlen & Heq).
    exists clock_i, stored_i. split; [|done].
    etrans; [exact Hlen|].
    set (env := {| arrival := clock + gap c0; lateness := late c0; fetched := outcome c0 |}).
    pose proof (request_limiter (options c0) env requestTimestamps) as (_ & Hsend).
    pose proof (waitForRateLimit_spec (arrival env) requestTimestamps) as (Hfound & _).
    cbn zeta in Hsend, Hfound.
    assert (length (waitForRateLimit (arrival env) requestTimestamps).2
              ≤ length requestTimestamps)%nat as Hle
      by (rewrite Hfound; apply length_filter).
    destruct (sendable (options c0)).
    + destruct Hsend as [_ ->]. unfold trackRequest. rewrite length_app. cbn [length].
      pose proof (length_filter
        (λ ts, arrival env + default 0 (waitForRateLimit (arrival env) requestTimestamps).1
               + lateness env - ts < RATE_WINDOW_MS)
        (waitForRateLimit (arrival env) requestTimestamps).2). lia.
    + destruct Hsend as [_ ->]. lia.
Qed.

Lemma serial_length (calls : list (Call T)) :
  ∀ (clock : Z) (requestTimestamps : list Z),
    length (serial clock calls requestTimestamps).1 = length calls.
Proof.
  induction calls as [|c rest IH]; intros clock requestTimestamps; [done|].
  rewrite serial_cons. cbn zeta. cbn [fst length]. by rewrite IH.
Qed.
End LimiterInvariant.

Section LimiterClaims.
Import Client.
Local Open Scope Z_scope.

(** C2, as the code has it.  For every sequence of calls through the
    gateway that are made one after another, from an empty array and at
    clock readings after the epoch: the dispatch times that lie within any
    trailing 60-second window never number more than 250, and the array
    never holds more than 250 timestamps.  A call is suspended exactly when
    it finds 250 timestamps or more inside the window; the suspension lasts
    until the oldest of them has left the window and 100 ms more, so never
    less than 100 ms; and the call is then dispatched, not dropped.  The
    first 250 calls are not suspended. *)
Theorem serial_calls_respect_budget {T : Type} (clock : Z) (calls : list (Call T)) :
  0 < clock →
  Forall (λ c, 0 ≤ gap c ∧ 0 ≤ late c) calls →
  let traces := (serial clock calls []).1 in
  let stored := (serial clock calls []).2 in
  (∀ t, (inTrailingWindow t (dispatchTimes traces) ≤ 250)%nat)
  ∧ (length stored ≤ 250)%nat
  ∧ length traces = length calls
  ∧ (∀ (i : nat) (c : Call T) (trace : RequestTrace),
       calls !! i = Some c → traces !! i = Some trace →
       (sendable (options c) = true → is_Some (dispatched trace))
       ∧ (∀ d, suspension trace = Some d → 100 ≤ d)
       ∧ ((i < 250)%nat → suspension trace = None))
  ∧ (∀ (options : RequestOptions) (env : RequestEnv T) (requestTimestamps : list Z),
       let found := filter (λ ts, arrival env - ts < RATE_WINDOW_MS) requestTimestamps in
       let trace := (request options env requestTimestamps).1.2 in
       (is_Some (suspension trace) ↔ (250 ≤ length found)%nat)
       ∧ (∀ d oldest,
            suspension trace = Some d → head found = Some oldest → 0 < oldest →
            arrival env + d = oldest + RATE_WINDOW_MS + 100)
       ∧ (sendable options = true →
          ∃ url init,
            dispatched trace
              = Some (arrival env + default 0 (suspension trace) + lateness env,
                      url, init))).
Proof.
  intros Hclock Hcalls traces stored.
  assert (limiterInvariant clock [] []) as Hinit.
  { split; [done|]. exists clock. split; [lia|]. split; [constructor|].
    split; [done|]. intros t. cbn. lia. }
  destruct (serial_preserves_invariant calls clock [] [] Hinit Hcalls)
    as (clock' & _ & last & _ & Hhist & Hstored & Hbound).
  rewrite app_nil_l in Hhist, Hstored, Hbound. fold traces stored in Hhist, Hstored, Hbound.
  split; [exact Hbound|]. split.
  { rewrite Hstored, (stored_is_window last _ Hhist). apply Hbound. }
  split; [apply serial_length|]. split.
  - intros i c trace Hc Htrace.
    destruct (serial_lookup calls clock [] i c trace Hc Htrace)
      as (clock_i & stored_i & Hlen & ->).
    set (env := {| arrival := clock_i + gap c; lateness := late c; fetched := outcome c |}).
    pose proof (request_limiter (options c) env stored_i) as (Hsusp & Hsend).
    pose proof (waitForRateLimit_spec (arrival env) stored_i) as (Hfound & Hnone & Hsome).
    cbn zeta in Hsend, Hfound, Hnone, Hsome. rewrite Hsusp.
    split; [|split].
    + intros Hsendable. rewrite Hsendable in Hsend.
      destruct Hsend as [(url & init & ->) _]. eauto.
    + intros d Hd. by destruct (Hsome d Hd) as (_ & ? & _).
    + intros Hi. apply Hnone.
      eapply Nat.le_lt_trans; [apply length_filter|]. cbn [length] in Hlen. lia.
  - intros options env requestTimestamps found trace. subst trace.
    pose proof (request_limiter options env requestTimestamps) as (Hsusp & Hsend).
    pose proof (waitForRateLimit_spec (arrival env) requestTimestamps)
      as (Hfound & Hnone & Hsome).
    cbn zeta in Hsend, Hfound, Hnone, Hsome. fold found in Hnone, Hsome.
    rewrite Hsusp. split; [|split].
    + split.
      * intros [d Hd]. by destruct (Hsome d Hd) as (? & _).
      * intros Hfull.
        destruct (waitForRateLimit (arrival env) requestTimestamps).1 as [d|] eqn:Hw;
          [eauto|].
        assert (length found < 250)%nat by (by apply Hnone). lia.
    + intros d oldest Hd Hhead Hpos. destruct (Hsome d Hd) as (_ & _ & Holdest).
      by apply Holdest.
    + intros Hsendable. rewrite Hsendable in Hsend. by destruct Hsend as [? _].
Qed.

Lemma serial_calls_respect_budget_witness :
  (inTrailingWindow 61100 (dispatchTimes (serial 1000 (Sample.burst 300) []).1) ≤ 250)%nat
  ∧ (length (serial 1000 (Sample.burst 300) []).2 ≤ 250)%nat.
Proof.
  destruct (serial_calls_respect_budget 1000 (Sample.burst 300)) as (Hwindow & Hstored & _).
  - lia.
  - apply Forall_replicate. cbn. lia.
  - split; [apply (Hwindow 61100) | exact Hstored].
Defined.

(** C2, as the claim has it, fails: in a burst of [N = 300] calls the
    call number [N - 250 = 50] is not suspended, nor is the last one; the
    only call that waits is number 251, for 60 seconds and 100 ms. *)
Lemma burst_suspends_one_call_only :
  (suspension <$> (serial 1000 (Sample.burst 300) []).1) !! 49%nat = Some None
  ∧ (suspension <$> (serial 1000 (Sample.burst 300) []).1) !! 250%nat = Some (Some 60100)
  ∧ (suspension <$> (serial 1000 (Sample.burst 300) []).1) !! 299%nat = Some None
  ∧ length (filter (λ waited, is_Some waited)
              (suspension <$> (serial 1000 (Sample.burst 300) []).1)) = 1%nat.
Proof. repeat split; vm_compute; reflexivity. Qed.

(** Calls that overlap are another matter: when 251 calls are made in the
    same turn, every one passes the check before any is recorded, and 251
    timestamps end up inside one window; and when they find the window
    full, all of them wait for the same timer and are recorded together. *)
Lemma overlapping_calls_exceed_budget :
  inTrailingWindow 1000 (overlapping 1000 251 []) = 251%nat
  ∧ inTrailingWindow 61100
      (overlapping 2000 251 (serial 1000 (Sample.burst 250) []).2) = 251%nat.
Proof. split; vm_compute; reflexivity. Qed.
End LimiterClaims.


(** * Further properties of the gateway *)

Section GatewayMore.
Import Client.
Local Open Scope Z_scope.
Context {T : Type}.

(** A call that needs a token and has none (or an empty one) fails with the
    401 error of the client itself: nothing is fetched and no timestamp is
    recorded, but the limiter's check, and its wait, have taken place. *)
Theorem request_without_token_fails_fast (options : RequestOptions) (env : RequestEnv T)
    (requestTimestamps : list Z) :
  skipAuth options = false →
  token options = None ∨ token options = Some "" →
  request options env requestTimestamps
    = (Throw (RealDebridApiError "Authorization token is required" 401 None),
       {| suspension := (waitForRateLimit (arrival env) requestTimestamps).1;
          dispatched := None |},
       filter (λ ts, arrival env - ts < RATE_WINDOW_MS) requestTimestamps).
Proof.
  intros Hskip Htoken. unfold request.
  pose proof (waitForRateLimit_spec (arrival env) requestTimestamps) as (Hfound & _).
  cbn zeta in Hfound.
  destruct (waitForRateLimit (arrival env) requestTimestamps) as [waited found].
  cbn [fst snd] in *. subst found. rewrite Hskip.
  by destruct Htoken as [-> | ->].
Qed.

(** The limiter's wait is bounded: with no recorded timestamp in the
    future, a suspension lasts at least 100 ms and at most the window and
    100 ms. *)
Theorem request_suspension_bounded (options : RequestOptions) (env : RequestEnv T)
    (requestTimestamps : list Z) (d : Z) :
  Forall (λ ts, ts ≤ arrival env) requestTimestamps →
  suspension (request options env requestTimestamps).1.2 = Some d →
  100 ≤ d ≤ RATE_WINDOW_MS + 100.
Proof.
  intros Hpast.
  pose proof (request_limiter options env requestTimestamps) as (-> & _).
  unfold waitForRateLimit, getRateLimitStatus. cbn [remaining resetInMs].
  set (found := filter (λ ts, arrival env - ts < RATE_WINDOW_MS) requestTimestamps).
  destruct (_ <=? 0); cbn [fst]; [|discriminate]. intros [= <-].
  destruct (head found) as [oldest|] eqn:Hhead; [|unfold RATE_WINDOW_MS; lia].
  assert (oldest ∈ requestTimestamps) as Hin.
  { apply head_Some_elem_of in Hhead. by apply list_elem_of_filter in Hhead as [_ ?]. }
  rewrite Forall_forall in Hpast. specialize (Hpast oldest Hin). cbn in Hpast.
  destruct (truthy_number oldest); unfold RATE_WINDOW_MS in *; lia.
Qed.

End GatewayMore.

Lemma request_without_token_fails_fast_witness :
  Client.request (Api.getUser "") (Sample.answered Sample.noContent) [500; 900]%Z
    = (Throw (RealDebridApiError "Authorization token is required" 401 None),
       {| Client.suspension := None; Client.dispatched := None |}, [500; 900]%Z).
Proof.
  rewrite (request_without_token_fails_fast (Api.getUser "")
             (Sample.answered Sample.noContent) [500; 900]%Z).
  - vm_compute; reflexivity.
  - reflexivity.
  - by right.
Defined.

Lemma request_suspension_bounded_witness :
  Client.suspension
    (Client.request Sample.userRequest
       {| Client.arrival := 1500; Client.lateness := 0;
          Client.fetched := Client.Responded Sample.noContent |}
       (Client.serial 1000 (Sample.burst 250) []).2).1.2 = Some 59600%Z
  ∧ (100 ≤ 59600 ≤ Client.RATE_WINDOW_MS + 100)%Z.
Proof.
  split; [vm_compute; reflexivity|].
  apply (request_suspension_bounded Sample.userRequest
           {| Client.arrival := 1500; Client.lateness := 0;
              Client.fetched := Client.Responded Sample.noContent |}
           (Client.serial 1000 (Sample.burst 250) []).2).
  - vm_compute. repeat constructor; discriminate.
  - vm_compute; reflexivity.
Defined.

Section GatewayAccounting.
Import Client.
Local Open Scope Z_scope.
Context {T : Type}.

Lemma filter_window_trackRequest (now : Z) (requestTimestamps : list Z) :
  filter (λ ts, now - ts < RATE_WINDOW_MS) (trackRequest now requestTimestamps)
    = trackRequest now requestTimestamps.
Proof.
  unfold trackRequest. rewrite filter_app.
  rewrite (filter_filter_weaker _ _ requestTimestamps) by done.
  by rewrite filter_cons_True by (unfold RATE_WINDOW_MS; lia).
Qed.

(** Recording a request uses up exactly one unit of the budget that
    [getRateLimitStatus] reports at the same clock reading, and everything
    that stays recorded lies inside the window. *)
Theorem trackRequest_uses_one_unit (now : Z) (requestTimestamps : list Z) :
  remaining (getRateLimitStatus now (trackRequest now requestTimestamps)).1
    = remaining (getRateLimitStatus now requestTimestamps).1 - 1
  ∧ (getRateLimitStatus now (trackRequest now requestTimestamps)).2
    = trackRequest now requestTimestamps
  ∧ Forall (λ ts, now - ts < RATE_WINDOW_MS) (trackRequest now requestTimestamps)
  ∧ last (trackRequest now requestTimestamps) = Some now.
Proof.
  unfold getRateLimitStatus. cbn [remaining fst snd].
  rewrite filter_window_trackRequest. split; [|split; [done|split]].
  - unfold trackRequest. rewrite length_app. cbn [length]. lia.
  - rewrite <- filter_window_trackRequest. apply Forall_forall.
    intros ts Hts. by apply list_elem_of_filter in Hts as [? _].
  - unfold trackRequest. by rewrite last_snoc.
Qed.

(** A request is counted before it is fetched: when [fetch] itself rejects,
    the rejection is passed on as it is, and the timestamp of the attempt
    stays recorded. *)
Theorem request_counts_failed_fetch (options : RequestOptions) (env : RequestEnv T)
    (requestTimestamps : list Z) (e : JsError) :
  sendable options = true →
  fetched env = NetworkFailure e →
  let found := filter (λ ts, arrival env - ts < RATE_WINDOW_MS) requestTimestamps in
  let now := arrival env
             + default 0 (waitForRateLimit (arrival env) requestTimestamps).1
             + lateness env in
  (request options env requestTimestamps).1.1 = Throw e
  ∧ (request options env requestTimestamps).2 = trackRequest now found
  ∧ last (request options env requestTimestamps).2 = Some now
  ∧ remaining (getRateLimitStatus now (request options env requestTimestamps).2).1
    = remaining (getRateLimitStatus now found).1 - 1.
Proof.
  intros Hsendable Hfetched found now.
  pose proof (request_limiter options env requestTimestamps) as (_ & Hsend).
  pose proof (waitForRateLimit_spec (arrival env) requestTimestamps) as (Hfound & _).
  cbn zeta in Hsend, Hfound. rewrite Hsendable in Hsend.
  destruct Hsend as [_ Hafter]. rewrite Hfound in Hafter. fold found now in Hafter.
  rewrite Hafter.
  destruct (trackRequest_uses_one_unit now found) as (Hone & _ & _ & Hlast).
  split; [|done].
  unfold request, sendable in *.
  destruct (waitForRateLimit _ _) as [waited ts].
  destruct (skipAuth options); [|destruct (token options) as [t|];
    [destruct (truthy_string t)|]]; cbn [orb andb fst snd] in *; try discriminate.
  all: destruct (body options) as [[fd|entries| |]|]; cbn [fst snd] in *;
    try discriminate; by rewrite Hfetched.
Qed.

(** The endpoints of lib/api/hosts.ts need no credential: whatever the
    state of the limiter, the request is sent, with no [Authorization]
    header and no body. *)
Theorem hosts_endpoints_need_no_token (env : RequestEnv T) (requestTimestamps : list Z) :
  let now := arrival env
             + default 0 (waitForRateLimit (arrival env) requestTimestamps).1
             + lateness env in
  dispatched (request Api.getHostsRegex env requestTimestamps).1.2
    = Some (now, BASE_URL +:+ "/hosts/regex",
            {| init_method := GET; init_headers := ∅; init_body := None |})
  ∧ dispatched (request Api.getHostsDomains env requestTimestamps).1.2
    = Some (now, BASE_URL +:+ "/hosts/domains",
            {| init_method := GET; init_headers := ∅; init_body := None |})
  ∧ dispatched (request Api.getHosts env requestTimestamps).1.2
    = Some (now, BASE_URL +:+ "/hosts",
            {| init_method := GET; init_headers := ∅; init_body := None |}).
Proof.
  intros now. subst now. unfold request.
  destruct (waitForRateLimit (arrival env) requestTimestamps) as [waited found].
  cbn [Api.getHostsRegex Api.getHostsDomains Api.getHosts Api.get skipAuth body
       method path fst snd].
  by destruct (fetched env).
Qed.

(** A file upload goes out as the [FormData] it is, and the client sets no
    [Content-Type] for it: the only header is the bearer token. *)
Theorem upload_keeps_form_data (token : string) (formData : FormData)
    (env : RequestEnv T) (requestTimestamps : list Z) :
  token ≠ "" →
  ∃ now,
    dispatched (request (Api.addTorrent token formData) env requestTimestamps).1.2
      = Some (now, BASE_URL +:+ "/torrents/addTorrent",
              {| init_method := PUT;
                 init_headers := {[ "Authorization" := "Bearer " +:+ token ]};
                 init_body := Some (SentFormData formData) |})
    ∧ dispatched
        (request (Api.decryptContainerFile token formData) env requestTimestamps).1.2
      = Some (now, BASE_URL +:+ "/unrestrict/containerFile",
              {| init_method := PUT;
                 init_headers := {[ "Authorization" := "Bearer " +:+ token ]};
                 init_body := Some (SentFormData formData) |}).
Proof.
  intros Htoken.
  assert (truthy_string token = true) as Htruthy.
  { unfold truthy_string. by destruct (String.eqb_spec token ""). }
  exists (arrival env + default 0 (waitForRateLimit (arrival env) requestTimestamps).1
          + lateness env).
  unfold request.
  destruct (waitForRateLimit (arrival env) requestTimestamps) as [waited found].
  cbn [Api.addTorrent Api.decryptContainerFile Api.put skipAuth body method path
       Client.token fst snd].
  rewrite Htruthy. destruct (fetched env); cbn [fst snd dispatched]; split; reflexivity.
Qed.

(** The body of an unrestrict call as the UNRESTRICT_LINK handler builds
    it: the link, the password if the payload has one (an empty one
    included), and [remote=1] if the payload asks for it; nothing else. *)
Theorem unrestrict_link_sends_given_fields (token link : string)
    (password : option string) (remote : bool)
    (env : RequestEnv T) (requestTimestamps : list Z)
    (now : Z) (url : string) (init : RequestInit) :
  dispatched
    (request (Api.unrestrictLink token (Api.unrestrictPayload link password remote))
       env requestTimestamps).1.2 = Some (now, url, init) →
  url = BASE_URL +:+ "/unrestrict/link"
  ∧ init_method init = POST
  ∧ init_body init
    = Some (SentUrlEncoded
              ([("link", link)]
               ++ match password with Some p => [("password", p)] | None => [] end
               ++ if remote then [("remote", "1")] else [])).
Proof.
  intros Hsent.
  destruct (request_sends_encoded_entries
              (Api.unrestrictLink token (Api.unrestrictPayload link password remote))
              env requestTimestamps
              [("link", JsString link);
               ("password", Api.password (Api.unrestrictPayload link password remote));
               ("remote", Api.remote (Api.unrestrictPayload link password remote))]
              now url init eq_refl Hsent) as (-> & _ & -> & ->).
  split; [done|]. split; [done|].
  by destruct password, remote.
Qed.
End GatewayAccounting.

Lemma request_counts_failed_fetch_witness :
  Client.request Sample.userRequest
    {| Client.arrival := 1000; Client.lateness := 5;
       Client.fetched := Client.NetworkFailure (Error "Failed to fetch") |} [400]%Z
  = (@Throw (Client.ResponseValue unit) (Error "Failed to fetch"),
     (Client.request Sample.userRequest
        {| Client.arrival := 1000; Client.lateness := 5;
           Client.fetched :=
             @Client.NetworkFailure unit (Error "Failed to fetch") |} [400]%Z).1.2,
     [400; 1005]%Z).
Proof.
  destruct (request_counts_failed_fetch Sample.userRequest
              {| Client.arrival := 1000; Client.lateness := 5;
                 Client.fetched := @Client.NetworkFailure unit (Error "Failed to fetch") |}
              [400]%Z (Error "Failed to fetch")) as (Hout & Hts & _).
  - reflexivity.
  - reflexivity.
  - rewrite (surjective_pairing (Client.request _ _ _)).
    rewrite (surjective_pairing (Client.request _ _ _).1).
    rewrite Hout, Hts. vm_compute; reflexivity.
Defined.

Lemma upload_keeps_form_data_witness :
  ∃ now,
    Client.dispatched
      (Client.request
         (Api.addTorrent "access-1" {| Client.parts := [("file", "torrent.torrent")] |})
         (Sample.answered Sample.noContent) []).1.2
    = Some (now, Client.BASE_URL +:+ "/torrents/addTorrent",
            {| Client.init_method := Client.PUT;
               Client.init_headers := {[ "Authorization" := "Bearer access-1" ]};
               Client.init_body :=
                 Some (Client.SentFormData
                         {| Client.parts := [("file", "torrent.torrent")] |}) |}).
Proof.
  destruct (upload_keeps_form_data "access-1"
              {| Client.parts := [("file", "torrent.torrent")] |}
              (Sample.answered Sample.noContent) []) as (now & Hsent & _).
  - discriminate.
  - exists now. exact Hsent.
Defined.

Lemma unrestrict_link_sends_given_fields_witness :
  ∃ init,
    Client.dispatched
      (Client.request
         (Api.unrestrictLink "access-1"
            (Api.unrestrictPayload "https://hoster.example/file123" (Some "") false))
         (Sample.answered Sample.noContent) []).1.2
    = Some (1000%Z, Client.BASE_URL +:+ "/unrestrict/link", init)
    ∧ Client.init_body init
      = Some (Client.SentUrlEncoded
                [("link", "https://hoster.example/file123"); ("password", "")]).
Proof.
  eexists. split; [vm_compute; reflexivity|].
  edestruct (unrestrict_link_sends_given_fields "access-1"
               "https://hoster.example/file123" (Some ""%string) false
               (Sample.answered Sample.noContent) []) as (_ & _ & Hbody).
  - vm_compute; reflexivity.
  - exact Hbody.
Defined.

(** * Further properties of the token lifecycle and of the device-code flow *)

Section AuthMore.
Import AuthFlow.
Local Open Scope Z_scope.

(** Expiry never heals: a credential that is expired at one clock reading
    is expired at every later one, and it is expired from the very
    millisecond of its [expiresAt]. *)
Theorem isTokenExpired_monotone (authData : Auth.AuthData) (now later : Z) :
  now ≤ later →
  Auth.isTokenExpired now authData = true →
  Auth.isTokenExpired later authData = true
  ∧ ∃ expiry, Auth.expiresAt authData = Some expiry ∧ expiry ≠ 0
              ∧ Auth.isTokenExpired expiry authData = true
              ∧ Auth.isTokenExpired (expiry - 1) authData = false.
Proof.
  unfold Auth.isTokenExpired, truthy_number. intros Hle.
  destruct (Auth.expiresAt authData) as [expiry|]; [|discriminate].
  destruct (Z.eqb_spec expiry 0) as [->|Hnz]; [discriminate|]. cbn [negb orb].
  intros Hexp. split; [lia|]. exists expiry. repeat split; [done|lia|lia].
Qed.




End AuthMore.

Lemma isTokenExpired_monotone_witness :
  Auth.isTokenExpired 1500 (Sample.credential (Some 1500%Z)) = true
  ∧ Auth.isTokenExpired 2000 (Sample.credential (Some 1500%Z)) = true.
Proof.
  split; [reflexivity|].
  apply (isTokenExpired_monotone (Sample.credential (Some 1500%Z)) 1500 2000);
    [lia | reflexivity].
Defined.



(** ** lib/auth.ts: the polling loop of the device flow *)

Section DeviceFlow.
Import AuthFlow.
Local Open Scope Z_scope.

(** The flow as the loop may leave it: only [clientCredentials] differs. *)
Lemma pollForCredentials_turn (flow : OAuthFlow) (turn : Turn) (rest : list Turn)
    (polls : nat) (code : string) (expiry : Z) :
  cancelled flow = false → deviceCode flow = Some code → code ≠ "" →
  expiresAt flow = Some expiry → expiry ≠ 0 →
  transient turn = true → now turn < expiry →
  ∃ credentials,
    pollForCredentials flow (turn :: rest) polls
    = pollForCredentials
        (let flow := {| deviceCode := deviceCode flow;
                        pollingInterval := pollingInterval flow;
                        expiresAt := expiresAt flow;
                        cancelled := cancelled flow;
                        clientCredentials := credentials |} in
         if cancelledWhileAsleep turn then cancel flow else flow)
        rest (S polls).
Proof.
  intros Hrun Hcode Hne Hexp Hnz Htransient Hnow.
  cbn [pollForCredentials]. rewrite Hrun, Hcode, Hexp.
  assert (truthy_string code = true) as ->.
  { unfold truthy_string. apply negb_true_iff, String.eqb_neq. exact Hne. }
  assert (truthy_number expiry = true) as ->.
  { unfold truthy_number. apply negb_true_iff, Z.eqb_neq. exact Hnz. }
  cbn [negb andb default from_option id].
  assert ((expiry <=? now turn) = false) as -> by (apply Z.leb_gt; exact Hnow).
  unfold transient in Htransient.
  destruct flow as [dc pi ea c cc]. cbn in Hrun, Hcode, Hexp. subst.
  destruct (polled turn) as [[credentials|]|e].
  - destruct (exchanged turn) as [tokenResponse|e]; [discriminate|].
    exists (Some credentials). destruct e as [m|m st cd|m cd]; try reflexivity.
    cbn in Htransient. apply bool_decide_eq_true in Htransient.
    rewrite bool_decide_eq_false_2 by (intros Hcd; by apply Hcd). reflexivity.
  - exists cc. reflexivity.
  - exists cc. destruct e as [m|m st cd|m cd]; try reflexivity.
    cbn in Htransient. apply bool_decide_eq_true in Htransient.
    rewrite bool_decide_eq_false_2 by (intros Hcd; by apply Hcd). reflexivity.
Qed.

(** Turns that neither end the loop nor cancel it are polled one by one. *)
Lemma pollForCredentials_transient_turns (turns : list Turn) (code : string) (expiry : Z) :
  ∀ (flow : OAuthFlow) (polls : nat) (rest : list Turn),
    cancelled flow = false → deviceCode flow = Some code → code ≠ "" →
    expiresAt flow = Some expiry → expiry ≠ 0 →
    Forall (λ turn, transient turn = true ∧ now turn < expiry
                    ∧ cancelledWhileAsleep turn = false) turns →
    ∃ credentials,
      pollForCredentials flow (turns ++ rest) polls
      = pollForCredentials
          {| deviceCode := Some code; pollingInterval := pollingInterval flow;
             expiresAt := Some expiry; cancelled := false;
             clientCredentials := credentials |}
          rest (polls + length turns).
Proof.
  induction turns as [|turn turns IH]; intros flow polls rest Hrun Hcode Hne Hexp Hnz Hall.
  - exists (clientCredentials flow). cbn [app length]. rewrite Nat.add_0_r.
    destruct flow; cbn in *; by subst.
  - apply Forall_cons in Hall as [(Htransient & Hnow & Hawake) Hall].
    destruct (pollForCredentials_turn flow turn (turns ++ rest) polls code expiry
                Hrun Hcode Hne Hexp Hnz Htransient Hnow) as [credentials Hturn].
    cbn [app]. rewrite Hturn, Hawake. cbn zeta.
    destruct (IH {| deviceCode := deviceCode flow; pollingInterval := pollingInterval flow;
                    expiresAt := expiresAt flow; cancelled := cancelled flow;
                    clientCredentials := credentials |} (S polls) rest)
      as [credentials' ->]; try done.
    exists credentials'. cbn [length pollingInterval]. f_equal. lia.
Qed.

(** While every turn fails in a way the loop lets pass (nothing yet,
    "authorization_pending", a network failure, a body that is not JSON),
    the code has not expired and nobody cancels, the flow calls neither
    callback: it is still polling, with one poll per turn. *)
Theorem pollForCredentials_transient_failures_keep_polling (flow : OAuthFlow)
    (turns : list Turn) (polls : nat) (code : string) (expiry : Z) :
  cancelled flow = false → deviceCode flow = Some code → code ≠ "" →
  expiresAt flow = Some expiry → expiry ≠ 0 →
  Forall (λ turn, transient turn = true ∧ now turn < expiry
                  ∧ cancelledWhileAsleep turn = false) turns →
  (pollForCredentials flow turns polls).1.1 = None
  ∧ (pollForCredentials flow turns polls).2 = (polls + length turns)%nat
  ∧ deviceCode (pollForCredentials flow turns polls).1.2 = Some code
  ∧ cancelled (pollForCredentials flow turns polls).1.2 = false.
Proof.
  intros Hrun Hcode Hne Hexp Hnz Hall.
  destruct (pollForCredentials_transient_turns turns code expiry flow polls []
              Hrun Hcode Hne Hexp Hnz Hall) as [credentials Hturns].
  rewrite app_nil_r in Hturns. rewrite Hturns. cbn [pollForCredentials cancelled deviceCode expiresAt].
  assert (truthy_string code = true) as ->.
  { unfold truthy_string. apply negb_true_iff, String.eqb_neq. exact Hne. }
  assert (truthy_number expiry = true) as ->.
  { unfold truthy_number. apply negb_true_iff, Z.eqb_neq. exact Hnz. }
  done.
Qed.

(** Once the clock has reached the expiry of the device code, the next
    turn reports "Device code expired" without polling again, whatever the
    service would have answered. *)
Theorem pollForCredentials_reports_expiry (flow : OAuthFlow)
    (turns : list Turn) (late : Turn) (rest : list Turn) (polls : nat)
    (code : string) (expiry : Z) :
  cancelled flow = false → deviceCode flow = Some code → code ≠ "" →
  expiresAt flow = Some expiry → expiry ≠ 0 →
  Forall (λ turn, transient turn = true ∧ now turn < expiry
                  ∧ cancelledWhileAsleep turn = false) turns →
  expiry ≤ now late →
  (pollForCredentials flow (turns ++ late :: rest) polls).1.1
    = Some (OnError (OAuthError "Device code expired" (Some "expired_token")))
  ∧ (pollForCredentials flow (turns ++ late :: rest) polls).2 = (polls + length turns)%nat.
Proof.
  intros Hrun Hcode Hne Hexp Hnz Hall Hlate.
  destruct (pollForCredentials_transient_turns turns code expiry flow polls (late :: rest)
              Hrun Hcode Hne Hexp Hnz Hall) as [credentials ->].
  cbn [pollForCredentials cancelled deviceCode expiresAt].
  assert (truthy_string code = true) as ->.
  { unfold truthy_string. apply negb_true_iff, String.eqb_neq. exact Hne. }
  assert (truthy_number expiry = true) as ->.
  { unfold truthy_number. apply negb_true_iff, Z.eqb_neq. exact Hnz. }
  cbn [negb andb default from_option id].
  assert ((expiry <=? now late) = true) as -> by (apply Z.leb_le; exact Hlate).
  done.
Qed.

(** A call of [cancel()] while the loop sleeps ends the flow without any
    callback: the turns that would have followed are never polled, even if
    the user has authorized by then. *)
Theorem pollForCredentials_cancel_ends_silently (flow : OAuthFlow)
    (turns : list Turn) (last : Turn) (rest : list Turn) (polls : nat)
    (code : string) (expiry : Z) :
  cancelled flow = false → deviceCode flow = Some code → code ≠ "" →
  expiresAt flow = Some expiry → expiry ≠ 0 →
  Forall (λ turn, transient turn = true ∧ now turn < expiry
                  ∧ cancelledWhileAsleep turn = false) turns →
  transient last = true → now last < expiry → cancelledWhileAsleep last = true →
  (pollForCredentials flow (turns ++ last :: rest) polls).1.1 = Some LeftSilently
  ∧ (pollForCredentials flow (turns ++ last :: rest) polls).2 = S (polls + length turns)
  ∧ deviceCode (pollForCredentials flow (turns ++ last :: rest) polls).1.2 = None
  ∧ clientCredentials (pollForCredentials flow (turns ++ last :: rest) polls).1.2 = None.
Proof.
  intros Hrun Hcode Hne Hexp Hnz Hall Htransient Hnow Hcancel.
  destruct (pollForCredentials_transient_turns turns code expiry flow polls (last :: rest)
              Hrun Hcode Hne Hexp Hnz Hall) as [credentials ->].
  destruct (pollForCredentials_turn
              {| deviceCode := Some code; pollingInterval := pollingInterval flow;
                 expiresAt := Some expiry; cancelled := false;
                 clientCredentials := credentials |}
              last rest (polls + length turns) code expiry)
    as [credentials' ->]; try done.
  rewrite Hcancel. cbn zeta. destruct rest; done.
Qed.

(** [onSuccess] is only ever called in a turn that began before the expiry
    of the device code and in which both calls resolved; the credential it
    hands over joins the token of that turn with the client credentials of
    that turn, and expires [expires_in] seconds after the token arrived. *)
Theorem pollForCredentials_success_is_timely (turns : list Turn) :
  ∀ (flow flow' : OAuthFlow) (polls n : nat) (authData : Auth.AuthData),
    pollForCredentials flow turns polls = (Some (OnSuccess authData), flow', n) →
    ∃ turn credentials tokenResponse expiry,
      turn ∈ turns
      ∧ expiresAt flow = Some expiry ∧ now turn < expiry
      ∧ polled turn = Ok (Some credentials)
      ∧ exchanged turn = Ok tokenResponse
      ∧ authData = {| Auth.accessToken := Auth.access_token tokenResponse;
                      Auth.refreshToken := Auth.refresh_token tokenResponse;
                      Auth.clientId := client_id credentials;
                      Auth.clientSecret := client_secret credentials;
                      Auth.expiresAt :=
                        Some (nowOnSuccess turn + Auth.expires_in tokenResponse * 1000) |}
      ∧ clientCredentials flow' = Some credentials
      ∧ (polls < n ≤ polls + length turns)%nat.
Proof.
  induction turns as [|turn turns IH]; intros flow flow' polls n authData Hrun.
  { cbn in Hrun. repeat case_match; discriminate. }
  cbn [pollForCredentials] in Hrun.
  destruct (negb _) eqn:Hcond in Hrun; [discriminate|].
  destruct (expiresAt flow) as [expiry|] eqn:Hexp;
    [|rewrite andb_false_r in Hcond; discriminate].
  cbn [default from_option id] in Hrun.
  destruct (expiry <=? now turn) eqn:Hnow; [discriminate|]. apply Z.leb_gt in Hnow.
  assert (∀ flow1, expiresAt flow1 = Some expiry →
            pollForCredentials (if cancelledWhileAsleep turn then cancel flow1 else flow1)
              turns (S polls) = (Some (OnSuccess authData), flow', n) →
            ∃ turn0 credentials tokenResponse expiry0,
              turn0 ∈ turn :: turns
              ∧ Some expiry = Some expiry0 ∧ now turn0 < expiry0
              ∧ polled turn0 = Ok (Some credentials)
              ∧ exchanged turn0 = Ok tokenResponse
              ∧ authData = {| Auth.accessToken := Auth.access_token tokenResponse;
                      Auth.refreshToken := Auth.refresh_token tokenResponse;
                      Auth.clientId := client_id credentials;
                      Auth.clientSecret := client_secret credentials;
                      Auth.expiresAt :=
                        Some (nowOnSuccess turn0 + Auth.expires_in tokenResponse * 1000) |}
              ∧ clientCredentials flow' = Some credentials
              ∧ (polls < n ≤ polls + length (turn :: turns))%nat) as Hasleep.
  { intros flow1 Hexp1 Hrest.
    apply IH in Hrest as (turn0 & credentials & tokenResponse & expiry0 & Hin & Hexp0 & Hrest).
    exists turn0, credentials, tokenResponse, expiry0.
    split; [by apply list_elem_of_further|].
    split; [rewrite <- Hexp0, <- Hexp1; by destruct (cancelledWhileAsleep turn)|].
    destruct Hrest as (? & ? & ? & ? & ? & ?). cbn [length]. repeat split; try done; lia. }
  destruct (polled turn) as [[credentials|]|e] eqn:Hpolled.
  - destruct (exchanged turn) as [tokenResponse|e] eqn:Hexchanged.
    + injection Hrun as <- <- <-.
      exists turn, credentials, tokenResponse, expiry.
      split; [apply list_elem_of_here|]. cbn [length clientCredentials].
      repeat split; try done; lia.
    + destruct e as [m|m st cd|m cd]; try (by eapply Hasleep; [|exact Hrun]).
      destruct (bool_decide _) in Hrun; [discriminate|].
      by eapply Hasleep; [|exact Hrun].
  - by eapply Hasleep; [|exact Hrun].
  - destruct e as [m|m st cd|m cd]; try (by eapply Hasleep; [|exact Hrun]).
    destruct (bool_decide _) in Hrun; [discriminate|].
    by eapply Hasleep; [|exact Hrun].
Qed.
End DeviceFlow.

Lemma pollForCredentials_transient_failures_keep_polling_witness :
  (AuthFlow.pollForCredentials MoreSamples.pendingFlow
     [MoreSamples.offline 1000; MoreSamples.waiting 6000 false] 0).1.1 = None
  ∧ (AuthFlow.pollForCredentials MoreSamples.pendingFlow
       [MoreSamples.offline 1000; MoreSamples.waiting 6000 false] 0).2 = (0 + 2)%nat
  ∧ AuthFlow.deviceCode
      (AuthFlow.pollForCredentials MoreSamples.pendingFlow
         [MoreSamples.offline 1000; MoreSamples.waiting 6000 false] 0).1.2 = Some "DEVICE"
  ∧ AuthFlow.cancelled
      (AuthFlow.pollForCredentials MoreSamples.pendingFlow
         [MoreSamples.offline 1000; MoreSamples.waiting 6000 false] 0).1.2 = false.
Proof.
  apply (pollForCredentials_transient_failures_keep_polling MoreSamples.pendingFlow
           [MoreSamples.offline 1000; MoreSamples.waiting 6000 false] 0 "DEVICE" 600000).
  - reflexivity.
  - reflexivity.
  - discriminate.
  - reflexivity.
  - discriminate.
  - repeat constructor.
Defined.

Lemma pollForCredentials_reports_expiry_witness :
  (AuthFlow.pollForCredentials MoreSamples.pendingFlow
     ([MoreSamples.waiting 1000 false] ++ MoreSamples.authorized 600000 :: []) 0).1.1
  = Some (AuthFlow.OnError (OAuthError "Device code expired" (Some "expired_token")))
  ∧ (AuthFlow.pollForCredentials MoreSamples.pendingFlow
       ([MoreSamples.waiting 1000 false] ++ MoreSamples.authorized 600000 :: []) 0).2
    = (0 + 1)%nat.
Proof.
  apply (pollForCredentials_reports_expiry MoreSamples.pendingFlow
           [MoreSamples.waiting 1000 false] (MoreSamples.authorized 600000) [] 0
           "DEVICE" 600000).
  - reflexivity.
  - reflexivity.
  - discriminate.
  - reflexivity.
  - discriminate.
  - repeat constructor.
  - cbn. lia.
Defined.

Lemma pollForCredentials_cancel_ends_silently_witness :
  (AuthFlow.pollForCredentials MoreSamples.pendingFlow
     ([] ++ MoreSamples.waiting 1000 true :: [MoreSamples.authorized 6000]) 0).1.1
  = Some AuthFlow.LeftSilently
  ∧ (AuthFlow.pollForCredentials MoreSamples.pendingFlow
       ([] ++ MoreSamples.waiting 1000 true :: [MoreSamples.authorized 6000]) 0).2
    = S (0 + 0)
  ∧ AuthFlow.deviceCode
      (AuthFlow.pollForCredentials MoreSamples.pendingFlow
         ([] ++ MoreSamples.waiting 1000 true :: [MoreSamples.authorized 6000]) 0).1.2
    = None
  ∧ AuthFlow.clientCredentials
      (AuthFlow.pollForCredentials MoreSamples.pendingFlow
         ([] ++ MoreSamples.waiting 1000 true :: [MoreSamples.authorized 6000]) 0).1.2
    = None.
Proof.
  apply (pollForCredentials_cancel_ends_silently MoreSamples.pendingFlow
           [] (MoreSamples.waiting 1000 true) [MoreSamples.authorized 6000] 0
           "DEVICE" 600000).
  - reflexivity.
  - reflexivity.
  - discriminate.
  - reflexivity.
  - discriminate.
  - constructor.
  - reflexivity.
  - cbn. lia.
  - reflexivity.
Defined.

Lemma pollForCredentials_success_is_timely_witness :
  ∃ turn credentials tokenResponse expiry,
    turn ∈ [MoreSamples.waiting 1000 false; MoreSamples.authorized 6000]
    ∧ AuthFlow.expiresAt MoreSamples.pendingFlow = Some expiry
    ∧ (AuthFlow.now turn < expiry)%Z
    ∧ AuthFlow.polled turn = Ok (Some credentials)
    ∧ AuthFlow.exchanged turn = Ok tokenResponse
    ∧ {| Auth.accessToken := "access-2"; Auth.refreshToken := "refresh-2";
         Auth.clientId := "client"; Auth.clientSecret := "secret";
         Auth.expiresAt := Some 3606200%Z |}
      = {| Auth.accessToken := Auth.access_token tokenResponse;
           Auth.refreshToken := Auth.refresh_token tokenResponse;
           Auth.clientId := AuthFlow.client_id credentials;
           Auth.clientSecret := AuthFlow.client_secret credentials;
           Auth.expiresAt :=
             Some (AuthFlow.nowOnSuccess turn + Auth.expires_in tokenResponse * 1000)%Z |}
    ∧ AuthFlow.clientCredentials
        {| AuthFlow.deviceCode := Some "DEVICE";
           AuthFlow.pollingInterval := Some 5000%Z;
           AuthFlow.expiresAt := Some 600000%Z;
           AuthFlow.cancelled := false;
           AuthFlow.clientCredentials := Some MoreSamples.credentials |}
      = Some credentials
    ∧ (0 < 2 ≤ 0 + length [MoreSamples.waiting 1000 false; MoreSamples.authorized 6000])%nat.
Proof.
  apply (pollForCredentials_success_is_timely
           [MoreSamples.waiting 1000 false; MoreSamples.authorized 6000]
           MoreSamples.pendingFlow).
  vm_compute. reflexivity.
Defined.

(** ** lib/storage.ts: preferences and the cache *)

Section StorageMore.
Import Storage StorageUpdates.
Local Open Scope Z_scope.

Lemma getCache_setCache (updates : CachedData) (areas : Areas) :
  getCache (setCache updates areas) = mergeCache (getCache areas) updates.
Proof. unfold setCache, getCache at 1, setLocal. cbn [local]. by rewrite lookup_insert_eq. Qed.

Lemma fresh_Some {A} (now : Z) (value : A) (timestamp : Z) :
  fresh now (Some value) (Some timestamp) = Some value
  ↔ timestamp ≠ 0 ∧ now - timestamp < CACHE_TTL.
Proof.
  unfold fresh, truthy_number.
  destruct (timestamp =? 0) eqn:Hzero; cbn [negb andb].
  - apply Z.eqb_eq in Hzero. split; [discriminate | intros [? _]; done].
  - apply Z.eqb_neq in Hzero. destruct (now - timestamp <? CACHE_TTL) eqn:Hage.
    + apply Z.ltb_lt in Hage. done.
    + apply Z.ltb_ge in Hage. split; [discriminate | intros [_ ?]; lia].
Qed.

(** What was cached at time [cachedAt] is handed back at time [now] exactly
    when [cachedAt] is not zero and less than five minutes (300000 ms) have
    passed; this holds for each of the three cached values, whatever the
    cache held before. *)
Theorem cached_value_lives_five_minutes (areas : Areas) (cachedAt now : Z)
    (profile : UserProfile) (domains patterns : list string) :
  (getCachedUserProfile now (cacheUserProfile cachedAt profile areas) = Some profile
   ↔ cachedAt ≠ 0 ∧ now - cachedAt < 300000)
  ∧ (getCachedDomains now (cacheDomains cachedAt domains areas) = Some domains
     ↔ cachedAt ≠ 0 ∧ now - cachedAt < 300000)
  ∧ (getCachedHostsRegex now (cacheHostsRegex cachedAt patterns areas) = Some patterns
     ↔ cachedAt ≠ 0 ∧ now - cachedAt < 300000)
  ∧ (300000 ≤ now - cachedAt →
     getCachedUserProfile now (cacheUserProfile cachedAt profile areas) = None
     ∧ getCachedDomains now (cacheDomains cachedAt domains areas) = None
     ∧ getCachedHostsRegex now (cacheHostsRegex cachedAt patterns areas) = None).
Proof.
  unfold getCachedUserProfile, cacheUserProfile, getCachedDomains, cacheDomains,
    getCachedHostsRegex, cacheHostsRegex.
  rewrite !getCache_setCache. cbn [mergeCache userProfile userProfileTimestamp
    supportedDomains supportedDomainsTimestamp hostsRegex hostsRegexTimestamp from_option].
  split; [apply fresh_Some|]. split; [apply fresh_Some|]. split; [apply fresh_Some|].
  intros Hold. unfold fresh.
  assert ((now - cachedAt <? CACHE_TTL) = false) as ->
    by (apply Z.ltb_ge; unfold CACHE_TTL; lia).
  by rewrite andb_false_r.
Qed.

(** The three cached values and the credential do not disturb one another:
    caching the domains or the patterns, or storing a credential, leaves
    the cached profile as it was; clearing the cached profile removes the
    profile only. None of them touches the preferences. *)
Theorem cache_entries_are_independent (areas : Areas) (cachedAt now : Z)
    (domains patterns : list string) (authData : Auth.AuthData) :
  getCachedUserProfile now (cacheDomains cachedAt domains areas)
    = getCachedUserProfile now areas
  ∧ getCachedUserProfile now (cacheHostsRegex cachedAt patterns areas)
    = getCachedUserProfile now areas
  ∧ getCachedHostsRegex now (cacheDomains cachedAt domains areas)
    = getCachedHostsRegex now areas
  ∧ getCachedUserProfile now (setAuthData authData areas) = getCachedUserProfile now areas
  ∧ getAuthData (cacheDomains cachedAt domains areas) = getAuthData areas
  ∧ getCachedUserProfile now (clearUserProfileCache areas) = None
  ∧ getCachedDomains now (clearUserProfileCache areas) = getCachedDomains now areas
  ∧ getCachedHostsRegex now (clearUserProfileCache areas) = getCachedHostsRegex now areas
  ∧ getAuthData (clearUserProfileCache areas) = getAuthData areas
  ∧ getPreferences (cacheDomains cachedAt domains areas) = getPreferences areas
  ∧ getPreferences (clearUserProfileCache areas) = getPreferences areas.
Proof.
  assert (getCache (setAuthData authData areas) = getCache areas) as Hauth.
  { unfold getCache, setAuthData, setLocal. cbn [local]. by rewrite lookup_insert_ne. }
  assert (∀ updates, getAuthData (setCache updates areas) = getAuthData areas) as Hcred.
  { intros updates. unfold getAuthData, setCache, setLocal. cbn [local].
    by rewrite lookup_insert_ne. }
  assert (getCache (clearUserProfileCache areas)
          = {| userProfile := None; userProfileTimestamp := None;
               supportedDomains := supportedDomains (getCache areas);
               supportedDomainsTimestamp := supportedDomainsTimestamp (getCache areas);
               hostsRegex := hostsRegex (getCache areas);
               hostsRegexTimestamp := hostsRegexTimestamp (getCache areas) |}) as Hclear.
  { unfold clearUserProfileCache, getCache at 1, setLocal. cbn [local].
    by rewrite lookup_insert_eq. }
  unfold getCachedUserProfile, getCachedDomains, getCachedHostsRegex, cacheDomains,
    cacheHostsRegex.
  rewrite !getCache_setCache, Hauth, Hclear, Hcred.
  repeat split.
  unfold getAuthData, clearUserProfileCache, setLocal. cbn [local].
  by rewrite lookup_insert_ne.
Qed.

Lemma applyUpdates_idempotent (current : UserPreferences) (updates : PreferenceUpdates) :
  applyUpdates (applyUpdates current updates) updates = applyUpdates current updates.
Proof.
  destruct updates as [[?|] [?|] [?|] [?|] [?|] [?|]]; reflexivity.
Qed.

(** [setPreferences] returns what a later [getPreferences] reads; a key
    that the update does not have keeps its value, also when nothing was
    stored and the value is the default; the local area (credential and
    cache) is untouched; and applying the same update again changes
    nothing. *)
Theorem setPreferences_read_after_write (updates : PreferenceUpdates) (areas : Areas) :
  let updated := (setPreferences updates areas).1 in
  let areas' := (setPreferences updates areas).2 in
  getPreferences areas' = updated
  ∧ (newNotificationsEnabled updates = None →
     notificationsEnabled updated = notificationsEnabled (getPreferences areas))
  ∧ (newTheme updates = None → theme updated = theme (getPreferences areas))
  ∧ (newDownloadDirectory updates = None →
     downloadDirectory updated = downloadDirectory (getPreferences areas))
  ∧ (∀ enabled, newNotificationsEnabled updates = Some enabled →
                notificationsEnabled updated = enabled)
  ∧ local areas' = local areas
  ∧ setPreferences updates areas' = (updated, areas').
Proof.
  cbn zeta. unfold setPreferences. cbn [fst snd].
  assert (getPreferences
            {| local := local areas;
               sync := <[PREFERENCES :=
                 PreferencesValue (applyUpdates (getPreferences areas) updates)]> (sync areas) |}
          = applyUpdates (getPreferences areas) updates) as Hread.
  { unfold getPreferences at 1. cbn [sync]. by rewrite lookup_insert_eq. }
  rewrite Hread. repeat split.
  - intros Hkey. cbn [applyUpdates notificationsEnabled]. by rewrite Hkey.
  - intros Hkey. cbn [applyUpdates theme]. by rewrite Hkey.
  - intros Hkey. cbn [applyUpdates downloadDirectory]. by rewrite Hkey.
  - intros enabled Hkey. cbn [applyUpdates notificationsEnabled]. by rewrite Hkey.
  - rewrite applyUpdates_idempotent. cbn [local sync]. by rewrite insert_insert_eq.
Qed.

End StorageMore.

(** ** The background script: more on the polling tick *)

Section TickMore.
Import Background.

Lemma pollTorrents_resolves (platform : Platform) (s : State) :
  (pollTorrents platform s).1 = Ok tt.
Proof.
  unfold pollTorrents. async_simpl.
  destruct (match negb _ with true => _ | false => _ end) as [[[]|e] s']; done.
Qed.

(** A tick that finds nobody signed in asks the service nothing and stops
    the polling: the trigger is removed and the badge text cleared (where
    alarms are supported; elsewhere nothing changes at all).  The snapshot
    table is left as it is. *)
Theorem pollTorrents_signed_out_stops_polling (platform : Platform) (s : State) :
  Storage.isAuthenticated (storage s) = false →
  let s' := (pollTorrents platform s).2 in
  (pollTorrents platform s).1 = Ok tt
  ∧ remoteCalls s' = remoteCalls s
  ∧ knownTorrents s' = knownTorrents s
  ∧ notifications s' = notifications s
  ∧ storage s' = storage s
  ∧ (alarmsSupport platform = true →
     alarms s' !! POLLING_ALARM_NAME = None ∧ text (badge s') = "")
  ∧ (alarmsSupport platform = false → s' = s).
Proof.
  intros Hout. cbn zeta. split; [apply pollTorrents_resolves|].
  unfold pollTorrents. async_simpl. rewrite Hout. cbn [negb].
  rewrite stopPolling_run. cbn [snd].
  destruct (alarmsSupport platform); repeat split; try done.
  cbn. apply lookup_delete_eq.
Qed.

(** A tick that cannot get a token or a listing is swallowed: it resolves,
    and the snapshot table, the trigger, the badge and the notifications
    are as before, so the polling goes on with the next tick. *)
Theorem pollTorrents_failed_tick_changes_nothing (platform : Platform) (s : State) :
  Storage.isAuthenticated (storage s) = true →
  (∀ token s1, getValidToken platform s = (Ok token, s1) →
               ∃ e, listTorrents platform token (Some 100%Z) = Throw e) →
  let s' := (pollTorrents platform s).2 in
  (pollTorrents platform s).1 = Ok tt
  ∧ knownTorrents s' = knownTorrents s
  ∧ alarms s' = alarms s
  ∧ badge s' = badge s
  ∧ notifications s' = notifications s.
Proof.
  intros Hin Hfails. cbn zeta. split; [apply pollTorrents_resolves|].
  pose proof (getValidToken_frame platform s) as Hframe. cbn zeta in Hframe.
  unfold pollTorrents, remote. async_simpl. rewrite Hin. cbn [negb].
  destruct (getValidToken platform s) as [[token|e] s1] eqn:Htoken; cbn [snd] in *.
  - destruct (Hfails token s1 eq_refl) as [e ->]. cbn [snd].
    destruct Hframe as (? & ? & ? & ? & _). done.
  - destruct Hframe as (? & ? & ? & ? & _). done.
Qed.

(** The table that the loop leaves: every listed entry is written over
    what the table held, in the order of the listing. *)
Lemma pollLoop_table (torrents : list TorrentItem) :
  ∀ (activeCount : nat) (currentTorrentIds : gset string) (s : State),
    knownTorrents (pollLoop torrents activeCount currentTorrentIds s).2
    = foldl (λ table torrent, <[id torrent := status torrent]> table)
        (knownTorrents s) torrents.
Proof.
  induction torrents as [|torrent rest IH]; intros activeCount currentTorrentIds s; [done|].
  rewrite pollLoop_cons, IH. cbn [foldl]. f_equal.
  rewrite showTorrentCompletedNotification_run. cbn [snd].
  unfold setKnownTorrents; cbn [knownTorrents]. f_equal.
  destruct (knownTorrents s !! id torrent) as [previous|]; [|done].
  destruct (bool_decide (previous ≠ downloaded) && bool_decide (status torrent = downloaded));
    [|done].
  by destruct (Storage.notificationsEnabled _).
Qed.

Lemma lookup_foldl_insert (torrents : list TorrentItem) (key : string) :
  ∀ table : gmap string TorrentStatus,
    foldl (λ table torrent, <[id torrent := status torrent]> table) table torrents !! key
    = match (list_to_map (reverse ((λ torrent, (id torrent, status torrent)) <$> torrents))
               : gmap string TorrentStatus) !! key with
      | Some status => Some status
      | None => table !! key
      end.
Proof.
  induction torrents as [|torrent rest IH]; intros table; [done|].
  cbn [foldl]. rewrite IH. rewrite fmap_cons, reverse_cons, list_to_map_app, lookup_union.
  destruct (list_to_map _ !! key) as [status|]; [by rewrite union_Some_l|].
  rewrite (left_id None _), list_to_map_cons, list_to_map_nil.
  destruct (decide (id torrent = key)) as [->|Hne].
  - by rewrite !lookup_insert_eq.
  - by rewrite !lookup_insert_ne, lookup_empty.
Qed.

(** After a tick whose listing call resolved, the snapshot table is
    decided by what the call resolved to and by nothing else when that is
    an array: the table then maps each listed identifier to the status of
    its last listed entry, whatever it held before.  When the call
    resolved to the [{}] of an answer without JSON content, the table is
    what it was. *)
Theorem pollTorrents_table_is_listing (platform : Platform) (s s1 : State)
    (token : string) (listed : Client.ResponseValue (list TorrentItem)) :
  Storage.isAuthenticated (storage s) = true →
  getValidToken platform s = (Ok token, s1) →
  listTorrents platform token (Some 100%Z) = Ok listed →
  knownTorrents (pollTorrents platform s).2
    = match listed with
      | Client.Parsed torrents =>
          list_to_map (reverse ((λ torrent, (id torrent, status torrent)) <$> torrents))
      | Client.EmptyObject => knownTorrents s
      end.
Proof.
  intros Hauth Htoken Hlist. destruct listed as [|torrents].
  { rewrite (pollTorrents_not_iterable platform s s1 token Hauth Htoken Hlist).
    pose proof (getValidToken_frame platform s) as Hframe.
    rewrite Htoken in Hframe. cbn [snd] in Hframe. destruct Hframe as (Hknown & _).
    cbn [snd]. exact Hknown. }
  destruct (pollTorrents_effects platform s s1 token torrents Hauth Htoken Hlist)
    as (-> & _ & _ & _).
  rewrite pollLoop_table. apply map_eq. intros key.
  set (listing := list_to_map _).
  destruct (listing !! key) as [status|] eqn:Hkey.
  - apply map_lookup_filter_Some. split.
    + rewrite lookup_foldl_insert. fold listing. by rewrite Hkey.
    + cbn. apply elem_of_list_to_set.
      subst listing. apply elem_of_list_to_map_2 in Hkey.
      rewrite elem_of_reverse in Hkey.
      apply list_elem_of_fmap in Hkey as (torrent & [= -> ->] & Hin).
      apply list_elem_of_fmap. by exists torrent.
  - apply map_lookup_filter_None. right. intros status _. cbn.
    rewrite elem_of_list_to_set. intros Hin.
    subst listing. apply not_elem_of_list_to_map in Hkey. apply Hkey.
    rewrite fmap_reverse, elem_of_reverse, <- list_fmap_compose.
    exact Hin.
Qed.

(** When the table already agrees with the listing the loop changes
    nothing. *)
Lemma pollLoop_steady (torrents : list TorrentItem) :
  ∀ (activeCount : nat) (currentTorrentIds : gset string) (s : State),
    (∀ torrent, torrent ∈ torrents → knownTorrents s !! id torrent = Some (status torrent)) →
    (pollLoop torrents activeCount currentTorrentIds s).2 = s.
Proof.
  induction torrents as [|torrent rest IH]; intros activeCount currentTorrentIds s Hsame;
    [done|].
  rewrite pollLoop_cons.
  pose proof (Hsame torrent (list_elem_of_here _ _)) as Hhead. rewrite Hhead.
  assert (bool_decide (status torrent ≠ downloaded)
          && bool_decide (status torrent = downloaded) = false) as ->.
  { destruct (decide (status torrent = downloaded)) as [Heq|Hne].
    - rewrite (bool_decide_eq_false_2 (_ ≠ _)) by (intros Hne; by apply Hne). done.
    - rewrite (bool_decide_eq_false_2 (_ = _)) by done. apply andb_false_r. }
  assert (setKnownTorrents <[id torrent := status torrent]> s = s) as ->.
  { destruct s. unfold setKnownTorrents. cbn in *. f_equal. by apply insert_id. }
  apply IH. intros t Ht. apply Hsame. by apply list_elem_of_further.
Qed.

(** A tick whose listing says what the table already holds for every
    listed job creates no notification, whatever the statuses are; it only
    drops the jobs that are no longer listed.  A tick whose listing call
    resolved to the [{}] of an answer without JSON content creates no
    notification either, and drops nothing. *)
Theorem pollTorrents_unchanged_listing_is_silent (platform : Platform) (s s1 : State)
    (token : string) (listed : Client.ResponseValue (list TorrentItem)) :
  Storage.isAuthenticated (storage s) = true →
  getValidToken platform s = (Ok token, s1) →
  listTorrents platform token (Some 100%Z) = Ok listed →
  match listed with
  | Client.Parsed torrents =>
      ∀ torrent, torrent ∈ torrents → knownTorrents s !! id torrent = Some (status torrent)
  | Client.EmptyObject => True
  end →
  notifications (pollTorrents platform s).2 = notifications s
  ∧ knownTorrents (pollTorrents platform s).2
    = match listed with
      | Client.Parsed torrents =>
          filter (λ entry, entry.1 ∈ id <$> torrents) (knownTorrents s)
      | Client.EmptyObject => knownTorrents s
      end.
Proof.
  intros Hauth Htoken Hlist Hsame. destruct listed as [|torrents].
  { rewrite (pollTorrents_not_iterable platform s s1 token Hauth Htoken Hlist).
    pose proof (getValidToken_frame platform s) as Hframe.
    rewrite Htoken in Hframe. cbn [snd] in Hframe.
    destruct Hframe as (Hknown & Hnotes & _). cbn [snd]. split; assumption. }
  destruct (pollTorrents_effects platform s s1 token torrents Hauth Htoken Hlist)
    as (-> & -> & _ & Hknown & Hnotes & _).
  rewrite pollLoop_steady by (intros t Ht; rewrite Hknown; by apply Hsame).
  rewrite Hknown, Hnotes. split; [done|].
  apply map_filter_ext. intros key status _. cbn. by rewrite elem_of_list_to_set.
Qed.

(** The polling ends itself only on an array: a tick whose listing is an
    array without a job of an active status removes the trigger, a tick
    whose listing has one leaves the alarms as they are, and so does a
    tick whose listing call resolved to the [{}] of an answer without JSON
    content, although nothing is listed there: the polling goes on. *)
Theorem pollTorrents_stops_when_idle (platform : Platform) (s s1 : State)
    (token : string) (listed : Client.ResponseValue (list TorrentItem)) :
  Storage.isAuthenticated (storage s) = true →
  getValidToken platform s = (Ok token, s1) →
  listTorrents platform token (Some 100%Z) = Ok listed →
  let s' := (pollTorrents platform s).2 in
  match listed with
  | Client.Parsed torrents =>
      (activeIn torrents = 0%nat → alarmsSupport platform = true →
       alarms s' !! POLLING_ALARM_NAME = None)
      ∧ ((0 < activeIn torrents)%nat → alarms s' = alarms s)
      ∧ (alarmsSupport platform = false → alarms s' = alarms s)
  | Client.EmptyObject => alarms s' = alarms s ∧ badge s' = badge s
  end.
Proof.
  intros Hauth Htoken Hlist. cbn zeta.
  pose proof (getValidToken_frame platform s) as Hframe.
  rewrite Htoken in Hframe. cbn [snd] in Hframe.
  destruct Hframe as (_ & _ & Halarms & Hbadge & _).
  destruct listed as [|torrents].
  { rewrite (pollTorrents_not_iterable platform s s1 token Hauth Htoken Hlist).
    cbn [snd]. split; assumption. }
  rewrite (pollTorrents_listing platform s s1 token torrents Hauth Htoken Hlist).
  cbn [snd]. rewrite updateBadge_run, stopPolling_run. cbn [snd].
  pose proof (pollLoop_frame torrents 0 ∅
    (setRemoteCalls (λ calls, calls ++ [ListTorrents token (Some 100%Z)]) s1))
    as (_ & Halarms3 & _).
  split; [|split].
  - intros -> ->. cbn. apply lookup_delete_eq.
  - intros Hactive. destruct (activeIn torrents =? 0)%nat eqn:Hzero.
    + apply Nat.eqb_eq in Hzero. lia.
    + cbn. rewrite Halarms3. exact Halarms.
  - intros ->. destruct (activeIn torrents =? 0)%nat; cbn; rewrite Halarms3; exact Halarms.
Qed.

(** [checkAndUpdatePolling] makes the trigger follow the count of active
    jobs that the service reports: a positive count leaves a trigger in
    place (even if the first poll found nothing active and stopped), any
    other count leaves none, and a failure of the call leaves the alarms
    as they were.  It never rejects. *)
Theorem checkAndUpdatePolling_follows_active_count (platform : Platform) (s s1 : State)
    (token : string) :
  Storage.isAuthenticated (storage s) = true →
  getValidToken platform s = (Ok token, s1) →
  alarmsSupport platform = true →
  let s' := (checkAndUpdatePolling platform s).2 in
  (checkAndUpdatePolling platform s).1 = Ok tt
  ∧ (∀ count, getActiveCount platform token = Ok count → (0 < nb count)%Z →
       is_Some (alarms s' !! POLLING_ALARM_NAME))
  ∧ (∀ count, getActiveCount platform token = Ok count → (nb count ≤ 0)%Z →
       alarms s' !! POLLING_ALARM_NAME = None)
  ∧ (∀ e, getActiveCount platform token = Throw e → alarms s' = alarms s).
Proof.
  intros Hauth Htoken Hsup. cbn zeta.
  pose proof (getValidToken_frame platform s) as Hframe.
  rewrite Htoken in Hframe. cbn [snd] in Hframe.
  destruct Hframe as (_ & _ & Halarms & _).
  unfold checkAndUpdatePolling, remote. async_simpl. rewrite Hauth. cbn [negb].
  rewrite Htoken.
  set (s2 := setRemoteCalls (λ calls, calls ++ [GetActiveCount token]) s1).
  destruct (getActiveCount platform token) as [count|e]; cbn [fst snd].
  - destruct (0 <? nb count)%Z eqn:Hnb.
    + apply Z.ltb_lt in Hnb.
      destruct (alarms s2 !! POLLING_ALARM_NAME) as [alarm|] eqn:Halarm.
      * assert (startPolling platform s2 = (Ok tt, s2)) as ->.
        { unfold startPolling. rewrite Hsup. cbn [negb]. async_simpl. by rewrite Halarm. }
        cbn [fst snd]. split; [done|]. split; [|split].
        -- intros ? [= <-] _. by rewrite Halarm.
        -- intros ? [= <-] ?. lia.
        -- intros ? [=].
      * rewrite (startPolling_first platform s2 Hsup Halarm). cbn [fst snd].
        split; [done|]. split; [|split].
        -- intros ? [= <-] _. cbn. by rewrite lookup_insert_eq.
        -- intros ? [= <-] ?. lia.
        -- intros ? [=].
    + apply Z.ltb_ge in Hnb. rewrite stopPolling_run, Hsup. cbn [fst snd].
      split; [done|]. split; [|split].
      * intros ? [= <-] ?. lia.
      * intros ? [= <-] _. cbn. apply lookup_delete_eq.
      * intros ? [=].
  - split; [done|]. split; [|split].
    + intros ? [=].
    + intros ? [=].
    + intros ? _. exact Halarms.
Qed.

(** The answer to AUTH_STATUS is always a success envelope: it says
    "authenticated" only when a credential is stored, a token could be had
    and the profile could be fetched with it, and then it carries that
    profile; in every other case, a failing call included, it says "not
    authenticated" and carries no profile. *)
Theorem handleAuthStatus_never_rejects {P Sender : Type} (platform : Platform)
    (payload : P) (sender : Sender) (s : State) :
  ∃ authenticated profile,
    (handleAuthStatus platform payload sender s).1
      = Ok (Messaging.success (AuthStatusData authenticated profile))
    ∧ (authenticated = true ↔ is_Some profile)
    ∧ (authenticated = true ↔
       Storage.isAuthenticated (storage s) = true
       ∧ ∃ token s1 fetched,
           getValidToken platform s = (Ok token, s1)
           ∧ getUser platform token = Ok fetched
           ∧ profile = Some fetched).
Proof.
  unfold handleAuthStatus, remote. async_simpl.
  assert (∀ Q : Prop, (Q → False) →
            (false = true ↔ is_Some (None : option Storage.UserProfile))
            ∧ (false = true ↔ Q)) as Hno.
  { intros Q HQ. split; (split; [discriminate|]); [intros [? [=]] | intros HQ'; by apply HQ in HQ']. }
  destruct (Storage.isAuthenticated (storage s)) eqn:Hauth.
  - destruct (getValidToken platform s) as [[token|e] s1] eqn:Htoken.
    + destruct (getUser platform token) as [fetched|e] eqn:Huser; cbn [fst snd].
      * exists true, (Some fetched). split; [done|]. split; [done|].
        split; [intros _|done]. split; [done|]. by eexists _, _, _.
      * exists false, None. split; [done|]. apply Hno.
        intros (_ & ? & ? & ? & [= <- <-] & Hf & _). congruence.
    + exists false, None. split; [done|]. apply Hno.
      intros (_ & ? & ? & ? & [=] & _).
  - exists false, None. split; [done|]. apply Hno. intros [[=] _].
Qed.

(** A profile that GET_USER_PROFILE had to fetch is cached: a second
    request within five minutes is answered from the cache with the same
    envelope, without any call to the service and without any change of
    state. *)
Theorem handleGetUserProfile_second_call_from_cache {P Sender : Type}
    (platform later : Platform) (payload : P) (sender : Sender) (s s' : State)
    (response : Messaging.MessageResponse ResponseData) :
  Storage.getCachedUserProfile (now platform) (storage s) = None →
  handleGetUserProfile platform payload sender s = (Ok response, s') →
  now platform ≠ 0%Z → (now later - now platform < 300000)%Z →
  handleGetUserProfile later payload sender s' = (Ok response, s').
Proof.
  intros Hmiss Hfirst Hnz Hage.
  unfold handleGetUserProfile, remote in Hfirst. async_simpl. rewrite Hmiss in Hfirst.
  destruct (getValidToken platform s) as [[token|e] s1] eqn:Htoken; [|discriminate].
  destruct (getUser platform token) as [profile|e] eqn:Huser; [|discriminate].
  injection Hfirst as <- <-.
  unfold handleGetUserProfile. async_simpl. cbn [storage setStorage].
  assert (Storage.getCachedUserProfile (now later)
            (Storage.cacheUserProfile (now platform) profile
               (storage (setRemoteCalls (λ calls, calls ++ [GetUser token]) s1)))
          = Some profile) as ->; [|done].
  unfold Storage.getCachedUserProfile, Storage.cacheUserProfile.
  rewrite getCache_setCache.
  cbn [Storage.mergeCache Storage.userProfile Storage.userProfileTimestamp from_option].
  apply fresh_Some. done.
Qed.

(** After a logout the next tick asks the service nothing and removes the
    trigger. *)
Theorem pollTorrents_after_logout_stops_polling {P Sender : Type} (platform : Platform)
    (payload : P) (sender : Sender) (s : State) :
  let loggedOut := (handleLogout payload sender s).2 in
  let s' := (pollTorrents platform loggedOut).2 in
  alarms loggedOut = alarms s
  ∧ remoteCalls s' = remoteCalls s
  ∧ (alarmsSupport platform = true → alarms s' !! POLLING_ALARM_NAME = None).
Proof.
  cbn zeta. unfold handleLogout. async_simpl.
  assert (Storage.isAuthenticated (storage (setStorage Storage.removeAuthData s)) = false)
    as Hout by apply isAuthenticated_removeAuthData.
  unfold pollTorrents. async_simpl. rewrite Hout. cbn [negb].
  rewrite stopPolling_run. cbn [snd].
  destruct (alarmsSupport platform); repeat split; try done.
  intros _. cbn. apply lookup_delete_eq.
Qed.

End TickMore.

Lemma pollTorrents_signed_out_stops_polling_witness :
  Background.alarms TickSamples.signedOut !! Background.POLLING_ALARM_NAME
    = Some {| Background.periodInMinutes := Background.POLLING_INTERVAL_MINUTES |}
  ∧ Background.alarms (Background.pollTorrents Sample.failing TickSamples.signedOut).2
      !! Background.POLLING_ALARM_NAME = None
  ∧ Background.remoteCalls (Background.pollTorrents Sample.failing TickSamples.signedOut).2
    = [].
Proof.
  split; [reflexivity|].
  pose proof (pollTorrents_signed_out_stops_polling Sample.failing TickSamples.signedOut
                eq_refl) as (_ & Hcalls & _ & _ & _ & Hstopped & _).
  split; [apply Hstopped; reflexivity | exact Hcalls].
Defined.

Lemma pollTorrents_failed_tick_changes_nothing_witness :
  Background.knownTorrents (Background.pollTorrents TickSamples.unreachable Sample.pollingState).2
    = Background.knownTorrents Sample.pollingState
  ∧ Background.alarms (Background.pollTorrents TickSamples.unreachable Sample.pollingState).2
    = Background.alarms Sample.pollingState.
Proof.
  assert (∀ token s1,
            Background.getValidToken TickSamples.unreachable Sample.pollingState
              = (Ok token, s1) →
            ∃ e, Background.listTorrents TickSamples.unreachable token (Some 100%Z) = Throw e)
    as Hfails by (intros token s1 _; by eexists).
  pose proof (pollTorrents_failed_tick_changes_nothing TickSamples.unreachable
                Sample.pollingState ltac:(vm_compute; reflexivity) Hfails)
    as (_ & Hknown & Halarms & _).
  split; [exact Hknown | exact Halarms].
Defined.

Lemma pollTorrents_table_is_listing_witness :
  Background.knownTorrents (Background.pollTorrents Sample.completing Sample.trackingTwo).2
  = list_to_map (reverse ((λ torrent, (Background.id torrent, Background.status torrent))
                            <$> [Sample.torrent "a" Background.downloaded]))
  ∧ Background.knownTorrents
      (Background.pollTorrents TickSamples.noContentListing Sample.trackingTwo).2
    = Background.knownTorrents Sample.trackingTwo.
Proof.
  split.
  - apply (pollTorrents_table_is_listing Sample.completing Sample.trackingTwo
             Sample.trackingTwo "access-1"
             (Client.Parsed [Sample.torrent "a" Background.downloaded])).
    + vm_compute; reflexivity.
    + vm_compute; reflexivity.
    + reflexivity.
  - apply (pollTorrents_table_is_listing TickSamples.noContentListing Sample.trackingTwo
             Sample.trackingTwo "access-1" Client.EmptyObject).
    + vm_compute; reflexivity.
    + vm_compute; reflexivity.
    + reflexivity.
Defined.

Lemma pollTorrents_unchanged_listing_is_silent_witness :
  Background.notifications
    (Background.pollTorrents TickSamples.stillDownloading Sample.pollingState).2
  = Background.notifications Sample.pollingState
  ∧ Background.knownTorrents
      (Background.pollTorrents TickSamples.stillDownloading Sample.pollingState).2
    = filter (λ entry, entry.1 ∈ Background.id <$> [Sample.torrent "a" Background.downloading])
        (Background.knownTorrents Sample.pollingState).
Proof.
  apply (pollTorrents_unchanged_listing_is_silent TickSamples.stillDownloading
           Sample.pollingState Sample.pollingState "access-1"
           (Client.Parsed [Sample.torrent "a" Background.downloading])).
  - vm_compute; reflexivity.
  - vm_compute; reflexivity.
  - reflexivity.
  - intros torrent ->%list_elem_of_singleton. vm_compute; reflexivity.
Defined.

Lemma pollTorrents_stops_when_idle_witness :
  is_Some (Background.alarms Sample.pollingState !! Background.POLLING_ALARM_NAME)
  ∧ Background.alarms (Background.pollTorrents Sample.completing Sample.pollingState).2
      !! Background.POLLING_ALARM_NAME = None
  ∧ Background.alarms
      (Background.pollTorrents TickSamples.stillDownloading Sample.pollingState).2
    = Background.alarms Sample.pollingState
  ∧ Background.alarms
      (Background.pollTorrents TickSamples.noContentListing Sample.pollingState).2
    = Background.alarms Sample.pollingState.
Proof.
  split; [by eexists|]. split; [|split].
  - pose proof (pollTorrents_stops_when_idle Sample.completing Sample.pollingState
                  Sample.pollingState "access-1"
                  (Client.Parsed [Sample.torrent "a" Background.downloaded])
                  ltac:(vm_compute; reflexivity) ltac:(vm_compute; reflexivity) eq_refl)
      as (Hidle & _).
    apply Hidle; reflexivity.
  - pose proof (pollTorrents_stops_when_idle TickSamples.stillDownloading Sample.pollingState
                  Sample.pollingState "access-1"
                  (Client.Parsed [Sample.torrent "a" Background.downloading])
                  ltac:(vm_compute; reflexivity) ltac:(vm_compute; reflexivity) eq_refl)
      as (_ & Hbusy & _).
    apply Hbusy. vm_compute. constructor.
  - pose proof (pollTorrents_stops_when_idle TickSamples.noContentListing Sample.pollingState
                  Sample.pollingState "access-1" Client.EmptyObject
                  ltac:(vm_compute; reflexivity) ltac:(vm_compute; reflexivity) eq_refl)
      as (Hsame & _).
    exact Hsame.
Defined.

Lemma checkAndUpdatePolling_follows_active_count_witness :
  Background.alarms Sample.freshState !! Background.POLLING_ALARM_NAME = None
  ∧ is_Some (Background.alarms
               (Background.checkAndUpdatePolling Sample.failing Sample.freshState).2
             !! Background.POLLING_ALARM_NAME).
Proof.
  split; [reflexivity|].
  pose proof (checkAndUpdatePolling_follows_active_count Sample.failing Sample.freshState
                Sample.freshState "access-1"
                ltac:(vm_compute; reflexivity) ltac:(vm_compute; reflexivity) eq_refl)
    as (_ & Hactive & _).
  apply (Hactive {| Background.nb := 1; Background.limit := 25 |}); [reflexivity | cbn; lia].
Defined.

Lemma handleGetUserProfile_second_call_from_cache_witness :
  Background.handleGetUserProfile Sample.failing tt tt
    (Background.handleGetUserProfile
       (MoreSamples.viaTokenEndpoint (AuthFlow.Responded MoreSamples.granted)) tt tt
       TickSamples.justSignedIn).2
  = (Ok (Messaging.success (Background.ProfileData Sample.profile)),
     (Background.handleGetUserProfile
        (MoreSamples.viaTokenEndpoint (AuthFlow.Responded MoreSamples.granted)) tt tt
        TickSamples.justSignedIn).2).
Proof.
  apply (handleGetUserProfile_second_call_from_cache
           (MoreSamples.viaTokenEndpoint (AuthFlow.Responded MoreSamples.granted))
           Sample.failing tt tt TickSamples.justSignedIn).
  - vm_compute; reflexivity.
  - vm_compute; reflexivity.
  - discriminate.
  - vm_compute; reflexivity.
Defined.

(** ** The background script: detected links and the badge of a tab *)

Section TabsMore.
Import Tabs.

Lemma updateBadgeForTab_run (tab : Z) (s : State) :
  updateBadgeForTab tab s
  = (Ok tt,
     let links := default [] (detectedLinksByTab s !! tab) in
     let activeTorrents := Background.getActiveTorrentCount (background s) in
     setTabBadge tab (λ b,
       if (0 <? length links)%nat
       then {| Background.text := pretty (length links);
               Background.color := Some LINKS_BADGE_COLOR |}
       else if (0 <? activeTorrents)%nat
       then {| Background.text := pretty activeTorrents;
               Background.color := Some Background.BADGE_COLOR |}
       else {| Background.text := ""; Background.color := Background.color b |}) s).
Proof.
  unfold updateBadgeForTab. async_simpl. cbn zeta.
  destruct (0 <? length _)%nat; [done|].
  by destruct (0 <? Background.getActiveTorrentCount _)%nat.
Qed.

Lemma usableTab_Some (sender : MessageSender) (tab : Z) :
  tabId sender = Some tab → tab ≠ 0%Z → usableTab sender = Some tab.
Proof.
  intros Htab Hnz. unfold usableTab, truthy_number. rewrite Htab.
  by rewrite (proj2 (Z.eqb_neq tab 0) Hnz).
Qed.

(** The links that the content script of a tab reports are what a later
    GET_DETECTED_LINKS gets, from that tab itself or from the popup while
    the tab is the active one; the links and the badges of the other tabs
    and the background state are not touched. *)
Theorem reported_links_round_trip (links : list DetectedLink) (sender : MessageSender)
    (tab : Z) (s : State) :
  tabId sender = Some tab → tab ≠ 0%Z →
  let s' := (handleReportDetectedLinks links sender s).2 in
  (handleReportDetectedLinks links sender s).1 = Ok (Messaging.success tt)
  ∧ (∀ activeTab, handleGetDetectedLinks activeTab sender s' = (Ok (Messaging.success links), s'))
  ∧ (∀ popup, tabId popup = None →
       handleGetDetectedLinks (Ok (Some tab)) popup s' = (Ok (Messaging.success links), s'))
  ∧ (∀ other, other ≠ tab →
       detectedLinksByTab s' !! other = detectedLinksByTab s !! other
       ∧ tabBadges s' !! other = tabBadges s !! other)
  ∧ background s' = background s.
Proof.
  intros Htab Hnz. cbn zeta.
  unfold handleReportDetectedLinks. rewrite (usableTab_Some sender tab Htab Hnz).
  async_simpl. rewrite updateBadgeForTab_run. cbn [fst snd].
  split; [done|]. split; [|split; [|split]].
  - intros activeTab. unfold handleGetDetectedLinks.
    rewrite (usableTab_Some sender tab Htab Hnz). async_simpl.
    cbn. by rewrite lookup_insert_eq.
  - intros popup Hpopup. unfold handleGetDetectedLinks, usableTab. rewrite Hpopup.
    unfold truthy_number. rewrite (proj2 (Z.eqb_neq tab 0) Hnz). async_simpl.
    cbn. by rewrite lookup_insert_eq.
  - intros other Hother. cbn. by rewrite !lookup_insert_ne.
  - done.
Qed.

(** The badge of a tab after a report: the number of reported links in the
    colour of the links whenever there is at least one, whatever the
    torrents do; with no link, the number of active torrents in their
    colour, or an empty text when there is none. *)
Theorem reported_links_take_over_badge (links : list DetectedLink) (sender : MessageSender)
    (tab : Z) (s : State) :
  tabId sender = Some tab → tab ≠ 0%Z →
  let s' := (handleReportDetectedLinks links sender s).2 in
  let activeTorrents := Background.getActiveTorrentCount (background s) in
  (links ≠ [] →
   tabBadges s' !! tab = Some {| Background.text := pretty (length links);
                                 Background.color := Some LINKS_BADGE_COLOR |})
  ∧ (links = [] → (0 < activeTorrents)%nat →
     tabBadges s' !! tab = Some {| Background.text := pretty activeTorrents;
                                   Background.color := Some Background.BADGE_COLOR |})
  ∧ (links = [] → activeTorrents = 0%nat →
     Background.text <$> tabBadges s' !! tab = Some "")
  ∧ Background.badge (background s') = Background.badge (background s).
Proof.
  intros Htab Hnz. cbn zeta.
  unfold handleReportDetectedLinks. rewrite (usableTab_Some sender tab Htab Hnz).
  async_simpl. rewrite updateBadgeForTab_run. cbn [fst snd].
  unfold setTabBadge, setDetectedLinks.
  cbn [tabBadges detectedLinksByTab background]. rewrite !lookup_insert_eq.
  cbn [default from_option id].
  split; [|split; [|split]].
  - intros Hlinks. destruct links; done.
  - intros -> Hactive. apply Nat.ltb_lt in Hactive. by rewrite Hactive.
  - intros -> ->. done.
  - done.
Qed.

(** A tab that starts to load a page, or is closed, loses its links: a
    later GET_DETECTED_LINKS for it gets the empty list.  The links of the
    other tabs stay, and an update that is not a start of loading changes
    nothing. *)
Theorem navigation_forgets_links (tab : Z) (s : State) :
  (∀ sender activeTab, usableTab sender = Some tab →
     (handleGetDetectedLinks activeTab sender (onUpdated tab true s).2).1
       = Ok (Messaging.success [])
     ∧ (handleGetDetectedLinks activeTab sender (onRemoved tab s).2).1
       = Ok (Messaging.success []))
  ∧ Background.text <$> tabBadges (onUpdated tab true s).2 !! tab = Some ""
  ∧ (∀ other, other ≠ tab →
       detectedLinksByTab (onUpdated tab true s).2 !! other = detectedLinksByTab s !! other
       ∧ detectedLinksByTab (onRemoved tab s).2 !! other = detectedLinksByTab s !! other)
  ∧ onUpdated tab false s = (Ok tt, s).
Proof.
  split; [|split; [|split]].
  - intros sender activeTab Husable. unfold handleGetDetectedLinks. rewrite Husable.
    unfold onUpdated, onRemoved, clearTabLinks. async_simpl. cbn.
    by rewrite lookup_delete_eq.
  - unfold onUpdated, clearTabLinks. async_simpl. cbn. by rewrite lookup_insert_eq.
  - intros other Hother. unfold onUpdated, onRemoved, clearTabLinks. async_simpl. cbn.
    by rewrite lookup_delete_ne.
  - done.
Qed.

(** A report whose sender has no tab, or the tab number zero, is answered
    with success and stores nothing; a request from such a sender when no
    active tab can be found gets the empty list. *)
Theorem report_without_tab_is_dropped (links : list DetectedLink) (sender : MessageSender)
    (s : State) :
  tabId sender = None ∨ tabId sender = Some 0%Z →
  handleReportDetectedLinks links sender s = (Ok (Messaging.success tt), s)
  ∧ (∀ e, handleGetDetectedLinks (Throw e) sender s = (Ok (Messaging.success []), s))
  ∧ handleGetDetectedLinks (Ok None) sender s = (Ok (Messaging.success []), s).
Proof.
  intros Hnone.
  assert (usableTab sender = None) as Husable.
  { unfold usableTab. by destruct Hnone as [->| ->]. }
  unfold handleReportDetectedLinks, handleGetDetectedLinks. rewrite Husable. done.
Qed.

End TabsMore.

Lemma reported_links_round_trip_witness :
  (Tabs.handleGetDetectedLinks (Ok (Some 7%Z)) TabSamples.popup
     (Tabs.handleReportDetectedLinks [TabSamples.magnetLink; TabSamples.hosterLink]
        TabSamples.contentScript TabSamples.idle).2).1
  = Ok (Messaging.success [TabSamples.magnetLink; TabSamples.hosterLink]).
Proof.
  pose proof (reported_links_round_trip [TabSamples.magnetLink; TabSamples.hosterLink]
                TabSamples.contentScript 7 TabSamples.idle eq_refl ltac:(discriminate))
    as (_ & _ & Hpopup & _).
  by rewrite (Hpopup TabSamples.popup eq_refl).
Defined.

Lemma reported_links_take_over_badge_witness :
  Background.getActiveTorrentCount (Tabs.background TabSamples.idle) = 1%nat
  ∧ Tabs.tabBadges
      (Tabs.handleReportDetectedLinks [TabSamples.magnetLink; TabSamples.hosterLink]
         TabSamples.contentScript TabSamples.idle).2 !! 7%Z
    = Some {| Background.text := "2"; Background.color := Some "#9ED1EC" |}
  ∧ Tabs.tabBadges
      (Tabs.handleReportDetectedLinks [] TabSamples.contentScript TabSamples.idle).2 !! 7%Z
    = Some {| Background.text := "1"; Background.color := Some "#B7D995" |}.
Proof.
  split; [vm_compute; reflexivity|]. split.
  - pose proof (reported_links_take_over_badge [TabSamples.magnetLink; TabSamples.hosterLink]
                  TabSamples.contentScript 7 TabSamples.idle eq_refl ltac:(discriminate))
      as (Hlinks & _).
    rewrite Hlinks by discriminate. reflexivity.
  - pose proof (reported_links_take_over_badge []
                  TabSamples.contentScript 7 TabSamples.idle eq_refl ltac:(discriminate))
      as (_ & Htorrents & _).
    rewrite Htorrents; [vm_compute; reflexivity | reflexivity | vm_compute; constructor].
Defined.

Lemma report_without_tab_is_dropped_witness :
  Tabs.handleReportDetectedLinks [TabSamples.magnetLink] {| Tabs.tabId := Some 0%Z |}
    TabSamples.idle
  = (Ok (Messaging.success tt), TabSamples.idle).
Proof.
  pose proof (report_without_tab_is_dropped [TabSamples.magnetLink]
                {| Tabs.tabId := Some 0%Z |} TabSamples.idle (or_intror eq_refl))
    as (Hdropped & _).
  exact Hdropped.
Defined.

(** ** contents/link-scanner.ts *)

Section ScannerMore.
Import Scanner.
Variable test : string → string → bool.
Variable hostnameOf : string → option string.

Lemma scanLoop_app (hostsRegex : list string) (anchors : list string) :
  ∀ (detectedLinks : list Tabs.DetectedLink) (seenUrls : gset string),
    scanLoop test hostnameOf hostsRegex anchors detectedLinks seenUrls
    = detectedLinks ++ scanLoop test hostnameOf hostsRegex anchors [] seenUrls.
Proof.
  induction anchors as [|href rest IH]; intros detectedLinks seenUrls.
  { cbn. by rewrite app_nil_r. }
  cbn [scanLoop].
  destruct (negb (truthy_string href) || String.prefix "javascript:" href
            || bool_decide (href ∈ seenUrls)); [apply IH|].
  destruct (String.prefix "magnet:" href).
  { rewrite (IH (detectedLinks ++ _)), (IH ([] ++ _)), app_nil_l.
    by rewrite <- app_assoc. }
  destruct (matchesHosterPattern test href hostsRegex); [|apply IH].
  rewrite (IH (detectedLinks ++ _)), (IH ([] ++ _)), app_nil_l. by rewrite <- app_assoc.
Qed.

(** Every link of the result comes from an anchor that the loop had not
    seen, and says what the loop found for it. *)
Lemma scanLoop_sound (hostsRegex : list string) (anchors : list string) :
  ∀ (seenUrls : gset string) (link : Tabs.DetectedLink),
    link ∈ scanLoop test hostnameOf hostsRegex anchors [] seenUrls →
    Tabs.url link ∈ anchors ∧ (Tabs.url link ∉ seenUrls)
    ∧ Tabs.url link ≠ "" ∧ String.prefix "javascript:" (Tabs.url link) = false
    ∧ (if String.prefix "magnet:" (Tabs.url link)
       then link = {| Tabs.url := Tabs.url link; Tabs.host := "magnet";
                      Tabs.type := Tabs.magnet |}
       else matchesHosterPattern test (Tabs.url link) hostsRegex = true
            ∧ link = {| Tabs.url := Tabs.url link;
                        Tabs.host := extractHost hostnameOf (Tabs.url link);
                        Tabs.type := Tabs.hoster |}).
Proof.
  induction anchors as [|href rest IH]; intros seenUrls link Hin.
  { cbn in Hin. by apply elem_of_nil in Hin. }
  cbn [scanLoop] in Hin.
  assert (∀ seen, seenUrls ⊆ seen →
            link ∈ scanLoop test hostnameOf hostsRegex rest [] seen →
            Tabs.url link ∈ href :: rest ∧ (Tabs.url link ∉ seenUrls)
            ∧ Tabs.url link ≠ "" ∧ String.prefix "javascript:" (Tabs.url link) = false
            ∧ (if String.prefix "magnet:" (Tabs.url link)
               then link = {| Tabs.url := Tabs.url link; Tabs.host := "magnet";
                              Tabs.type := Tabs.magnet |}
               else matchesHosterPattern test (Tabs.url link) hostsRegex = true
                    ∧ link = {| Tabs.url := Tabs.url link;
                                Tabs.host := extractHost hostnameOf (Tabs.url link);
                                Tabs.type := Tabs.hoster |})) as Hrest.
  { intros seen Hsub Hlink. apply IH in Hlink as (Hanchor & Hnew & Hrest).
    split; [by apply list_elem_of_further|]. split; [|exact Hrest].
    intros Hold. apply Hnew, Hsub, Hold. }
  destruct (truthy_string href) eqn:Htruthy; cbn [negb orb] in Hin;
    [|by apply (Hrest seenUrls)].
  destruct (String.prefix "javascript:" href) eqn:Hjs; cbn [orb] in Hin;
    [by apply (Hrest seenUrls)|].
  destruct (bool_decide (href ∈ seenUrls)) eqn:Hseen; [by apply (Hrest seenUrls)|].
  apply bool_decide_eq_false in Hseen.
  assert (href ≠ "") as Hne.
  { intros ->. discriminate. }
  destruct (String.prefix "magnet:" href) eqn:Hmagnet.
  { rewrite scanLoop_app in Hin. apply elem_of_app in Hin as [Hhere|Hlater].
    - apply list_elem_of_singleton in Hhere as ->. cbn [Tabs.url].
      rewrite Hmagnet. repeat split; try done. apply list_elem_of_here.
    - apply (Hrest ({[href]} ∪ seenUrls)); [|done]. apply union_subseteq_r. }
  destruct (matchesHosterPattern test href hostsRegex) eqn:Hmatch.
  { rewrite scanLoop_app in Hin. apply elem_of_app in Hin as [Hhere|Hlater].
    - apply list_elem_of_singleton in Hhere as ->. cbn [Tabs.url].
      rewrite Hmagnet. repeat split; try done. apply list_elem_of_here.
    - apply (Hrest ({[href]} ∪ seenUrls)); [|done]. apply union_subseteq_r. }
  apply (Hrest ({[href]} ∪ seenUrls)); [|done]. apply union_subseteq_r.
Qed.

Lemma scanLoop_fresh (hostsRegex : list string) (anchors : list string)
    (seenUrls : gset string) (link : Tabs.DetectedLink) :
  link ∈ scanLoop test hostnameOf hostsRegex anchors [] seenUrls →
  Tabs.url link ∉ seenUrls.
Proof. intros Hin. by apply scanLoop_sound in Hin as (_ & ? & _). Qed.

Lemma scanLoop_NoDup (hostsRegex : list string) (anchors : list string) :
  ∀ seenUrls : gset string,
    NoDup (Tabs.url <$> scanLoop test hostnameOf hostsRegex anchors [] seenUrls).
Proof.
  induction anchors as [|href rest IH]; intros seenUrls; [constructor|].
  cbn [scanLoop].
  assert (∀ link : Tabs.DetectedLink, Tabs.url link = href →
            NoDup (Tabs.url <$>
                     [link] ++ scanLoop test hostnameOf hostsRegex rest []
                                 ({[href]} ∪ seenUrls))) as Hcons.
  { intros link Hurl. cbn [app fmap list_fmap]. apply NoDup_cons. split; [|apply IH].
    intros Hdup. apply list_elem_of_fmap in Hdup as (other & Hother & Hin).
    apply scanLoop_fresh in Hin. apply Hin. rewrite <- Hother, Hurl.
    apply elem_of_union_l, elem_of_singleton. done. }
  destruct (negb (truthy_string href) || String.prefix "javascript:" href
            || bool_decide (href ∈ seenUrls)); [apply IH|].
  destruct (String.prefix "magnet:" href).
  { rewrite scanLoop_app. by apply Hcons. }
  destruct (matchesHosterPattern test href hostsRegex); [|apply IH].
  rewrite scanLoop_app. by apply Hcons.
Qed.

Lemma scanLoop_sublist (hostsRegex : list string) (anchors : list string) :
  ∀ seenUrls : gset string,
    sublist (Tabs.url <$> scanLoop test hostnameOf hostsRegex anchors [] seenUrls) anchors.
Proof.
  induction anchors as [|href rest IH]; intros seenUrls; [constructor|].
  cbn [scanLoop].
  destruct (negb (truthy_string href) || String.prefix "javascript:" href
            || bool_decide (href ∈ seenUrls)); [apply sublist_cons, IH|].
  destruct (String.prefix "magnet:" href).
  { rewrite scanLoop_app. cbn [app fmap list_fmap Tabs.url]. apply sublist_skip, IH. }
  destruct (matchesHosterPattern test href hostsRegex); [|apply sublist_cons, IH].
  rewrite scanLoop_app. cbn [app fmap list_fmap Tabs.url]. apply sublist_skip, IH.
Qed.

Lemma scanLoop_complete (hostsRegex : list string) (anchors : list string) (href : string) :
  ∀ seenUrls : gset string,
    href ∈ anchors → href ∉ seenUrls → ScanReadings.detectable test hostsRegex href = true →
    href ∈ Tabs.url <$> scanLoop test hostnameOf hostsRegex anchors [] seenUrls.
Proof.
  induction anchors as [|head rest IH]; intros seenUrls Hin Hnew Hdetectable.
  { by apply elem_of_nil in Hin. }
  cbn [scanLoop].
  destruct (decide (head = href)) as [->|Hne].
  - unfold ScanReadings.detectable in Hdetectable.
    apply andb_true_iff in Hdetectable as [Hok Hkind].
    apply andb_true_iff in Hok as [Htruthy Hjs]. apply negb_true_iff in Hjs.
    rewrite Htruthy, Hjs, (bool_decide_eq_false_2 _ Hnew). cbn [negb orb].
    destruct (String.prefix "magnet:" href).
    { rewrite scanLoop_app. cbn [app fmap list_fmap Tabs.url]. apply list_elem_of_here. }
    cbn [orb] in Hkind. rewrite Hkind.
    rewrite scanLoop_app. cbn [app fmap list_fmap Tabs.url]. apply list_elem_of_here.
  - apply elem_of_cons in Hin as [->|Hin]; [done|].
    assert (href ∉ {[head]} ∪ seenUrls) as Hnew'.
    { rewrite elem_of_union, elem_of_singleton. intros [->|?]; done. }
    destruct (negb (truthy_string head) || String.prefix "javascript:" head
              || bool_decide (head ∈ seenUrls)); [by apply IH|].
    destruct (String.prefix "magnet:" head).
    { rewrite scanLoop_app. cbn [app fmap list_fmap]. apply list_elem_of_further.
      by apply IH. }
    destruct (matchesHosterPattern test head hostsRegex); [|by apply IH].
    rewrite scanLoop_app. cbn [app fmap list_fmap]. apply list_elem_of_further.
    by apply IH.
Qed.

(** The scan reports no address twice, and reports the addresses in the
    order of the page; each reported link is an anchor of the page whose
    address is not empty and is no [javascript:] address, and it is either
    a magnet link (host "magnet") or an address that one of the patterns
    matches (with the host that [extractHost] finds). *)
Theorem scanPageForLinks_sound (hostsRegex : list string) (anchors : list string) :
  let detectedLinks := scanPageForLinks test hostnameOf hostsRegex anchors in
  NoDup (Tabs.url <$> detectedLinks)
  ∧ sublist (Tabs.url <$> detectedLinks) anchors
  ∧ (∀ link, link ∈ detectedLinks →
       Tabs.url link ∈ anchors
       ∧ Tabs.url link ≠ "" ∧ String.prefix "javascript:" (Tabs.url link) = false
       ∧ (if String.prefix "magnet:" (Tabs.url link)
          then Tabs.host link = "magnet" ∧ Tabs.type link = Tabs.magnet
          else matchesHosterPattern test (Tabs.url link) hostsRegex = true
               ∧ Tabs.host link = extractHost hostnameOf (Tabs.url link)
               ∧ Tabs.type link = Tabs.hoster)).
Proof.
  cbn zeta. unfold scanPageForLinks.
  split; [apply scanLoop_NoDup|]. split; [apply scanLoop_sublist|].
  intros link Hin. apply scanLoop_sound in Hin as (Hanchor & _ & Hne & Hjs & Hkind).
  repeat split; try done.
  destruct (String.prefix "magnet:" (Tabs.url link)).
  - by rewrite Hkind.
  - destruct Hkind as [Hmatch Hlink]. by rewrite Hlink.
Qed.

(** The scan misses nothing: every anchor whose address is a magnet link
    is reported, also when no pattern could be loaded, and so is every
    anchor whose address one of the patterns matches (unless it is empty
    or a [javascript:] address). *)
Theorem scanPageForLinks_complete (hostsRegex : list string) (anchors : list string)
    (href : string) :
  href ∈ anchors →
  (String.prefix "magnet:" href = true →
   {| Tabs.url := href; Tabs.host := "magnet"; Tabs.type := Tabs.magnet |}
     ∈ scanPageForLinks test hostnameOf [] anchors
   ∧ {| Tabs.url := href; Tabs.host := "magnet"; Tabs.type := Tabs.magnet |}
     ∈ scanPageForLinks test hostnameOf hostsRegex anchors)
  ∧ (href ≠ "" → String.prefix "javascript:" href = false →
     String.prefix "magnet:" href = false →
     matchesHosterPattern test href hostsRegex = true →
     {| Tabs.url := href; Tabs.host := extractHost hostnameOf href;
        Tabs.type := Tabs.hoster |}
       ∈ scanPageForLinks test hostnameOf hostsRegex anchors).
Proof.
  intros Hin.
  assert (∀ patterns, ScanReadings.detectable test patterns href = true →
            ∃ link, link ∈ scanPageForLinks test hostnameOf patterns anchors
                    ∧ Tabs.url link = href) as Hfound.
  { intros patterns Hdetectable.
    pose proof (scanLoop_complete patterns anchors href ∅ Hin
                  (not_elem_of_empty _) Hdetectable) as Hurl.
    apply list_elem_of_fmap in Hurl as (link & Hurl & Hlink). by exists link. }
  assert (∀ patterns link, link ∈ scanPageForLinks test hostnameOf patterns anchors →
            Tabs.url link = href →
            if String.prefix "magnet:" href
            then link = {| Tabs.url := href; Tabs.host := "magnet";
                           Tabs.type := Tabs.magnet |}
            else link = {| Tabs.url := href; Tabs.host := extractHost hostnameOf href;
                           Tabs.type := Tabs.hoster |}) as Hshape.
  { intros patterns link Hlink Hurl.
    apply scanLoop_sound in Hlink as (_ & _ & _ & _ & Hkind). rewrite Hurl in Hkind.
    destruct (String.prefix "magnet:" href); [done|]. by destruct Hkind. }
  split.
  - intros Hmagnet.
    assert (∀ patterns, ScanReadings.detectable test patterns href = true) as Hdetectable.
    { intros patterns. unfold ScanReadings.detectable. rewrite Hmagnet.
      destruct href as [|c href]; [discriminate|].
      assert (String.prefix "javascript:" (String c href) = false) as ->; [|done].
      destruct (String.prefix "javascript:" (String c href)) eqn:Hjs; [|done].
      apply String.prefix_correct in Hmagnet, Hjs. cbn in Hmagnet, Hjs. congruence. }
    split.
    + destruct (Hfound [] (Hdetectable [])) as (link & Hlink & Hurl).
      pose proof (Hshape [] link Hlink Hurl) as Hlink'. rewrite Hmagnet in Hlink'.
      by rewrite <- Hlink'.
    + destruct (Hfound hostsRegex (Hdetectable hostsRegex)) as (link & Hlink & Hurl).
      pose proof (Hshape hostsRegex link Hlink Hurl) as Hlink'. rewrite Hmagnet in Hlink'.
      by rewrite <- Hlink'.
  - intros Hne Hjs Hmagnet Hmatch.
    assert (ScanReadings.detectable test hostsRegex href = true) as Hdetectable.
    { unfold ScanReadings.detectable, truthy_string. rewrite Hjs, Hmatch, orb_true_r.
      by rewrite (proj2 (String.eqb_neq href "") Hne). }
    destruct (Hfound hostsRegex Hdetectable) as (link & Hlink & Hurl).
    pose proof (Hshape hostsRegex link Hlink Hurl) as Hlink'. rewrite Hmagnet in Hlink'.
    by rewrite <- Hlink'.
Qed.

End ScannerMore.

Section PatternDelimiters.
Import Scanner.

Lemma endsWithSlash_snoc (s : string) : endsWithSlash (s +:+ "/") = true.
Proof.
  induction s as [|c s IH]; [done|].
  change (endsWithSlash (String c (s +:+ "/")) = true).
  destruct (s +:+ "/") eqn:Happ; [by destruct s | exact IH].
Qed.

Lemma dropLast_snoc (s : string) : dropLast (s +:+ "/") = s.
Proof.
  induction s as [|c s IH]; [done|].
  change (dropLast (String c (s +:+ "/")) = String c s).
  destruct (s +:+ "/") eqn:Happ; [by destruct s|].
  change (String c (dropLast (String a s0)) = String c s). by rewrite IH.
Qed.

(** A pattern that the service hands out as [/p/] is compiled as [p]; a
    pattern that does not start with a slash is compiled as it is. *)
Theorem stripDelimiters_unwraps (pattern : string) :
  stripDelimiters ("/" +:+ pattern +:+ "/") = pattern
  ∧ (String.prefix "/" pattern = false → stripDelimiters pattern = pattern).
Proof.
  split.
  - unfold stripDelimiters.
    assert (endsWithSlash ("/" +:+ pattern +:+ "/") = true) as ->
      by apply (endsWithSlash_snoc ("/" +:+ pattern)).
    assert (String.prefix "/" ("/" +:+ pattern +:+ "/") = true) as ->.
    { simpl. by destruct (pattern +:+ "/"). }
    change (slice_1_minus1 ("/" +:+ pattern +:+ "/")) with (dropLast (pattern +:+ "/")).
    apply dropLast_snoc.
  - intros Hplain. unfold stripDelimiters. by rewrite Hplain.
Qed.

End PatternDelimiters.

Lemma scanPageForLinks_complete_witness :
  TabSamples.magnetLink
    ∈ Scanner.scanPageForLinks TabSamples.test TabSamples.hostnameOf [] TabSamples.page
  ∧ TabSamples.hosterLink
    ∈ Scanner.scanPageForLinks TabSamples.test TabSamples.hostnameOf ["hoster.example"]
        TabSamples.page.
Proof.
  split.
  - pose proof (scanPageForLinks_complete TabSamples.test TabSamples.hostnameOf
                  ["hoster.example"] TabSamples.page
                  "magnet:?xt=urn:btih:0123456789abcdef"
                  ltac:(do 2 apply list_elem_of_further; apply list_elem_of_here))
      as (Hmagnet & _).
    apply Hmagnet. reflexivity.
  - pose proof (scanPageForLinks_complete TabSamples.test TabSamples.hostnameOf
                  ["hoster.example"] TabSamples.page
                  "https://www.hoster.example/file123"
                  ltac:(apply list_elem_of_here))
      as (_ & Hhoster).
    apply Hhoster; [discriminate | reflexivity | reflexivity | reflexivity].
Defined.
